(** * SpeccyNextTools: txt2bas / bas2txt

    A shallow embedding of the two C++ command line tools of the
    repository, [src/cpp/txt2bas/txt2bas.cpp] (text to tokenized +3DOS
    BASIC) and [src/cpp/bas2txt/bas2txt.cpp] (the inverse direction),
    followed by the properties the specification states about them.

    Conventions of the embedding.
    - A byte ([uint8_t], [char] seen through [unsigned char]) is a [Z] in
      [0, 255]; a [std::string] or [std::vector<uint8_t>] is a [list Z].
    - [int] values are [Z]; where the source computes [x + c] on [int] the
      32-bit wrap-around is written out with [wrap_int].
    - [size_t] positions inside a line are [nat].
    - [double] is [spec_float] (IEEE 754 binary64: [prec = 53],
      [emax = 1024]) of the standard library.
    - The character classification functions are those of the "C" locale,
      which is the locale of a program that never calls [setlocale]. *)

From Stdlib Require Import ZArith QArith List Bool String Ascii Lia SpecFloat.
From stdpp Require Import base list.

#[local] Open Scope Z_scope.

(** ** Bytes and characters *)

Definition byte_of_ascii (c : ascii) : Z := Z.of_N (N_of_ascii c).

(** The bytes of a string literal of the source. *)
Definition bytes (s : string) : list Z := map byte_of_ascii (list_ascii_of_string s).

(** [static_cast<uint8_t>(x)]. *)
Definition u8 (x : Z) : Z := x mod 256.

(** Two's complement wrap-around of a 32-bit [int]. *)
Definition wrap_int (x : Z) : Z := (x + 2147483648) mod 4294967296 - 2147483648.

Definition INT_MAX : Z := 2147483647.
Definition INT_MIN : Z := -2147483648.

Definition isdigit (c : Z) : bool := (48 <=? c) && (c <=? 57).
Definition isupper (c : Z) : bool := (65 <=? c) && (c <=? 90).
Definition islower (c : Z) : bool := (97 <=? c) && (c <=? 122).
Definition isalpha (c : Z) : bool := isupper c || islower c.
Definition isalnum (c : Z) : bool := isalpha c || isdigit c.
Definition isspace (c : Z) : bool := (c =? 32) || ((9 <=? c) && (c <=? 13)).
Definition toupper (c : Z) : Z := if islower c then c - 32 else c.
Definition tolower (c : Z) : Z := if isupper c then c + 32 else c.

(** [s.substr(pos, len)] and [s.substr(pos)]. *)
Definition substr (s : list Z) (pos len : nat) : list Z := take len (drop pos s).
Definition substr_from (s : list Z) (pos : nat) : list Z := drop pos s.

(** Index of the first element satisfying [p], as [std::string::find] and
    its relatives compute it on the part of the string they are given. *)
Fixpoint find_index (p : Z -> bool) (s : list Z) : option nat :=
  match s with
  | [] => None
  | c :: s' => if p c then Some O else option_map S (find_index p s')
  end.

(** [s.find(c, pos)]; [None] is [npos]. *)
Definition find_char (c : Z) (s : list Z) (pos : nat) : option nat :=
  option_map (fun n => (pos + n)%nat) (find_index (Z.eqb c) (drop pos s)).

(** The longest prefix whose elements satisfy [p], and what follows it. *)
Fixpoint span (p : Z -> bool) (s : list Z) : list Z * list Z :=
  match s with
  | [] => ([], [])
  | c :: s' => if p c then let '(a, b) := span p s' in (c :: a, b) else ([], s)
  end.

(** Value of a run of decimal digits, most significant first. *)
Definition digits_value (ds : list Z) : Z :=
  fold_left (fun acc d => 10 * acc + (d - 48)) ds 0.

(** Decimal digits of a non-negative number, as [operator<<] prints an
    [int]; the fuel bounds the number of digits (an [int] has at most 10). *)
Fixpoint decimal_digits (fuel : nat) (n : Z) (acc : list Z) : list Z :=
  match fuel with
  | O => acc
  | S fuel' =>
      let acc' := (48 + n mod 10) :: acc in
      if n <? 10 then acc' else decimal_digits fuel' (n / 10) acc'
  end.

Definition print_int (n : Z) : list Z :=
  if n <? 0 then 45 :: decimal_digits 20 (- n) [] else decimal_digits 20 n [].

(** ** Doubles *)

Definition prec : Z := 53.
Definition emax : Z := 1024.

(** [std::modf(number, &intPart) == 0.0]: the fractional part compares
    equal to zero.  [modf] of an infinity has fractional part zero; that of
    a NaN is a NaN, which compares unequal to everything. *)
Definition modf_is_zero (number : spec_float) : bool :=
  match number with
  | S754_zero _ => true
  | S754_infinity _ => true
  | S754_nan => false
  | S754_finite _ m e =>
      if 0 <=? e then true else Z.land (Zpos m) (Z.ones (- e)) =? 0
  end.

(** Exact comparison of a double with an integer constant; [None] when the
    double is a NaN. *)
Definition double_compare_Z (number : spec_float) (c : Z) : option comparison :=
  match number with
  | S754_nan => None
  | S754_infinity s => Some (if s then Lt else Gt)
  | S754_zero _ => Some (0 ?= c)
  | S754_finite s m e =>
      let v := cond_Zopp s (Zpos m) in
      Some (if 0 <=? e then v * 2 ^ e ?= c else v ?= c * 2 ^ (- e))
  end.

(** [number >= c] and [number <= c]. *)
Definition double_ge_Z (number : spec_float) (c : Z) : bool :=
  match double_compare_Z number c with
  | Some Gt | Some Eq => true
  | _ => false
  end.

Definition double_le_Z (number : spec_float) (c : Z) : bool :=
  match double_compare_Z number c with
  | Some Lt | Some Eq => true
  | _ => false
  end.

(** [static_cast<int>(number)]: truncation toward zero.  The source only
    casts values it has just checked to lie in [-65535, 65535]. *)
Definition double_to_int (number : spec_float) : Z :=
  match number with
  | S754_finite s m e =>
      cond_Zopp s (if 0 <=? e then Zpos m * 2 ^ e else Zpos m / 2 ^ (- e))
  | _ => 0
  end.

(** An exact positive or zero integer as an operand of [SFdiv]; the mantissa
    is not rounded, the division below rounds once. *)
Definition exact_operand (n : Z) : spec_float :=
  match n with
  | Zpos p => S754_finite false p 0
  | _ => S754_zero false
  end.

(** A value below the smallest normal double, [2 ^ (2 - emax)]. *)
Definition is_tiny (r : spec_float) : bool :=
  match r with
  | S754_zero _ => true
  | S754_finite _ m e => Zdigits2 (Zpos m) + e <? 3 - emax
  | _ => false
  end.

(** The double [r] is the quotient [m / 10 ^ k] exactly. *)
Definition is_exact (m k : Z) (r : spec_float) : bool :=
  match r with
  | S754_zero _ => m =? 0
  | S754_finite _ mant e =>
      if 0 <=? e then Zpos mant * 2 ^ e * 10 ^ k =? m
      else Zpos mant * 10 ^ k =? m * 2 ^ (- e)
  | _ => false
  end.

(** [std::stod(numStr)] for the strings the tokenizer hands to it: runs of
    decimal digits and periods that start with a digit, or with a period
    followed by a digit.  [strtod] converts the longest prefix of the form
    digits, optional period, digits (so it stops at a second period) to the
    nearest double [r].  [None] stands for the exception [std::stod] throws:
    [invalid_argument] when there is no digit, [out_of_range] when [strtod]
    reports [ERANGE].  That is the case when [r] is infinite, and when the
    result is tiny and inexact: the value rounded to 53 bits with an
    unbounded exponent ([wide], computed in a format whose exponent range
    contains every quotient of this kind) is below the smallest normal
    double, and [r] is not the value itself.  So a literal that is a
    subnormal double exactly is accepted. *)
Definition stod (numStr : list Z) : option spec_float :=
  let '(ip, rest) := span isdigit numStr in
  let fp := match rest with
            | 46 :: rest' => fst (span isdigit rest')
            | _ => []
            end in
  if (length ip + length fp =? 0)%nat then None
  else
    let m := digits_value (ip ++ fp) in
    let k := Z.of_nat (length fp) in
    let r := SFdiv prec emax (exact_operand m) (exact_operand (10 ^ k)) in
    let wide := SFdiv prec (emax + 4 * k + 64) (exact_operand m) (exact_operand (10 ^ k)) in
    match r with
    | S754_infinity _ => None
    | _ => if is_tiny wide && negb (is_exact m k r) then None else Some r
    end.

Module txt2bas.

(** *** Plus3Dos *)

(** [std::copy(sig.begin(), sig.end(), header.begin() + pos)]. *)
Fixpoint copy_at (pos : nat) (src : list Z) (dst : list Z) : list Z :=
  match src with
  | [] => dst
  | c :: src' => copy_at (S pos) src' (<[pos := c]> dst)
  end.

(** [Plus3Dos::CreateHeader(basicLength, autoStartLine)]. *)
Definition CreateHeader (basicLength autoStartLine : Z) : list Z :=
  let header := replicate 128 0 in
  let header := copy_at 0 (bytes "PLUS3DOS") header in
  let header := <[8%nat := 0x1A]> header in
  let header := <[9%nat := 0x01]> header in
  let header := <[10%nat := 0x00]> header in
  let totalFileSize := wrap_int (basicLength + 128) in
  let header := <[11%nat := u8 (Z.land totalFileSize 0xFF)]> header in
  let header := <[12%nat := u8 (Z.land (Z.shiftr totalFileSize 8) 0xFF)]> header in
  let header := <[13%nat := u8 (Z.land (Z.shiftr totalFileSize 16) 0xFF)]> header in
  let header := <[14%nat := u8 (Z.land (Z.shiftr totalFileSize 24) 0xFF)]> header in
  let header := <[15%nat := 0x00]> header in
  let header := <[16%nat := u8 (Z.land basicLength 0xFF)]> header in
  let header := <[17%nat := u8 (Z.land (Z.shiftr basicLength 8) 0xFF)]> header in
  let header :=
    if (0 <=? autoStartLine) && (autoStartLine <? 32768) then
      let header := <[18%nat := u8 (Z.land autoStartLine 0xFF)]> header in
      <[19%nat := u8 (Z.land (Z.shiftr autoStartLine 8) 0xFF)]> header
    else
      let header := <[18%nat := u8 (Z.land 32768 0xFF)]> header in
      <[19%nat := u8 (Z.land (Z.shiftr 32768 8) 0xFF)]> header in
  let header := <[20%nat := u8 (Z.land basicLength 0xFF)]> header in
  let header := <[21%nat := u8 (Z.land (Z.shiftr basicLength 8) 0xFF)]> header in
  let sum := fold_left (fun sum i => sum + nth i header 0) (seq 0 127) 0 in
  <[127%nat := u8 (Z.rem sum 256)]> header.

(** *** SinclairNumber *)

(** [SinclairNumber::Pack(number)]. *)
Definition Pack (number : spec_float) : list Z :=
  if modf_is_zero number && double_ge_Z number (-65535) && double_le_Z number 65535
  then
    let val := double_to_int number in
    let sign := if val <? 0 then 0xFF else 0x00 in
    let val := if val <? 0 then - val else val in
    [0x00; sign; u8 (Z.land val 0xFF); u8 (Z.land (Z.shiftr val 8) 0xFF); 0x00]
  else [0; 0; 0; 0; 0].

(** *** TokenMap *)

(** The entries of [TokenMap::TokenMap()] in the order of the assignments.
    All keys are distinct, so no assignment overwrites an earlier one. *)
Definition Map : list (list Z * Z) :=
  map (fun p => (bytes (fst p), snd p))
  ([
    ("PEEK$", 0x87); ("REG", 0x88); ("DPOKE", 0x89); ("DPEEK", 0x8A);
    ("MOD", 0x8B); ("<<", 0x8C); (">>", 0x8D); ("UNTIL", 0x8E);
    ("ERROR", 0x8F); ("ON", 0x90); ("DEFPROC", 0x91); ("ENDPROC", 0x92);
    ("PROC", 0x93); ("LOCAL", 0x94); ("DRIVER", 0x95); ("WHILE", 0x96);
    ("REPEAT", 0x97); ("ELSE", 0x98); ("REMOUNT", 0x99); ("BANK", 0x9A);
    ("TILE", 0x9B); ("LAYER", 0x9C); ("PALETTE", 0x9D); ("SPRITE", 0x9E);
    ("PWD", 0x9F); ("CD", 0xA0); ("MKDIR", 0xA1); ("RMDIR", 0xA2);
    ("SPECTRUM", 0xA3); ("PLAY", 0xA4); ("RND", 0xA5); ("INKEY$", 0xA6);
    ("PI", 0xA7); ("FN", 0xA8); ("POINT", 0xA9); ("SCREEN$", 0xAA);
    ("ATTR", 0xAB); ("AT", 0xAC); ("TAB", 0xAD); ("VAL$", 0xAE);
    ("CODE", 0xAF); ("VAL", 0xB0); ("LEN", 0xB1); ("SIN", 0xB2);
    ("COS", 0xB3); ("TAN", 0xB4); ("ASN", 0xB5); ("ACS", 0xB6); ("ATN", 0xB7);
    ("LN", 0xB8); ("EXP", 0xB9); ("INT", 0xBA); ("SQR", 0xBB); ("SGN", 0xBC);
    ("ABS", 0xBD); ("PEEK", 0xBE); ("IN", 0xBF); ("USR", 0xC0);
    ("STR$", 0xC1); ("CHR$", 0xC2); ("NOT", 0xC3); ("BIN", 0xC4);
    ("OR", 0xC5); ("AND", 0xC6); ("<=", 0xC7); (">=", 0xC8); ("<>", 0xC9);
    ("LINE", 0xCA); ("THEN", 0xCB); ("TO", 0xCC); ("STEP", 0xCD);
    ("DEF FN", 0xCE); ("CAT", 0xCF); ("FORMAT", 0xD0); ("MOVE", 0xD1);
    ("ERASE", 0xD2); ("OPEN #", 0xD3); ("CLOSE #", 0xD4); ("MERGE", 0xD5);
    ("VERIFY", 0xD6); ("BEEP", 0xD7); ("CIRCLE", 0xD8); ("INK", 0xD9);
    ("PAPER", 0xDA); ("FLASH", 0xDB); ("BRIGHT", 0xDC); ("INVERSE", 0xDD);
    ("OVER", 0xDE); ("OUT", 0xDF); ("LPRINT", 0xE0); ("LLIST", 0xE1);
    ("STOP", 0xE2); ("READ", 0xE3); ("DATA", 0xE4); ("RESTORE", 0xE5);
    ("NEW", 0xE6); ("BORDER", 0xE7); ("CONTINUE", 0xE8); ("DIM", 0xE9);
    ("REM", 0xEA); ("FOR", 0xEB); ("GO TO", 0xEC); ("GOTO", 0xEC);
    ("GO SUB", 0xED); ("GOSUB", 0xED); ("INPUT", 0xEE); ("LOAD", 0xEF);
    ("LIST", 0xF0); ("LET", 0xF1); ("PAUSE", 0xF2); ("NEXT", 0xF3);
    ("POKE", 0xF4); ("PRINT", 0xF5); ("PLOT", 0xF6); ("RUN", 0xF7);
    ("SAVE", 0xF8); ("RANDOMIZE", 0xF9); ("IF", 0xFA); ("CLS", 0xFB);
    ("DRAW", 0xFC); ("CLEAR", 0xFD); ("RETURN", 0xFE); ("COPY", 0xFF)
   ]%string).

(** [_tokenMap.Map[k]]; [operator[]] gives the value-initialised 0 for an
    absent key. *)
Definition Map_at (k : list Z) : Z :=
  match List.find (fun p => bool_decide (fst p = k)) Map with
  | Some p => snd p
  | None => 0
  end.

(** *** BasConverter *)

Fixpoint insert_by_length (k : list Z) (ks : list (list Z)) : list (list Z) :=
  match ks with
  | [] => [k]
  | k' :: ks' =>
      if (length k' <? length k)%nat then k :: ks else k' :: insert_by_length k ks'
  end.

(** [_sortedKeys] as the constructor builds it: the keys of the map sorted
    by length, longest first.  The source iterates an [unordered_map] and
    sorts with [std::sort], so the order among keys of one length is not
    fixed by the source; the order taken here is one of the possible ones
    (see [match_keys_order_irrelevant] below for why the choice does not
    matter). *)
Definition _sortedKeys : list (list Z) :=
  Eval vm_compute in foldr insert_by_length [] (map fst Map).

Fixpoint equal_with (f : Z -> Z -> bool) (a b : list Z) : bool :=
  match a, b with
  | [], _ => true
  | x :: a', y :: b' => f x y && equal_with f a' b'
  | _ :: _, [] => false
  end.

(** [CaseInsensitiveEquals(a, b)]. *)
Definition CaseInsensitiveEquals (a b : list Z) : bool :=
  if negb (length a =? length b)%nat then false
  else equal_with (fun c1 c2 => toupper c1 =? toupper c2) a b.

(** The loop over [_sortedKeys] in [ParseLine]: the first key that is not
    skipped by one of the three [continue] statements. *)
Fixpoint match_keys (keys : list (list Z)) (text : list Z) (i : nat) : option (list Z) :=
  match keys with
  | [] => None
  | k :: keys' =>
      if (length text <? i + length k)%nat then match_keys keys' text i
      else if negb (CaseInsensitiveEquals (substr text i (length k)) k)
      then match_keys keys' text i
      else
        let isAlpha := isalpha (nth 0 k 0) in
        let prevOk := (i =? 0)%nat || negb (isalpha (nth (i - 1) text 0)) in
        let nextOk := (length text <=? i + length k)%nat
                      || negb (isalnum (nth (i + length k) text 0)) in
        if isAlpha && (negb prevOk || negb nextOk) then match_keys keys' text i
        else Some k
  end.

(** [while (i < text.length() && text[i] == ' ') i++;] *)
Fixpoint skip_spaces (fuel : nat) (text : list Z) (i : nat) : nat :=
  match fuel with
  | O => i
  | S fuel' =>
      if (i <? length text)%nat && (nth i text 0 =? 32)
      then skip_spaces fuel' text (S i) else i
  end.

(** The backwards scan of the comment stage, [n] being [back + 1]:
    [while (back >= 0 && text[back] == ' ') back--;] and then
    [back < 0 || text[back] == ':']. *)
Fixpoint comment_context (text : list Z) (n : nat) : bool :=
  match n with
  | O => true
  | S back =>
      if nth back text 0 =? 32 then comment_context text back
      else nth back text 0 =? 58
  end.

(** One turn of the [for] loop of [ParseLine] at position [i], which is
    below [text.length()]: the bytes appended to [lineData] and the value
    of [i] when the turn ends, before the [i++] of the loop.

    [commentStage] selects between the two copies of the tokenizer in the
    repository.  [src/cpp/txt2bas/txt2bas.cpp] has the stages strings,
    numbers, keywords, literal; that is [commentStage = false].  The other
    copy of [txt2bas.cpp] (and the C# port) has one more stage between
    numbers and keywords, "Comment Handling"; that is [commentStage = true]. *)
Definition ParseLine_body (commentStage : bool) (text : list Z) (i : nat)
  : list Z * nat :=
  let c := nth i text 0 in
  (* Handle Strings *)
  if c =? 34 then
    match find_char 34 text (i + 1) with
    | None => (substr_from text i, length text)
    | Some e => (substr text i (e - i + 1), e)
    end
  else
    (* Handle Numbers *)
    let number :=
      if isdigit c
         || ((c =? 46) && (i + 1 <? length text)%nat && isdigit (nth (i + 1) text 0))
      then
        let numStr := fst (span (fun c => isdigit c || (c =? 46)) (drop i text)) in
        let j := (i + length numStr)%nat in
        match stod numStr with
        | Some val => Some (numStr ++ [0x0E] ++ Pack val, (j - 1)%nat)
        | None => None
        end
      else None in
    match number with
    | Some r => r
    | None =>
        (* Comment Handling (only in the second copy) *)
        if commentStage && (c =? 59) && comment_context text i
        then (substr_from text i, length text)
        else
          (* Handle Tokens *)
          match match_keys _sortedKeys text i with
          | Some k =>
              let token := Map_at k in
              let i := (i + length k)%nat in
              if token =? 0xEA then
                if (i <? length text)%nat
                then ([token] ++ substr_from text i, (length text - 1)%nat)
                else ([token], (i - 1)%nat)
              else ([token], (skip_spaces (length text) text i - 1)%nat)
          | None => ([u8 c], i)
          end
    end.

(** The [for] loop of [ParseLine]; every turn moves [i] forward, so
    [text.length()] turns are enough. *)
Fixpoint ParseLine_loop (fuel : nat) (commentStage : bool) (text : list Z)
    (i : nat) (lineData : list Z) : list Z :=
  match fuel with
  | O => lineData
  | S fuel' =>
      if (i <? length text)%nat then
        let '(out, i') := ParseLine_body commentStage text i in
        ParseLine_loop fuel' commentStage text (S i') (lineData ++ out)
      else lineData
  end.

(** [lineData] at the end of [ParseLine], with the end of line marker. *)
Definition ParseLine_data (commentStage : bool) (text : list Z) : list Z :=
  ParseLine_loop (length text) commentStage text 0 [] ++ [0x0D].

Definition ParseLine_gen (commentStage : bool) (lineNum : Z) (text : list Z) : list Z :=
  let lineData := ParseLine_data commentStage text in
  let length := Z.of_nat (length lineData) in
  [u8 (Z.land (Z.shiftr lineNum 8) 0xFF); u8 (Z.land lineNum 0xFF);
   u8 (Z.land length 0xFF); u8 (Z.land (Z.shiftr length 8) 0xFF)] ++ lineData.

(** [BasConverter::ParseLine] of [src/cpp/txt2bas/txt2bas.cpp]. *)
Definition ParseLine : Z -> list Z -> list Z := ParseLine_gen false.

(** [BasConverter::ParseLine] of the second copy of [txt2bas.cpp]. *)
Definition ParseLine_with_comments : Z -> list Z -> list Z := ParseLine_gen true.

(** The characters [" \t\r\n"] of the trimming step. *)
Definition is_trim_char (c : Z) : bool :=
  (c =? 32) || (c =? 9) || (c =? 13) || (c =? 10).

(** [line.erase(0, line.find_first_not_of(" \t\r\n"));]
    [line.erase(line.find_last_not_of(" \t\r\n") + 1);] *)
Definition trim (line : list Z) : list Z :=
  let line := snd (span is_trim_char line) in
  rev (snd (span is_trim_char (rev line))).

(** [std::regex_search(line, match, lineRegex)], the regular expression
    being: start of line, a group of one or more digits, one or more white
    space characters, a group of any characters to the end.  The result is
    the two groups, when the line starts with at least one digit followed
    by at least one white space character.  The period of the last group
    does not match a line terminator.  The search of the standard library
    recurses once for every character the last group takes, and needs its
    stack: the function stands for it on lines that leave the stack far
    from exhausted, and the theorems on numbered lines bound the length of
    a line by 9362 characters. *)
Definition lineRegex (line : list Z) : option (list Z * list Z) :=
  let '(ds, rest) := span isdigit line in
  let '(ws, rest) := span isspace rest in
  if (0 <? length ds)%nat && (0 <? length ws)%nat
  then Some (ds, fst (span (fun c => negb ((c =? 10) || (c =? 13))) rest))
  else None.

(** [std::stoi] on a run of digits; [None] is [std::out_of_range]. *)
Definition stoi (ds : list Z) : option Z :=
  let v := digits_value ds in
  if v <=? INT_MAX then Some v else None.

(** [iss >> dummy] on a [std::string]: skip white space, read up to the
    next white space; the result is the word and the rest of the stream. *)
Definition read_word (s : list Z) : list Z * list Z :=
  span (fun c => negb (isspace c)) (snd (span isspace s)).

(** [iss >> val] on an [int]: skip white space, an optional sign, decimal
    digits.  [None] is a failed extraction: no digit, or a value that does
    not fit an [int]. *)
Definition extract_int (s : list Z) : option Z :=
  let s := snd (span isspace s) in
  let '(neg, s) := match s with
                   | 45 :: s' => (true, s')
                   | 43 :: s' => (false, s')
                   | _ => (false, s)
                   end in
  let ds := fst (span isdigit s) in
  if (length ds =? 0)%nat then None
  else
    let v := cond_Zopp neg (digits_value ds) in
    if (v <? INT_MIN) || (INT_MAX <? v) then None else Some v.

(** The state of [ConvertFile] between two lines: the local variables
    [output] and [currentLineNum] and the member [AutoStartLine]. *)
Record conv_state : Type := mk_state {
  output : list Z;
  currentLineNum : Z;
  AutoStartLine : Z
}.

(** The member initialiser [int AutoStartLine = 32768;] and the locals. *)
Definition initial_state : conv_state := mk_state [] 10 32768.

(** The body of the [while (std::getline(file, line))] loop.  [None] is the
    exception of [std::stoi] leaving [ConvertFile]. *)
Definition ConvertFile_line (commentStage : bool) (st : conv_state) (line : list Z)
  : option conv_state :=
  let line := trim line in
  if (length line =? 0)%nat then Some st
  else if nth 0 line 0 =? 35 then
    let lowerLine := map tolower line in
    if bool_decide (take 10 lowerLine = bytes "#autostart") then
      let '(dummy, iss) := read_word line in
      match extract_int iss with
      | Some val => Some (mk_state (output st) (currentLineNum st) val)
      | None => Some st
      end
    else Some st
  else
    match lineRegex line with
    | Some (m1, m2) =>
        match stoi m1 with
        | Some lineNum =>
            Some (mk_state (output st ++ ParseLine_gen commentStage lineNum m2)
                           (wrap_int (lineNum + 10)) (AutoStartLine st))
        | None => None
        end
    | None =>
        Some (mk_state (output st ++ ParseLine_gen commentStage (currentLineNum st) line)
                       (wrap_int (currentLineNum st + 10)) (AutoStartLine st))
    end.

Fixpoint ConvertFile_lines (commentStage : bool) (st : conv_state)
    (lines : list (list Z)) : option conv_state :=
  match lines with
  | [] => Some st
  | line :: lines' =>
      match ConvertFile_line commentStage st line with
      | Some st' => ConvertFile_lines commentStage st' lines'
      | None => None
      end
  end.

(** [BasConverter::ConvertFile] on the lines [std::getline] reads from the
    file, for a converter in state [st]; the result carries the bytes
    returned and the value [AutoStartLine] is left with. *)
Definition ConvertFile (lines : list (list Z)) : option conv_state :=
  ConvertFile_lines false initial_state lines.

(** What [main] writes to the output file: header, then data. *)
Definition encode (lines : list (list Z)) : option (list Z) :=
  match ConvertFile lines with
  | Some st =>
      let data := output st in
      Some (CreateHeader (wrap_int (Z.of_nat (length data))) (AutoStartLine st) ++ data)
  | None => None
  end.

End txt2bas.

Module bas2txt.

(** *** ReverseTokenMap *)

(** The entries of [ReverseTokenMap::ReverseTokenMap()]. *)
Definition Map : list (Z * list Z) :=
  map (fun p => (fst p, bytes (snd p)))
  ([
    (0x87, "PEEK$"); (0x88, "REG"); (0x89, "DPOKE"); (0x8A, "DPEEK");
    (0x8B, "MOD"); (0x8C, "<<"); (0x8D, ">>"); (0x8E, "UNTIL");
    (0x8F, "ERROR"); (0x90, "ON"); (0x91, "DEFPROC"); (0x92, "ENDPROC");
    (0x93, "PROC"); (0x94, "LOCAL"); (0x95, "DRIVER"); (0x96, "WHILE");
    (0x97, "REPEAT"); (0x98, "ELSE"); (0x99, "REMOUNT"); (0x9A, "BANK");
    (0x9B, "TILE"); (0x9C, "LAYER"); (0x9D, "PALETTE"); (0x9E, "SPRITE");
    (0x9F, "PWD"); (0xA0, "CD"); (0xA1, "MKDIR"); (0xA2, "RMDIR");
    (0xA3, "SPECTRUM"); (0xA4, "PLAY"); (0xA5, "RND"); (0xA6, "INKEY$");
    (0xA7, "PI"); (0xA8, "FN"); (0xA9, "POINT"); (0xAA, "SCREEN$");
    (0xAB, "ATTR"); (0xAC, "AT"); (0xAD, "TAB"); (0xAE, "VAL$");
    (0xAF, "CODE"); (0xB0, "VAL"); (0xB1, "LEN"); (0xB2, "SIN");
    (0xB3, "COS"); (0xB4, "TAN"); (0xB5, "ASN"); (0xB6, "ACS"); (0xB7, "ATN");
    (0xB8, "LN"); (0xB9, "EXP"); (0xBA, "INT"); (0xBB, "SQR"); (0xBC, "SGN");
    (0xBD, "ABS"); (0xBE, "PEEK"); (0xBF, "IN"); (0xC0, "USR");
    (0xC1, "STR$"); (0xC2, "CHR$"); (0xC3, "NOT"); (0xC4, "BIN");
    (0xC5, "OR"); (0xC6, "AND"); (0xC7, "<="); (0xC8, ">="); (0xC9, "<>");
    (0xCA, "LINE"); (0xCB, "THEN"); (0xCC, "TO"); (0xCD, "STEP");
    (0xCE, "DEF FN"); (0xCF, "CAT"); (0xD0, "FORMAT"); (0xD1, "MOVE");
    (0xD2, "ERASE"); (0xD3, "OPEN #"); (0xD4, "CLOSE #"); (0xD5, "MERGE");
    (0xD6, "VERIFY"); (0xD7, "BEEP"); (0xD8, "CIRCLE"); (0xD9, "INK");
    (0xDA, "PAPER"); (0xDB, "FLASH"); (0xDC, "BRIGHT"); (0xDD, "INVERSE");
    (0xDE, "OVER"); (0xDF, "OUT"); (0xE0, "LPRINT"); (0xE1, "LLIST");
    (0xE2, "STOP"); (0xE3, "READ"); (0xE4, "DATA"); (0xE5, "RESTORE");
    (0xE6, "NEW"); (0xE7, "BORDER"); (0xE8, "CONTINUE"); (0xE9, "DIM");
    (0xEA, "REM"); (0xEB, "FOR"); (0xEC, "GO TO"); (0xED, "GO SUB");
    (0xEE, "INPUT"); (0xEF, "LOAD"); (0xF0, "LIST"); (0xF1, "LET");
    (0xF2, "PAUSE"); (0xF3, "NEXT"); (0xF4, "POKE"); (0xF5, "PRINT");
    (0xF6, "PLOT"); (0xF7, "RUN"); (0xF8, "SAVE"); (0xF9, "RANDOMIZE");
    (0xFA, "IF"); (0xFB, "CLS"); (0xFC, "DRAW"); (0xFD, "CLEAR");
    (0xFE, "RETURN"); (0xFF, "COPY")
   ]%string).

(** [_reverseTokenMap.Map.find(b)]; [None] is [end()]. *)
Definition Map_find (b : Z) : option (list Z) :=
  option_map snd (List.find (fun p => fst p =? b) Map).

(** *** BasParser *)

(** One turn of the [for] loop of [DecodeLineData] at position [i], which
    is below [end]: the characters written to the stream and the value of
    [i] when the turn ends, before the [i++] of the loop. *)
Definition DecodeLineData_body (data : list Z) (i end_ : Z) : list Z * Z :=
  let b := nth (Z.to_nat i) data 0 in
  (* Case 1: Hidden Number Marker *)
  if b =? 0x0E then ([], i + 5)
  else
    match Map_find b with
    | Some keyword =>
        (* Case 2: Token, with the smart spacing *)
        let space :=
          if i + 1 <? end_ then
            let next := nth (Z.to_nat (i + 1)) data 0 in
            if (next <? 128) && negb (next =? 0x0E) then
              if isalnum next || (next =? 34) || (next =? 46) then [32] else []
            else []
          else [] in
        (keyword ++ space, i)
    | None =>
        (* Case 3 and 4: printable ASCII and the copyright symbol *)
        if (32 <=? b) && (b <=? 126) then ([b], i)
        else if b =? 0x7F then ([0xC2; 0xA9], i)
        else ([], i)
    end.

Fixpoint DecodeLineData_loop (fuel : nat) (data : list Z) (i end_ : Z)
    (sb : list Z) : list Z :=
  match fuel with
  | O => sb
  | S fuel' =>
      if i <? end_ then
        let '(out, i') := DecodeLineData_body data i end_ in
        DecodeLineData_loop fuel' data (i' + 1) end_ (sb ++ out)
      else sb
  end.

(** [BasParser::DecodeLineData(data, start, length)]; the loop runs at most
    [length] times. *)
Definition DecodeLineData (data : list Z) (start length : Z) : list Z :=
  DecodeLineData_loop (Z.to_nat length) data start (start + length) [].

(** Step 1 of [Parse]: the text written for the header and the offset at
    which the line records start. *)
Definition Parse_header (data : list Z) : list Z * nat :=
  if (128 <=? length data)%nat then
    let signature := take 8 data in
    if bool_decide (signature = bytes "PLUS3DOS")
       || bool_decide (substr signature 0 7 = bytes "ZXPLUS3")
    then
      let autoStart := Z.lor (nth 18 data 0) (Z.shiftl (nth 19 data 0) 8) in
      (if negb (autoStart =? 32768)
       then bytes "#autostart " ++ print_int autoStart ++ [10] else [],
       128%nat)
    else ([], O)
  else ([], O).

(** One turn of the [while (offset < data.size())] loop of [Parse] from the
    state [(offset, sb)]; [None] when the loop is left, by its condition or
    by one of the two [break] statements. *)
Definition Parse_step (data : list Z) (st : nat * list Z) : option (nat * list Z) :=
  let '(offset, sb) := st in
  if (offset <? length data)%nat then
    if (length data <? offset + 4)%nat then None
    else
      let lineNum := Z.lor (Z.shiftl (nth offset data 0) 8) (nth (offset + 1) data 0) in
      let offset := (offset + 2)%nat in
      let lineLen := Z.lor (nth offset data 0) (Z.shiftl (nth (offset + 1) data 0) 8) in
      let offset := (offset + 2)%nat in
      if Z.of_nat (length data) <? Z.of_nat offset + lineLen - 1 then None
      else
        let lineContent := DecodeLineData data (Z.of_nat offset) (lineLen - 1) in
        Some ((offset + Z.to_nat lineLen)%nat,
              sb ++ print_int lineNum ++ [32] ++ lineContent ++ [10])
  else None.

(** The [while] loop of [Parse]: the stream contents when the loop is
    left, or [None] when [fuel] turns were not enough to leave it. *)
Fixpoint Parse_loop (fuel : nat) (data : list Z) (st : nat * list Z)
  : option (list Z) :=
  match fuel with
  | O => None
  | S fuel' =>
      match Parse_step data st with
      | None => Some (snd st)
      | Some st' => Parse_loop fuel' data st'
      end
  end.

(** [BasParser::Parse(data)].  The result is [None] only if the loop has
    not been left after [data.size() + 1] turns, which never happens, as
    is shown below. *)
Definition Parse (data : list Z) : option (list Z) :=
  let '(sb, offset) := Parse_header data in
  Parse_loop (S (length data)) data (offset, sb).

End bas2txt.

(** ** Vocabulary of the specification *)

(** Sum of a sequence of bytes. *)
Definition byte_sum (l : list Z) : Z := foldr Z.add 0 l.

(** The header before the checksum is stored: 128 bytes, none negative. *)
Definition header_shape (h : list Z) : Prop :=
  length h = 128%nat /\ Forall (fun b => 0 <= b) h.

(** The real number a double stands for, as a rational; [None] for the
    infinities and NaN. *)
Definition double_value (d : spec_float) : option Q :=
  match d with
  | S754_zero _ => Some (0 # 1)%Q
  | S754_finite s m e =>
      Some (if 0 <=? e then (cond_Zopp s (Zpos m) * 2 ^ e # 1)%Q
            else (cond_Zopp s (Zpos m) # Z.to_pos (2 ^ (- e)))%Q)
  | _ => None
  end.

(** The double [d] is exactly the integer [v]. *)
Definition double_is_integer (d : spec_float) (v : Z) : Prop :=
  exists q : Q, double_value d = Some q /\ (q == inject_Z v)%Q.

(** The record length declared by the four header bytes at [offset], and
    the number of bytes of the buffer behind those four bytes. *)
Definition declared_length (data : list Z) (offset : nat) : Z :=
  Z.lor (nth (offset + 2) data 0) (Z.shiftl (nth (offset + 3) data 0) 8).

Definition bytes_remaining (data : list Z) (offset : nat) : Z :=
  Z.of_nat (length data) - Z.of_nat (offset + 4).

(** *** Source programs made of tokens *)

(** The tokens of a source line: a keyword as the line spells it, an
    integer literal, a string literal (the text between its quotes). *)
Inductive item : Type :=
| Kw (k : list Z)
| Num (n : Z)
| Str (s : list Z).

Definition item_text (it : item) : list Z :=
  match it with
  | Kw k => k
  | Num n => print_int n
  | Str s => [34] ++ s ++ [34]
  end.

(** A source line in the style "one space after each token". *)
Definition line_text (items : list item) : list Z :=
  concat (map (fun it => item_text it ++ [32]) items).

(** Printable ASCII, the bytes the decoder copies as they are. *)
Definition printable (c : Z) : bool := (32 <=? c) && (c <=? 126).




(** Deletion of the spaces that are outside string literals. *)
Fixpoint squeeze (in_string : bool) (l : list Z) : list Z :=
  match l with
  | [] => []
  | c :: l' =>
      if c =? 34 then c :: squeeze (negb in_string) l'
      else if (c =? 32) && negb in_string then squeeze in_string l'
      else c :: squeeze in_string l'
  end.


(** The text [Parse] returns, cut into its lines. *)
Definition unlines (lines : list (list Z)) : list Z :=
  concat (map (fun l => l ++ [10]) lines).

(** *** Auxiliary definitions for the round trip *)

(** A source line after the trimming step of [ConvertFile]: the tokens
    separated by single spaces. *)
Definition tail_text (joined : list item -> list Z) (its : list item) : list Z :=
  match its with
  | [] => []
  | _ :: _ => 32 :: joined its
  end.

Fixpoint joined (items : list item) : list Z :=
  match items with
  | [] => []
  | it :: its => item_text it ++ tail_text joined its
  end.



Definition sep (it : item) : list Z :=
  match it with
  | Kw _ => []
  | _ => [32]
  end.


(** The keys in front of the first occurrence of [k] in a list of keys. *)
Fixpoint keys_before (k : list Z) (keys : list (list Z)) : list (list Z) :=
  match keys with
  | [] => []
  | k' :: keys' => if bool_decide (k' = k) then [] else k' :: keys_before k keys'
  end.

(** The key [k'] cannot match where the text continues with the key [k]
    followed by a space or by the end of the line: either it is no longer
    than [k] and differs from the start of [k], or it is longer and differs
    from [k] followed by a space. *)
Definition passes_by (k k' : list Z) : bool :=
  if (length k' <=? length k)%nat
  then negb (txt2bas.CaseInsensitiveEquals (take (length k') k) k')
  else negb (txt2bas.equal_with (fun c1 c2 => toupper c1 =? toupper c2)
               (k ++ [32]) (take (length k + 1) k')).

(** A character no key starts with, up to case. *)
Definition starts_no_key (c : Z) : bool :=
  forallb (fun k => match k with
                    | kc :: _ => negb (toupper c =? toupper kc)
                    | [] => false
                    end) txt2bas._sortedKeys.

(** What the round trip needs to know of a key [k]: it is not empty; it
    starts with no quote, digit, period, white space or [#]; it contains no
    quote and no line terminator and does not end with a character the
    trimming step removes; it equals itself up to case; the keys in
    front of it in [_sortedKeys] pass it by; its code is a code of the
    reverse map, whose keyword is [k] up to spaces. *)
Definition key_facts (k : list Z) : bool :=
  match k with
  | [] => false
  | c :: _ =>
      negb (c =? 34) && negb (isdigit c) && negb (c =? 46) && negb (isspace c)
      && negb (c =? 35)
  end
  && forallb (fun c => negb (c =? 34) && negb (c =? 10) && negb (c =? 13)) k
  && negb (txt2bas.is_trim_char (List.last k 0))
  && txt2bas.CaseInsensitiveEquals k k
  && bool_decide (In k txt2bas._sortedKeys)
  && forallb (passes_by k) (keys_before k txt2bas._sortedKeys)
  && match bas2txt.Map_find (txt2bas.Map_at k) with
     | Some keyword =>
         bool_decide (squeeze false keyword = squeeze false k)
         && forallb (fun c => negb (c =? 34)) keyword
     | None => false
     end.

(** [f] holds of the [fuel] integers from [z] on. *)
Fixpoint all_upto (fuel : nat) (z : Z) (f : Z -> bool) : bool :=
  match fuel with
  | O => true
  | S fuel' => f z && all_upto fuel' (z + 1) f
  end.

(** What the round trip needs to know of the decimal form of a number: it
    is a non-empty run of digits from which its value is read back, and
    [std::stod] accepts it. *)
Definition number_facts (n : Z) : bool :=
  let ds := print_int n in
  negb (length ds =? 0)%nat && forallb isdigit ds && (digits_value ds =? n)
  && match stod ds with Some _ => true | None => false end.




(** The decoder on a list of payload bytes, [skip] being the number of
    bytes still to be skipped behind a marker 0x0E. *)
Fixpoint decode_list (skip : nat) (l : list Z) : list Z :=
  match l with
  | [] => []
  | b :: l' =>
      match skip with
      | S n => decode_list n l'
      | O =>
          if b =? 0x0E then decode_list 5 l'
          else
            match bas2txt.Map_find b with
            | Some keyword =>
                keyword
                ++ match l' with
                   | next :: _ =>
                       if (next <? 128) && negb (next =? 0x0E) then
                         if isalnum next || (next =? 34) || (next =? 46) then [32] else []
                       else []
                   | [] => []
                   end
                ++ decode_list 0 l'
            | None =>
                (if (32 <=? b) && (b <=? 126) then [b]
                 else if b =? 0x7F then [0xC2; 0xA9] else [])
                ++ decode_list 0 l'
            end
      end
  end.

(** The space the decoder inserts behind a keyword, by the token that
    follows: one space in front of a non-negative number and of a string
    literal, whose first bytes are a digit and a quote; none in front of
    another keyword (a token code), of a negative number (a minus sign)
    and at the end of the line. *)
Definition smart (its : list item) : list Z :=
  match its with
  | Num n :: _ => if 0 <=? n then [32] else []
  | Str _ :: _ => [32]
  | _ => []
  end.

(** The decoded form of one token in front of the tokens [its]: a keyword
    as the decoder's table spells the code of its key, and the space of
    [smart]; a number and a string literal as the source has them. *)
Definition dec_item (it : item) (its : list item) : list Z :=
  match it with
  | Kw k => default [] (bas2txt.Map_find (txt2bas.Map_at (map toupper k))) ++ smart its
  | _ => item_text it
  end.

(** The decoded form of a line: its tokens in their order; behind a number
    or a string literal that another token follows, the space of the
    source, which the tokenizer copies (it skips the spaces behind a
    keyword). *)
Fixpoint dec (items : list item) : list Z :=
  match items with
  | [] => []
  | it :: its =>
      dec_item it its ++ match its with
                         | [] => []
                         | _ :: _ => sep it ++ dec its
                         end
  end.

(** How [ConvertFile] reads a line of tokens: a non-negative number in
    front of more tokens is the line number of the line. *)
Definition line_split (items : list item) : option Z * list item :=
  match items with
  | Num n :: (_ :: _) as its => if 0 <=? n then (Some n, its) else (None, items)
  | _ => (None, items)
  end.

(** The line number and the tokens of each line of a program, the line
    counter being [cur] at its start. *)
Fixpoint numbered (cur : Z) (prog : list (list item)) : list (Z * list item) :=
  match prog with
  | [] => []
  | items :: prog' =>
      let '(num, its) := match line_split items with
                         | (Some n, its) => (n, its)
                         | (None, _) => (cur, items)
                         end in
      (num, its) :: numbered (wrap_int (num + 10)) prog'
  end.


Definition decoded_line (l : Z * list item) : list Z :=
  print_int (fst l mod 65536) ++ [32] ++ dec (snd l).


(** The last character of a list is not one the trimming step removes. *)
Definition ends_untrimmed (l : list Z) : Prop :=
  exists c r, rev l = c :: r /\ txt2bas.is_trim_char c = false.


(** A line record with line number [num] and payload [payload] (without
    its terminator), and the line the decoder writes for it. *)
Definition record_bytes (r : Z * list Z) : list Z :=
  let length := Z.of_nat (length (snd r)) + 1 in
  [u8 (Z.land (Z.shiftr (fst r) 8) 0xFF); u8 (Z.land (fst r) 0xFF);
   u8 (Z.land length 0xFF); u8 (Z.land (Z.shiftr length 8) 0xFF)]
  ++ snd r ++ [0x0D].

Definition record_text (r : Z * list Z) : list Z :=
  print_int (fst r mod 65536) ++ [32] ++ decode_list 0 (snd r) ++ [10].

(** The test the loop over the keys makes on one key: the key is not
    skipped by one of the three [continue] statements. *)
Definition key_hit (text : list Z) (i : nat) (k : list Z) : bool :=
  negb (length text <? i + length k)%nat
  && txt2bas.CaseInsensitiveEquals (substr text i (length k)) k
  && negb (isalpha (nth 0 k 0)
           && (negb ((i =? 0)%nat || negb (isalpha (nth (i - 1) text 0)))
               || negb ((length text <=? i + length k)%nat
                        || negb (isalnum (nth (i + length k) text 0))))).

(** A list of keys in an order the comparison of the sort allows: no key
    is followed by a longer one. *)
Fixpoint longest_first (keys : list (list Z)) : bool :=
  match keys with
  | [] => true
  | k :: keys' =>
      match keys' with
      | [] => true
      | k' :: _ => (length k' <=? length k)%nat && longest_first keys'
      end
  end.

(** Two keys of the table that are equal up to case are equal. *)
Definition keys_distinct_up_to_case : bool :=
  forallb (fun k => forallb (fun k' =>
             implb (txt2bas.CaseInsensitiveEquals k k') (bool_decide (k = k')))
           txt2bas._sortedKeys) txt2bas._sortedKeys.

(** *** Vocabulary of the further properties *)

(** The number a sequence of bytes stands for, least significant byte
    first. *)
Definition le_value (bs : list Z) : Z := foldr (fun b acc => b + 256 * acc) 0 bs.

(** The little-endian field of [n] bytes at offset [pos] of a buffer. *)
Definition field (data : list Z) (pos n : nat) : Z := le_value (take n (drop pos data)).

(** The line [Parse] writes for the header: the directive with the line
    number of the autostart field, unless the field holds 32768. *)
Definition autostart_line (autoStartLine : Z) : list Z :=
  if (0 <=? autoStartLine) && (autoStartLine <? 32768)
  then bytes "#autostart " ++ print_int autoStartLine ++ [10] else [].

(** What [DecodeLineData] writes for a byte that is neither the marker of a
    hidden number nor the code of a token. *)
Definition decode_char (b : Z) : list Z :=
  if (32 <=? b) && (b <=? 126) then [b]
  else if b =? 0x7F then [0xC2; 0xA9] else [].

(** * Properties *)

(** ** The +3DOS header *)

Section Header.
Import txt2bas.

Lemma u8_range (x : Z) : 0 <= u8 x < 256.
Proof. unfold u8. apply Z.mod_pos_bound. lia. Qed.

Lemma u8_small (x : Z) : 0 <= x < 256 -> u8 x = x.
Proof. intros H. unfold u8. apply Z.mod_small. exact H. Qed.

(** The loop [for (i = 0; i < n; i++) sum += header[i]] adds up the first
    [n] bytes. *)
Lemma checksum_loop (l : list Z) (n : nat) (s0 : Z) :
  (n <= length l)%nat ->
  fold_left (fun sum i => sum + nth i l 0) (seq 0 n) s0 = s0 + byte_sum (take n l).
Proof.
  revert l s0. induction n as [|n IH]; intros l s0 Hn.
  - cbn. unfold byte_sum. rewrite take_0. cbn. lia.
  - rewrite seq_S, fold_left_app, IH by lia. cbn [fold_left Nat.add].
    destruct (lookup_lt_is_Some_2 l n ltac:(lia)) as [x Hx].
    rewrite (take_S_r l n x Hx).
    unfold byte_sum. rewrite foldr_app. cbn [foldr].
    rewrite (nth_lookup_Some l n 0 x Hx).
    assert (Hshift : forall (k : list Z) a, foldr Z.add a k = a + foldr Z.add 0 k).
    { induction k as [|y k IHk]; intros a; cbn; [lia | rewrite IHk; lia]. }
    rewrite (Hshift (take n l) (x + 0)). lia.
Qed.

Lemma byte_sum_nonneg (l : list Z) : Forall (fun b => 0 <= b) l -> 0 <= byte_sum l.
Proof. induction 1; cbn; [lia | unfold byte_sum in *; lia]. Qed.

Lemma header_shape_insert (h : list Z) (i : nat) (x : Z) :
  header_shape h -> header_shape (<[i := u8 x]> h).
Proof.
  intros [Hl Hf]. split.
  - rewrite length_insert. exact Hl.
  - apply Forall_insert; [exact Hf | apply u8_range].
Qed.

Lemma header_shape_insert_const (h : list Z) (i : nat) (x : Z) :
  0 <= x -> header_shape h -> header_shape (<[i := x]> h).
Proof.
  intros Hx [Hl Hf]. split.
  - rewrite length_insert. exact Hl.
  - apply Forall_insert; assumption.
Qed.

Lemma header_shape_signature :
  header_shape (copy_at 0 (bytes "PLUS3DOS") (replicate 128 0)).
Proof.
  split; [reflexivity|].
  vm_compute. repeat constructor; discriminate.
Qed.

Lemma checksum_store (h : list Z) :
  header_shape h ->
  let sum := fold_left (fun sum i => sum + nth i h 0) (seq 0 127) 0 in
  let h' := <[127%nat := u8 (Z.rem sum 256)]> h in
  length h' = 128%nat /\ h' !! 127%nat = Some (byte_sum (take 127 h') mod 256).
Proof.
  intros [Hl Hf] sum h'. subst h'. split.
  - rewrite length_insert. exact Hl.
  - rewrite list_lookup_insert_eq by lia.
    rewrite take_insert_ge by lia.
    subst sum. rewrite checksum_loop by lia.
    assert (0 <= byte_sum (take 127 h)).
    { apply byte_sum_nonneg. apply Forall_take. exact Hf. }
    rewrite Z.rem_mod_nonneg by lia.
    rewrite u8_small by (apply Z.mod_pos_bound; lia).
    f_equal.
Qed.

(** C4.  For every [dataLength] and autostart argument the header has 128
    bytes and its last byte, at index 127, is the sum of the bytes at
    indices 0 to 126 modulo 256. *)
Theorem CreateHeader_checksum (basicLength autoStartLine : Z) :
  let header := CreateHeader basicLength autoStartLine in
  length header = 128%nat /\
  header !! 127%nat = Some (byte_sum (take 127 header) mod 256).
Proof.
  unfold CreateHeader. apply checksum_store.
  destruct ((0 <=? autoStartLine) && (autoStartLine <? 32768));
    repeat first [ apply header_shape_insert
                 | apply header_shape_insert_const; [lia|]
                 | apply header_shape_signature ].
Qed.

(** C9.  For an autostart argument outside [0, 32767] the autostart field
    of the header holds the sentinel 32768: byte 0x00 at offset 18 and
    byte 0x80 at offset 19. *)
Theorem CreateHeader_sentinel (basicLength autoStartLine : Z) :
  autoStartLine < 0 \/ 32768 <= autoStartLine ->
  let header := CreateHeader basicLength autoStartLine in
  header !! 18%nat = Some 0x00 /\ header !! 19%nat = Some 0x80.
Proof.
  intros Hout. unfold CreateHeader.
  replace ((0 <=? autoStartLine) && (autoStartLine <? 32768)) with false
    by (symmetry; apply andb_false_iff; lia).
  cbv zeta.
  split.
  - do 4 (rewrite list_lookup_insert_ne by lia).
    apply list_lookup_insert_eq.
    repeat rewrite length_insert. apply Nat.ltb_lt. reflexivity.
  - do 3 (rewrite list_lookup_insert_ne by lia).
    apply list_lookup_insert_eq.
    repeat rewrite length_insert. apply Nat.ltb_lt. reflexivity.
Qed.

Lemma CreateHeader_sentinel_witness :
  let header := CreateHeader 14 32768 in
  header !! 18%nat = Some 0x00 /\ header !! 19%nat = Some 0x80.
Proof. apply (CreateHeader_sentinel 14 32768). right. lia. Defined.
End Header.

(** ** Packing of numbers *)

Section Numbers.
Import txt2bas.

Lemma land_255 (x : Z) : Z.land x 0xFF = x mod 256.
Proof. change 0xFF with (Z.ones 8). rewrite Z.land_ones by lia. reflexivity. Qed.

Lemma shiftr_8 (x : Z) : Z.shiftr x 8 = x / 256.
Proof. rewrite Z.shiftr_div_pow2 by lia. reflexivity. Qed.

Lemma cond_Zopp_mul (s : bool) (a b : Z) : cond_Zopp s a * b = cond_Zopp s (a * b).
Proof. destruct s; cbn; lia. Qed.

(** The integer branch of [Pack] on an integer [val] in range. *)
Lemma pack_bytes (v : Z) :
  -65535 <= v <= 65535 ->
  (let sign := if v <? 0 then 0xFF else 0x00 in
   let val := if v <? 0 then - v else v in
   [0x00; sign; u8 (Z.land val 0xFF); u8 (Z.land (Z.shiftr val 8) 0xFF); 0x00])
  = [0; if v <? 0 then 255 else 0; Z.abs v mod 256; Z.abs v / 256 mod 256; 0].
Proof.
  intros Hv. cbv zeta.
  assert (Habs : (if v <? 0 then - v else v) = Z.abs v) by (destruct (Z.ltb_spec v 0); lia).
  rewrite Habs, !land_255, shiftr_8.
  rewrite !u8_small by (apply Z.mod_pos_bound; lia).
  reflexivity.
Qed.

(** What the three tests of [Pack] and the cast compute on a double that
    is an integer. *)
Lemma integer_double_tests (d : spec_float) (v : Z) :
  double_is_integer d v ->
  modf_is_zero d = true /\
  (forall c, double_compare_Z d c = Some (v ?= c)) /\
  double_to_int d = v.
Proof.
  intros (q & Hq & Heq). destruct d as [s|s| |s m e]; cbn in Hq; try discriminate.
  - injection Hq as <-. unfold Qeq in Heq. cbn in Heq.
    assert (v = 0) by lia. subst v. repeat split.
  - injection Hq as <-. cbn [modf_is_zero double_compare_Z double_to_int].
    destruct (Z.leb_spec 0 e) as [He|He].
    + unfold Qeq in Heq. cbn in Heq.
      assert (Hv : v = cond_Zopp s (Z.pos m) * 2 ^ e) by lia.
      repeat split.
      * intros c. rewrite Hv. reflexivity.
      * rewrite Hv, cond_Zopp_mul. reflexivity.
    + assert (Hp : 0 < 2 ^ (- e)) by (apply Z.pow_pos_nonneg; lia).
      unfold Qeq in Heq. cbn [Qnum Qden inject_Z] in Heq.
      rewrite Z2Pos.id in Heq by exact Hp.
      assert (Hm : cond_Zopp s (Z.pos m) = v * 2 ^ (- e)) by lia.
      assert (Hpos : Z.pos m = Z.abs v * 2 ^ (- e)).
      { destruct s; cbn in Hm; nia. }
      repeat split.
      * rewrite Z.land_ones by lia. rewrite Hpos, Z.mod_mul by lia. reflexivity.
      * intros c. rewrite Hm. f_equal.
        destruct (Z.compare_spec v c);
          [apply Z.compare_eq_iff | apply Z.compare_lt_iff | apply Z.compare_gt_iff]; nia.
      * rewrite Hpos, Z.div_mul by lia.
        destruct s; cbn in Hm |- *; nia.
Qed.

(** Conversely, a double that passes the three tests of [Pack] is an
    integer of the range. *)
Lemma tests_pass_integer (d : spec_float) :
  modf_is_zero d && double_ge_Z d (-65535) && double_le_Z d 65535 = true ->
  exists v, double_is_integer d v /\ -65535 <= v <= 65535.
Proof.
  intros H. apply andb_true_iff in H as [H Hle]. apply andb_true_iff in H as [Hm Hge].
  unfold double_ge_Z, double_le_Z in *.
  destruct d as [s|s| |s m e]; cbn [modf_is_zero double_compare_Z] in *.
  - exists 0. split; [|lia]. exists (0 # 1)%Q. split; reflexivity.
  - destruct s; discriminate.
  - discriminate.
  - destruct (Z.leb_spec 0 e) as [He|He].
    + exists (cond_Zopp s (Z.pos m) * 2 ^ e). split.
      * eexists. split; [cbn; rewrite (proj2 (Z.leb_le 0 e) He); reflexivity|].
        unfold Qeq. cbn. lia.
      * split.
        -- destruct (Z.compare_spec (cond_Zopp s (Z.pos m) * 2 ^ e) (-65535));
             try discriminate; lia.
        -- destruct (Z.compare_spec (cond_Zopp s (Z.pos m) * 2 ^ e) 65535);
             try discriminate; lia.
    + assert (Hp : 0 < 2 ^ (- e)) by (apply Z.pow_pos_nonneg; lia).
      apply Z.eqb_eq in Hm. rewrite Z.land_ones in Hm by lia.
      pose proof (Z.div_mod (Z.pos m) (2 ^ (- e)) ltac:(lia)) as Hdm.
      rewrite Hm, Z.add_0_r in Hdm.
      set (k := 2 ^ (- e)) in *. set (n := Z.pos m / k) in *.
      exists (cond_Zopp s n). split.
      * eexists. split; [cbn; rewrite (proj2 (Z.leb_gt 0 e) He); reflexivity|].
        unfold Qeq. cbn [Qnum Qden inject_Z]. fold k.
        rewrite Z2Pos.id by exact Hp. rewrite Hdm. destruct s; cbn; lia.
      * split.
        -- destruct (Z.compare_spec (cond_Zopp s (Z.pos m)) (-65535 * k));
             try discriminate; destruct s; cbn in *; nia.
        -- destruct (Z.compare_spec (cond_Zopp s (Z.pos m)) (65535 * k));
             try discriminate; destruct s; cbn in *; nia.
Qed.

(** C6.  A double that is exactly an integer [v] of [-65535, 65535] packs
    as [0x00, sign, low byte of |v|, high byte of |v|, 0x00], the sign
    byte being 0xFF for a negative [v] and 0x00 otherwise; the literal
    [100] is encoded as its three digits, the marker 0x0E and the bytes
    [00 00 64 00 00]; and a double that is no integer of that range
    (fractional, out of range, infinite or NaN) packs as five zero
    bytes. *)
Theorem Pack_integer_or_zero :
  (forall (d : spec_float) (v : Z),
      double_is_integer d v -> -65535 <= v <= 65535 ->
      Pack d = [0x00; if v <? 0 then 0xFF else 0x00;
                Z.abs v mod 256; Z.abs v / 256 mod 256; 0x00]) /\
  ParseLine_data false (bytes "100")
    = bytes "100" ++ [0x0E] ++ [0x00; 0x00; 0x64; 0x00; 0x00] ++ [0x0D] /\
  (forall d : spec_float,
      (forall v, -65535 <= v <= 65535 -> ~ double_is_integer d v) ->
      Pack d = [0; 0; 0; 0; 0]).
Proof.
  split; [|split].
  - intros d v Hd Hv.
    destruct (integer_double_tests d v Hd) as (Hm & Hc & Hi).
    unfold Pack, double_ge_Z, double_le_Z. rewrite Hm, !Hc, Hi.
    destruct (Z.compare_spec v (-65535)); try lia;
      destruct (Z.compare_spec v 65535); try lia;
      cbn [andb]; apply (pack_bytes v Hv).
  - vm_compute. reflexivity.
  - intros d Hd. unfold Pack.
    destruct (modf_is_zero d && double_ge_Z d (-65535) && double_le_Z d 65535) eqn:Ht;
      [|reflexivity].
    destruct (tests_pass_integer d Ht) as (v & Hv & Hr).
    destruct (Hd v Hr Hv).
Qed.

(** The double 100.0, and what C6 says about it. *)
Lemma Pack_integer_or_zero_witness :
  Pack (S754_finite false 7036874417766400 (-46)) = [0; 0; 100; 0; 0].
Proof.
  apply (proj1 Pack_integer_or_zero (S754_finite false 7036874417766400 (-46)) 100).
  - exists (7036874417766400 # 70368744177664)%Q. split; reflexivity.
  - lia.
Defined.
End Numbers.

(** ** Longest match *)

Section LongestMatch.
Import txt2bas.

(** C5.  The source text [GO TO 10] is tokenized as the single token
    byte 0xEC, then the encoding of the number 10 (its two digits, the
    marker 0x0E and five packed bytes), then the terminator 0x0D; the
    line record [ConvertFile] produces for it is this payload behind the
    line number 10 and the payload length 10. *)
Theorem GO_TO_longest_match :
  ParseLine_data false (bytes "GO TO 10")
    = [0xEC] ++ (bytes "10" ++ [0x0E] ++ [0x00; 0x00; 0x0A; 0x00; 0x00]) ++ [0x0D] /\
  option_map output (ConvertFile [bytes "GO TO 10"])
    = Some ([0x00; 0x0A; 0x0A; 0x00] ++
            [0xEC] ++ (bytes "10" ++ [0x0E] ++ [0x00; 0x00; 0x0A; 0x00; 0x00]) ++ [0x0D]).
Proof. split; vm_compute; reflexivity. Qed.
End LongestMatch.

(** ** Smart spacing of the decoder *)

Section SmartSpacing.
Import bas2txt.

Lemma Map_find_code (b : Z) (keyword : list Z) :
  Map_find b = Some keyword -> 0x87 <= b <= 0xFF.
Proof.
  unfold Map_find. intros H.
  destruct (List.find (fun p => fst p =? b) Map) as [p|] eqn:Hf; [|discriminate].
  apply List.find_some in Hf as [Hin Hb]. apply Z.eqb_eq in Hb. subst b.
  assert (Hall : forallb (fun p => (0x87 <=? fst p) && (fst p <=? 0xFF)) Map = true)
    by (vm_compute; reflexivity).
  rewrite forallb_forall in Hall. specialize (Hall p Hin).
  apply andb_true_iff in Hall as [H1 H2]. lia.
Qed.

Lemma Map_find_below_128 (b : Z) : b < 128 -> Map_find b = None.
Proof.
  intros Hb. destruct (Map_find b) as [k|] eqn:Hk; [|reflexivity].
  apply Map_find_code in Hk. lia.
Qed.

(** C7.  At a token byte the decoder writes the keyword and then one
    space exactly when a next byte of the payload exists and is a raw
    printable byte (below 128, no token code, not the marker 0x0E) that
    is alphanumeric, a double quote or a period.  The token of [PRINT]
    before a double quote gives [PRINT], one space and the quote; before
    another token it gives no space. *)
Theorem smart_spacing (data : list Z) (i end_ : Z) (keyword : list Z) :
  Map_find (nth (Z.to_nat i) data 0) = Some keyword ->
  let next := nth (Z.to_nat (i + 1)) data 0 in
  let spaced :=
    i + 1 < end_ /\
    (next < 128 /\ Map_find next = None /\ next <> 0x0E) /\
    (isalnum next = true \/ next = 34 \/ next = 46) in
  ((spaced -> DecodeLineData_body data i end_ = (keyword ++ [32], i)) /\
   (~ spaced -> DecodeLineData_body data i end_ = (keyword, i))) /\
  DecodeLineData [0xF5; 34; 72; 73; 34] 0 5 = bytes "PRINT " ++ [34; 72; 73; 34] /\
  DecodeLineData [0xF5; 0xBA; 53] 0 3 = bytes "PRINT" ++ bytes "INT" ++ bytes " 5".
Proof.
  intros Hk next spaced. split; [|split; vm_compute; reflexivity].
  pose proof (Map_find_code _ _ Hk) as Hb.
  unfold DecodeLineData_body. fold next.
  replace (nth (Z.to_nat i) data 0 =? 14) with false by (symmetry; apply Z.eqb_neq; lia).
  rewrite Hk. subst spaced. split.
  - intros (Hi & (Hlt & _ & Hne) & Hc).
    rewrite (proj2 (Z.ltb_lt _ _) Hi), (proj2 (Z.ltb_lt _ _) Hlt).
    rewrite (proj2 (Z.eqb_neq _ _) Hne). cbn [andb negb].
    replace (isalnum next || (next =? 34) || (next =? 46)) with true; [reflexivity|].
    symmetry. destruct Hc as [Hc|[Hc|Hc]]; rewrite ?Hc; cbn; rewrite ?orb_true_r; reflexivity.
  - intros Hn.
    destruct (Z.ltb_spec (i + 1) end_) as [Hi|Hi]; [|rewrite app_nil_r; reflexivity].
    destruct (Z.ltb_spec next 128) as [Hlt|Hlt]; [|rewrite app_nil_r; reflexivity].
    destruct (Z.eqb_spec next 14) as [He|He]; [rewrite app_nil_r; reflexivity|].
    cbn [andb negb].
    destruct (isalnum next || (next =? 34) || (next =? 46)) eqn:Hc;
      [|rewrite app_nil_r; reflexivity].
    exfalso. apply Hn. repeat split; try assumption.
    + apply Map_find_below_128. exact Hlt.
    + apply orb_true_iff in Hc as [Hc|Hc]; [apply orb_true_iff in Hc as [Hc|Hc]|].
      * left. exact Hc.
      * right. left. apply Z.eqb_eq. exact Hc.
      * right. right. apply Z.eqb_eq. exact Hc.
Qed.

(** The token of [PRINT] before a double quote. *)
Lemma smart_spacing_witness :
  DecodeLineData_body [0xF5; 34; 72; 73; 34] 0 5 = (bytes "PRINT" ++ [32], 0).
Proof.
  apply (proj1 (proj1 (smart_spacing [0xF5; 34; 72; 73; 34] 0 5 (bytes "PRINT") eq_refl))).
  cbv zeta. split; [reflexivity|]. split.
  - split; [reflexivity|]. split; [reflexivity|]. discriminate.
  - right. left. reflexivity.
Defined.
End SmartSpacing.

(** ** The order of the keys *)

Section KeyOrder.
Import txt2bas.

Lemma match_keys_find (keys : list (list Z)) (text : list Z) (i : nat) :
  match_keys keys text i = List.find (key_hit text i) keys.
Proof.
  induction keys as [|k keys IH]; [reflexivity|].
  cbn [match_keys List.find]. unfold key_hit.
  destruct (length text <? i + length k)%nat; [exact IH|].
  destruct (CaseInsensitiveEquals (substr text i (length k)) k); [|exact IH].
  cbn [negb andb].
  destruct (isalpha (nth 0 k 0) && _); [exact IH | reflexivity].
Qed.

Lemma equal_with_trans (s k k' : list Z) :
  length s = length k -> length s = length k' ->
  equal_with (fun c1 c2 => toupper c1 =? toupper c2) s k = true ->
  equal_with (fun c1 c2 => toupper c1 =? toupper c2) s k' = true ->
  equal_with (fun c1 c2 => toupper c1 =? toupper c2) k k' = true.
Proof.
  revert k k'. induction s as [|c s IH]; intros [|d k] [|d' k'] H1 H2 E1 E2;
    try discriminate; [reflexivity|].
  cbn [equal_with] in *. apply andb_true_iff in E1 as [E1 E1'].
  apply andb_true_iff in E2 as [E2 E2']. apply Z.eqb_eq in E1. apply Z.eqb_eq in E2.
  apply andb_true_iff. split; [apply Z.eqb_eq; congruence|].
  apply IH; try assumption; cbn in H1, H2; lia.
Qed.

Lemma CaseInsensitiveEquals_inv (a b : list Z) :
  CaseInsensitiveEquals a b = true ->
  length a = length b /\ equal_with (fun c1 c2 => toupper c1 =? toupper c2) a b = true.
Proof.
  unfold CaseInsensitiveEquals.
  destruct (Nat.eqb_spec (length a) (length b)) as [Hl|Hl]; cbn [negb]; [|discriminate].
  intros H. split; assumption.
Qed.

(** Two keys of the table of one length cannot both match at a position. *)
Lemma one_hit_per_length (text : list Z) (i : nat) (k k' : list Z) :
  In k _sortedKeys -> In k' _sortedKeys -> length k = length k' ->
  key_hit text i k = true -> key_hit text i k' = true -> k = k'.
Proof.
  intros Hin Hin' Hlen Hk Hk'. unfold key_hit in Hk, Hk'.
  apply andb_true_iff in Hk as [Hk _]. apply andb_true_iff in Hk as [_ Hk].
  apply andb_true_iff in Hk' as [Hk' _]. apply andb_true_iff in Hk' as [_ Hk'].
  rewrite <- Hlen in Hk'.
  destruct (CaseInsensitiveEquals_inv _ _ Hk) as [L1 E1].
  destruct (CaseInsensitiveEquals_inv _ _ Hk') as [L2 E2].
  assert (Hci : CaseInsensitiveEquals k k' = true).
  { unfold CaseInsensitiveEquals. rewrite Hlen, Nat.eqb_refl. cbn [negb].
    apply (equal_with_trans _ _ _ L1 L2 E1 E2). }
  assert (Hall : keys_distinct_up_to_case = true) by (vm_compute; reflexivity).
  unfold keys_distinct_up_to_case in Hall. rewrite forallb_forall in Hall.
  specialize (Hall k Hin). rewrite forallb_forall in Hall. specialize (Hall k' Hin').
  rewrite Hci in Hall. cbn [implb] in Hall. apply bool_decide_eq_true_1 in Hall. exact Hall.
Qed.

Lemma longest_first_tail (k : list Z) (keys : list (list Z)) :
  longest_first (k :: keys) = true ->
  longest_first keys = true /\ Forall (fun k' => (length k' <= length k)%nat) keys.
Proof.
  revert k. induction keys as [|k' keys IH]; intros k H; [split; [reflexivity | constructor]|].
  cbn [longest_first] in H. apply andb_true_iff in H as [Hle Hrest].
  apply Nat.leb_le in Hle. split; [exact Hrest|].
  constructor; [exact Hle|]. destruct (IH k' Hrest) as [_ Hall].
  eapply Forall_impl; [exact Hall|]. intros x Hx. cbn beta in *. lia.
Qed.

(** In a list with the longest keys first, the key found is a longest one
    among those that match. *)
Lemma find_longest (f : list Z -> bool) (keys : list (list Z)) (k : list Z) :
  longest_first keys = true -> List.find f keys = Some k ->
  In k keys /\ f k = true /\
  forall k', In k' keys -> f k' = true -> (length k' <= length k)%nat.
Proof.
  induction keys as [|k0 keys IH]; intros Hs Hf; [discriminate|].
  destruct (longest_first_tail k0 keys Hs) as [Hs' Hall].
  cbn [List.find] in Hf. destruct (f k0) eqn:Hk0.
  - injection Hf as <-. split; [left; reflexivity|]. split; [exact Hk0|].
    intros k' [<-|Hin] _; [lia|].
    rewrite Forall_forall in Hall. apply Hall. apply list_elem_of_In. exact Hin.
  - destruct (IH Hs' Hf) as (Hin & Hfk & Hmax). split; [right; exact Hin|].
    split; [exact Hfk|]. intros k' [<-|Hin'] Hfk'; [congruence | apply Hmax; assumption].
Qed.

(** Two lists of keys have the same elements when each key of one is found
    in the other. *)
Lemma same_keys_test (l1 l2 : list (list Z)) :
  forallb (fun k : list Z => bool_decide (elem_of k l2)) l1
  && forallb (fun k : list Z => bool_decide (elem_of k l1)) l2 = true ->
  forall k, In k l1 <-> In k l2.
Proof.
  intros H. apply andb_true_iff in H as [H1 H2]. rewrite forallb_forall in H1, H2.
  intros k. split; intros Hk.
  - apply list_elem_of_In. apply (bool_decide_eq_true_1 _ (H1 k Hk)).
  - apply list_elem_of_In. apply (bool_decide_eq_true_1 _ (H2 k Hk)).
Qed.

(** X1.  The key found does not depend on the order of the keys of one
    length, which the sort of the constructor leaves open: every list of
    the keys of the table with the longest first gives the result
    [_sortedKeys] gives. *)
Lemma match_keys_order_irrelevant (keys : list (list Z)) (text : list Z) (i : nat) :
  longest_first keys = true ->
  (forall k, In k keys <-> In k _sortedKeys) ->
  match_keys keys text i = match_keys _sortedKeys text i.
Proof.
  intros Hs Hsame. rewrite !match_keys_find.
  assert (Hs0 : longest_first _sortedKeys = true) by (vm_compute; reflexivity).
  destruct (List.find (key_hit text i) keys) as [k|] eqn:H1;
    destruct (List.find (key_hit text i) _sortedKeys) as [k'|] eqn:H2.
  - destruct (find_longest _ _ _ Hs H1) as (Hin & Hf & Hmax).
    destruct (find_longest _ _ _ Hs0 H2) as (Hin' & Hf' & Hmax').
    f_equal. apply (one_hit_per_length text i); try assumption.
    + apply Hsame. exact Hin.
    + apply Nat.le_antisymm.
      * apply Hmax'; [apply Hsame; exact Hin | exact Hf].
      * apply Hmax; [apply Hsame; exact Hin' | exact Hf'].
  - destruct (find_longest _ _ _ Hs H1) as (Hin & Hf & _).
    pose proof (List.find_none _ _ H2 k (proj1 (Hsame k) Hin)) as Hn. congruence.
  - destruct (find_longest _ _ _ Hs0 H2) as (Hin' & Hf' & _).
    pose proof (List.find_none _ _ H1 k' (proj2 (Hsame k') Hin')) as Hn. congruence.
  - reflexivity.
Qed.

Lemma match_keys_order_irrelevant_witness :
  match_keys (foldr insert_by_length [] (rev (map fst Map))) (bytes "go sub 100") 0
  = match_keys _sortedKeys (bytes "go sub 100") 0.
Proof.
  apply (match_keys_order_irrelevant (foldr insert_by_length [] (rev (map fst Map)))
           (bytes "go sub 100") 0).
  - vm_compute. reflexivity.
  - apply same_keys_test. vm_compute. reflexivity.
Defined.

(** *** Comparison up to case *)

Lemma CaseInsensitiveEquals_map (a b : list Z) :
  CaseInsensitiveEquals a b = true <-> map toupper a = map toupper b.
Proof.
  unfold CaseInsensitiveEquals. revert b.
  induction a as [|x a IH]; intros [|y b]; cbn [length map equal_with Nat.eqb negb];
    try (split; [discriminate | discriminate]).
  - split; reflexivity.
  - specialize (IH b). destruct (negb (length a =? length b)%nat) eqn:Hl.
    + split; [discriminate|]. intros [= _ H]. apply IH in H. discriminate.
    + rewrite andb_true_iff, Z.eqb_eq, IH. split.
      * intros [-> ->]. reflexivity.
      * intros [= H1 H2]. split; assumption.
Qed.

Lemma isalpha_toupper_eq (c : Z) : isalpha (toupper c) = isalpha c.
Proof.
  unfold toupper. destruct (islower c) eqn:Hl; [|reflexivity].
  unfold isalpha. rewrite Hl, orb_true_r. unfold islower in Hl.
  apply andb_true_iff in Hl as [H1 H2]. apply Z.leb_le in H1. apply Z.leb_le in H2.
  unfold isupper.
  replace (65 <=? c - 32) with true by (symmetry; apply Z.leb_le; lia).
  replace (c - 32 <=? 90) with true by (symmetry; apply Z.leb_le; lia).
  reflexivity.
Qed.

Lemma isdigit_toupper_eq (c : Z) : isdigit (toupper c) = isdigit c.
Proof.
  unfold toupper. destruct (islower c) eqn:Hl; [|reflexivity].
  unfold islower in Hl. apply andb_true_iff in Hl as [H1 H2].
  apply Z.leb_le in H1. apply Z.leb_le in H2. unfold isdigit.
  replace (c - 32 <=? 57) with false by (symmetry; apply Z.leb_gt; lia).
  replace (c <=? 57) with false by (symmetry; apply Z.leb_gt; lia).
  rewrite !andb_false_r. reflexivity.
Qed.

Lemma isalnum_toupper_eq (c : Z) : isalnum (toupper c) = isalnum c.
Proof. unfold isalnum. rewrite isalpha_toupper_eq, isdigit_toupper_eq. reflexivity. Qed.

Lemma nth_toupper (l : list Z) (j : nat) : nth j (map toupper l) 0 = toupper (nth j l 0).
Proof. exact (map_nth toupper l 0 j). Qed.

Lemma key_hit_case (text text' : list Z) (i : nat) (k : list Z) :
  map toupper text' = map toupper text ->
  key_hit text' i k = key_hit text i k.
Proof.
  intros H. unfold key_hit.
  assert (Hlen : length text' = length text).
  { rewrite <- (length_map toupper text'), H. apply length_map. }
  assert (Hnth : forall j, toupper (nth j text' 0) = toupper (nth j text 0)).
  { intros j. rewrite <- !nth_toupper, H. reflexivity. }
  assert (Hci : CaseInsensitiveEquals (substr text' i (length k)) k
                = CaseInsensitiveEquals (substr text i (length k)) k).
  { apply eq_true_iff_eq. rewrite !CaseInsensitiveEquals_map. unfold substr.
    rewrite <- !firstn_map, <- !skipn_map, H. reflexivity. }
  rewrite Hlen, Hci.
  rewrite <- (isalpha_toupper_eq (nth (i - 1) text' 0)), Hnth, isalpha_toupper_eq.
  rewrite <- (isalnum_toupper_eq (nth (i + length k) text' 0)), Hnth, isalnum_toupper_eq.
  reflexivity.
Qed.





(** A character that is no letter is the upper case of itself only. *)
Lemma toupper_no_letter (c v : Z) : isalpha v = false -> toupper c = v -> c = v.
Proof.
  unfold toupper. destruct (islower c) eqn:Hl; [|intros _ H; exact H].
  intros Hv <-. exfalso. unfold islower in Hl. apply andb_true_iff in Hl as [H1 H2].
  apply Z.leb_le in H1. apply Z.leb_le in H2.
  unfold isalpha, isupper in Hv. apply orb_false_iff in Hv as [Hv _].
  apply andb_false_iff in Hv as [Hv|Hv]; apply Z.leb_gt in Hv; lia.
Qed.




End KeyOrder.

(** ** The record loop of the decoder *)

Section RecordLoop.
Import bas2txt.

Lemma Parse_step_advances (data : list Z) (offset offset' : nat) (sb sb' : list Z) :
  Parse_step data (offset, sb) = Some (offset', sb') ->
  (offset < length data)%nat /\
  offset' = (offset + 4 + Z.to_nat (declared_length data offset))%nat.
Proof.
  unfold Parse_step, declared_length.
  destruct (Nat.ltb_spec offset (length data)) as [Hlt|]; [|discriminate].
  destruct (Nat.ltb_spec (length data) (offset + 4)); [discriminate|].
  replace (offset + 2 + 1)%nat with (offset + 3)%nat by lia.
  destruct (_ <? _); [discriminate|].
  intros [= <- _]. split; [exact Hlt | lia].
Qed.

Lemma Parse_loop_enough_fuel (data : list Z) (fuel : nat) :
  forall (offset : nat) (sb : list Z),
    (length data - offset < fuel)%nat ->
    exists text, Parse_loop fuel data (offset, sb) = Some text.
Proof.
  induction fuel as [|fuel IH]; intros offset sb Hf; [lia|].
  cbn [Parse_loop].
  destruct (Parse_step data (offset, sb)) as [[offset' sb']|] eqn:Hs.
  - apply Parse_step_advances in Hs as [Hlt ->]. apply IH. lia.
  - eexists. reflexivity.
Qed.

(** C10.  A turn of the record loop that is not the last one moves the
    read cursor forward by the four header bytes plus the declared record
    length, so by at least four bytes even for a declared length of 0; and
    for every buffer the loop is left after at most [data.size() + 1]
    turns, that is, [Parse] returns. *)
Theorem Parse_terminates (data : list Z) :
  (forall (offset offset' : nat) (sb sb' : list Z),
      Parse_step data (offset, sb) = Some (offset', sb') ->
      (offset < length data)%nat /\ (offset + 4 <= offset')%nat) /\
  (exists text, Parse data = Some text).
Proof.
  split.
  - intros offset offset' sb sb' Hs.
    apply Parse_step_advances in Hs as [Hlt ->]. lia.
  - unfold Parse. destruct (Parse_header data) as [sb offset].
    apply Parse_loop_enough_fuel. lia.
Qed.

(** A record whose declared length is one more than the bytes remaining:
    the declared length 2 exceeds the one byte that follows the header, and
    the decoder still writes that byte, [A], to the output. *)
Lemma truncated_by_one_is_decoded :
  let data := [0x00; 0x0A; 0x02; 0x00; 0x41] in
  declared_length data 0 = 2 /\ bytes_remaining data 0 = 1 /\
  bytes_remaining data 0 < declared_length data 0 /\
  Parse data = Some (bytes "10 A" ++ [10]).
Proof. vm_compute. repeat split. Qed.

(** C3, amended.  At a record whose declared length exceeds the bytes
    remaining by two or more, the loop is left: [Parse_step] leaves the
    stream as it is, and the loop returns the text of the records decoded
    before, with no error.  When the declared length exceeds the bytes
    remaining by exactly one, so that only the terminator is missing, the
    guard [offset + lineLen - 1 > data.size()] lets the record through and
    its payload is decoded. *)
Theorem Parse_truncated_record (data : list Z) (offset : nat) (sb : list Z) :
  (offset + 4 <= length data)%nat ->
  (bytes_remaining data offset + 1 < declared_length data offset ->
   Parse_step data (offset, sb) = None /\
   forall fuel, Parse_loop (S fuel) data (offset, sb) = Some sb) /\
  (bytes_remaining data offset + 1 = declared_length data offset ->
   Parse_step data (offset, sb) =
     Some (S (length data),
           sb ++ print_int (Z.lor (Z.shiftl (nth offset data 0) 8) (nth (offset + 1) data 0))
              ++ [32]
              ++ DecodeLineData data (Z.of_nat (offset + 4)) (bytes_remaining data offset)
              ++ [10])).
Proof.
  intros Hh. unfold bytes_remaining, declared_length.
  assert (Hstep : forall P : _ -> Prop,
    P (let lineLen := Z.lor (nth (offset + 2) data 0) (Z.shiftl (nth (offset + 3) data 0) 8) in
       if Z.of_nat (length data) <? Z.of_nat (offset + 4) + lineLen - 1 then None
       else Some ((offset + 4 + Z.to_nat lineLen)%nat,
                  sb ++ print_int (Z.lor (Z.shiftl (nth offset data 0) 8) (nth (offset + 1) data 0))
                     ++ [32] ++ DecodeLineData data (Z.of_nat (offset + 4)) (lineLen - 1) ++ [10])) ->
    P (Parse_step data (offset, sb))).
  { intros P HP. unfold Parse_step.
    destruct (Nat.ltb_spec offset (length data)); [|lia].
    destruct (Nat.ltb_spec (length data) (offset + 4)); [lia|].
    replace (offset + 2 + 1)%nat with (offset + 3)%nat by lia.
    replace (offset + 2 + 2)%nat with (offset + 4)%nat by lia.
    exact HP. }
  split.
  - intros Hlen.
    assert (Hnone : Parse_step data (offset, sb) = None).
    { apply Hstep. cbv zeta.
      destruct (Z.ltb_spec (Z.of_nat (length data))
                  (Z.of_nat (offset + 4)
                   + Z.lor (nth (offset + 2) data 0) (Z.shiftl (nth (offset + 3) data 0) 8) - 1));
        [reflexivity | lia]. }
    split; [exact Hnone|]. intros fuel. cbn [Parse_loop]. rewrite Hnone. reflexivity.
  - intros Hlen. apply Hstep. cbv zeta. rewrite <- Hlen.
    destruct (Z.ltb_spec (Z.of_nat (length data))
                (Z.of_nat (offset + 4)
                 + (Z.of_nat (length data) - Z.of_nat (offset + 4) + 1) - 1)); [lia|].
    apply f_equal. apply f_equal2.
    + lia.
    + replace (Z.of_nat (length data) - Z.of_nat (offset + 4) + 1 - 1)
        with (Z.of_nat (length data) - Z.of_nat (offset + 4)) by lia.
      reflexivity.
Qed.

(** A buffer with one complete record and a second record that declares
    eight bytes and has two. *)
Lemma Parse_truncated_record_witness :
  let data := [0x00; 0x0A; 0x02; 0x00; 0x41; 0x0D; 0x00; 0x14; 0x08; 0x00; 0x42; 0x43] in
  Parse_step data (6%nat, bytes "10 A" ++ [10]) = None /\
  Parse data = Some (bytes "10 A" ++ [10]).
Proof.
  cbv zeta. split.
  - apply (proj1 (Parse_truncated_record
             [0x00; 0x0A; 0x02; 0x00; 0x41; 0x0D; 0x00; 0x14; 0x08; 0x00; 0x42; 0x43]
             6 (bytes "10 A" ++ [10]) ltac:(cbn; lia))).
    vm_compute. reflexivity.
  - vm_compute. reflexivity.
Defined.
End RecordLoop.

(** ** Comments introduced by a semicolon *)

Section SemicolonComments.
Import txt2bas.

(** The comment stage of the second copy of the tokenizer: at a semicolon
    that is at the start of the line, or that follows a colon (spaces
    ignored), the rest of the line is appended as it is and the loop ends. *)
Lemma comment_stage_copies_rest (text : list Z) (i : nat) :
  nth i text 0 = 59 -> comment_context text i = true ->
  ParseLine_body true text i = (substr_from text i, length text).
Proof.
  intros Hc Hctx. unfold ParseLine_body. rewrite Hc, Hctx. reflexivity.
Qed.

Lemma comment_stage_ends_line (text : list Z) (i fuel : nat) (lineData : list Z) :
  (i < length text)%nat -> nth i text 0 = 59 -> comment_context text i = true ->
  ParseLine_loop (S fuel) true text i lineData = lineData ++ substr_from text i.
Proof.
  intros Hi Hc Hctx. cbn [ParseLine_loop].
  rewrite (proj2 (Nat.ltb_lt _ _) Hi), (comment_stage_copies_rest text i Hc Hctx).
  destruct fuel as [|fuel]; [reflexivity|]. cbn [ParseLine_loop].
  replace (S (length text) <? length text)%nat with false
    by (symmetry; apply Nat.ltb_ge; lia).
  reflexivity.
Qed.

(** C2, evaluated.  On the line [; PRINT] the tokenizer of
    [src/cpp/txt2bas/txt2bas.cpp] appends the semicolon and the space and
    then the token 0xF5 of [PRINT]: the rest of the line is tokenized.  The
    same holds behind a colon.  The second copy of the tokenizer, which has
    the comment stage, appends the rest of the line as it is. *)
Theorem semicolon_comment_is_tokenized :
  ParseLine_data false (bytes "; PRINT") = [59; 32; 0xF5; 0x0D] /\
  ParseLine_data true (bytes "; PRINT") = bytes "; PRINT" ++ [0x0D] /\
  ParseLine_data false (bytes "CLS : ; PRINT") = [0xFB; 58; 32; 59; 32; 0xF5; 0x0D] /\
  ParseLine_data true (bytes "CLS : ; PRINT") = [0xFB] ++ bytes ": ; PRINT" ++ [0x0D].
Proof. repeat split; vm_compute; reflexivity. Qed.
End SemicolonComments.

(** ** The autostart directive *)

Section Autostart.
Import txt2bas.

(** A line that starts with [#] never produces a record and never moves
    the line counter, whatever follows the [#]. *)
Lemma directive_line_no_record (cs : bool) (st : conv_state) (line : list Z) :
  (0 < length (trim line))%nat -> nth 0 (trim line) 0 = 35 ->
  exists a, ConvertFile_line cs st line = Some (mk_state (output st) (currentLineNum st) a).
Proof.
  intros Hl Hc. unfold ConvertFile_line.
  replace (length (trim line) =? 0)%nat with false by (symmetry; apply Nat.eqb_neq; lia).
  rewrite Hc. cbn [Z.eqb Pos.eqb].
  destruct st as [o c a]. cbn [output currentLineNum AutoStartLine].
  destruct (bool_decide _); [|eexists; reflexivity].
  destruct (read_word (trim line)) as [dummy iss].
  destruct (extract_int iss); eexists; reflexivity.
Qed.

(** When the extraction of the operand fails, because no operand follows
    the first word or because what follows does not start with an
    optionally signed digit, the state is left as it was. *)
Lemma autostart_operand_not_extracted (cs : bool) (st : conv_state) (line : list Z) :
  (0 < length (trim line))%nat -> nth 0 (trim line) 0 = 35 ->
  (match snd (span isspace (snd (read_word (trim line)))) with
   | [] => True
   | c :: rest =>
       isdigit c = false /\
       ((c <> 45 /\ c <> 43) \/ match rest with [] => True | d :: _ => isdigit d = false end)
   end) ->
  ConvertFile_line cs st line = Some st.
Proof.
  intros Hl Hc Hop. unfold ConvertFile_line.
  replace (length (trim line) =? 0)%nat with false by (symmetry; apply Nat.eqb_neq; lia).
  rewrite Hc. cbn [Z.eqb Pos.eqb].
  destruct (bool_decide _); [|reflexivity].
  destruct (read_word (trim line)) as [dummy iss]. cbn [snd] in Hop.
  assert (He : extract_int iss = None); [|rewrite He; reflexivity].
  unfold extract_int.
  destruct (snd (span isspace iss)) as [|c rest]; [reflexivity|].
  destruct Hop as [Hd Hs].
  assert (Hspan : forall l, match l with [] => True | d :: _ => isdigit d = false end ->
                            fst (span isdigit l) = []).
  { intros [|d l] H; [reflexivity|]. cbn. rewrite H. reflexivity. }
  destruct (Z.eq_dec c 45) as [->|H45]; [|destruct (Z.eq_dec c 43) as [->|H43]].
  - destruct Hs as [[? _]|Hs]; [congruence|]. rewrite (Hspan rest Hs). reflexivity.
  - destruct Hs as [[_ ?]|Hs]; [congruence|]. rewrite (Hspan rest Hs). reflexivity.
  - assert (Hsp : fst (span isdigit (c :: rest)) = []) by (cbn; rewrite Hd; reflexivity).
    destruct c as [|p|p]; try (rewrite Hsp; reflexivity).
    do 8 (try destruct p as [p|p|]; try (rewrite Hsp; reflexivity)); congruence.
Qed.

(** C8, evaluated.  On the line [#autostart 12abc], whose operand [12abc]
    is not a number, the extraction [iss >> val] reads the digits [12] and
    succeeds, and [AutoStartLine] becomes 12 whatever it was before. *)
Theorem autostart_digit_prefix_accepted (st : conv_state) :
  ConvertFile_line false st (bytes "#autostart 12abc")
    = Some (mk_state (output st) (currentLineNum st) 12) /\
  option_map AutoStartLine (ConvertFile [bytes "#autostart 12abc"]) = Some 12.
Proof. split; vm_compute; reflexivity. Qed.
End Autostart.

(** ** The round trip through encoder and decoder *)

Section Tables.
Import txt2bas.

Lemma all_upto_spec (fuel : nat) (f : Z -> bool) :
  forall z, all_upto fuel z f = true ->
  forall x, z <= x < z + Z.of_nat fuel -> f x = true.
Proof.
  induction fuel as [|fuel IH]; intros z H x Hx; [lia|].
  cbn [all_upto] in H. apply andb_true_iff in H as [Hz Hrest].
  destruct (Z.eq_dec x z) as [->|Hne]; [exact Hz|].
  apply (IH (z + 1) Hrest). lia.
Qed.

Lemma number_facts_all (n : Z) : 0 <= n <= 65535 -> number_facts n = true.
Proof.
  intros Hn.
  assert (H : all_upto (Z.to_nat 65536) 0 number_facts = true) by (vm_compute; reflexivity).
  apply (all_upto_spec _ _ _ H). lia.
Qed.

Lemma key_facts_all (k : list Z) : In k (map fst Map) -> key_facts k = true.
Proof.
  assert (H : forallb key_facts (map fst Map) = true) by (vm_compute; reflexivity).
  rewrite forallb_forall in H. apply H.
Qed.
End Tables.

Section Encoder.
Import txt2bas.

(** *** Lists *)

Lemma nth_app_here (pre : list Z) (c : Z) (s : list Z) :
  nth (length pre) (pre ++ c :: s) 0 = c.
Proof. apply nth_middle. Qed.

Lemma span_run (p : Z -> bool) (run rest : list Z) :
  Forall (fun c => p c = true) run ->
  match rest with [] => True | c :: _ => p c = false end ->
  span p (run ++ rest) = (run, rest).
Proof.
  intros Hrun Hrest. induction Hrun as [|c run Hc _ IH]; cbn.
  - destruct rest as [|c r]; [reflexivity|]. cbn. rewrite Hrest. reflexivity.
  - rewrite Hc, IH. reflexivity.
Qed.

Lemma find_index_run (p : Z -> bool) (run : list Z) (c : Z) (rest : list Z) :
  Forall (fun x => p x = false) run -> p c = true ->
  find_index p (run ++ c :: rest) = Some (length run).
Proof.
  intros Hrun Hc. induction Hrun as [|x run Hx _ IH]; cbn.
  - rewrite Hc. reflexivity.
  - rewrite Hx, IH. reflexivity.
Qed.


(** *** The loop *)

Lemma ParseLine_loop_step (fuel : nat) (cs : bool) (text : list Z) (i i' : nat)
    (acc out : list Z) :
  (i < length text)%nat -> ParseLine_body cs text i = (out, i') ->
  ParseLine_loop (S fuel) cs text i acc = ParseLine_loop fuel cs text (S i') (acc ++ out).
Proof.
  intros Hi Hb. cbn [ParseLine_loop].
  rewrite (proj2 (Nat.ltb_lt _ _) Hi), Hb. reflexivity.
Qed.

Lemma ParseLine_loop_end (fuel : nat) (cs : bool) (text : list Z) (i : nat) (acc : list Z) :
  (length text <= i)%nat -> ParseLine_loop fuel cs text i acc = acc.
Proof.
  intros Hi. destruct fuel as [|fuel]; [reflexivity|]. cbn [ParseLine_loop].
  rewrite (proj2 (Nat.ltb_ge _ _) Hi). reflexivity.
Qed.

(** *** Keys *)

Lemma match_keys_skip (l1 keys : list (list Z)) (text : list Z) (i : nat) :
  Forall (fun k' => (length text < i + length k')%nat \/
                    CaseInsensitiveEquals (substr text i (length k')) k' = false) l1 ->
  match_keys (l1 ++ keys) text i = match_keys keys text i.
Proof.
  induction 1 as [|k' l1 Hk _ IH]; [reflexivity|].
  cbn [app match_keys]. destruct Hk as [Hk|Hk].
  - rewrite (proj2 (Nat.ltb_lt _ _) Hk). exact IH.
  - destruct (_ <? _)%nat; [exact IH|]. rewrite Hk. exact IH.
Qed.

Lemma match_keys_none (keys : list (list Z)) (text : list Z) (i : nat) :
  Forall (fun k' => (length text < i + length k')%nat \/
                    CaseInsensitiveEquals (substr text i (length k')) k' = false) keys ->
  match_keys keys text i = None.
Proof.
  intros H. rewrite <- (app_nil_r keys). rewrite (match_keys_skip keys [] text i H).
  reflexivity.
Qed.


(** The text at [i] is the character [c], which no key starts with. *)
Lemma match_keys_foreign_char (pre : list Z) (c : Z) (s : list Z) :
  starts_no_key c = true ->
  match_keys _sortedKeys (pre ++ c :: s) (length pre) = None.
Proof.
  intros Hc. apply match_keys_none. unfold starts_no_key in Hc.
  rewrite forallb_forall in Hc. apply Forall_forall. intros k' Hin.
  apply list_elem_of_In in Hin.
  specialize (Hc k' Hin). destruct k' as [|kc k']; [discriminate|].
  apply negb_true_iff in Hc.
  right. unfold CaseInsensitiveEquals, substr.
  rewrite drop_app_length. cbn [length take].
  destruct (negb (_ =? _)%nat); [reflexivity|]. cbn [equal_with].
  rewrite Hc. reflexivity.
Qed.

(** A character that is appended as it is: no quote, no start of a number,
    no start of a key. *)
Lemma body_raw (pre : list Z) (c : Z) (s : list Z) :
  c <> 34 -> isdigit c = false -> c <> 46 -> starts_no_key c = true ->
  ParseLine_body false (pre ++ c :: s) (length pre) = ([u8 c], length pre).
Proof.
  intros Hq Hd Hp Hk. unfold ParseLine_body.
  rewrite nth_app_here.
  rewrite (proj2 (Z.eqb_neq _ _) Hq), Hd, (proj2 (Z.eqb_neq _ _) Hp).
  cbn [orb andb]. rewrite (match_keys_foreign_char pre c s Hk). reflexivity.
Qed.

Lemma key_facts_inv (k : list Z) :
  key_facts k = true ->
  exists c k0,
    k = c :: k0 /\
    (c <> 34 /\ isdigit c = false /\ c <> 46 /\ isspace c = false /\ c <> 35) /\
    Forall (fun c => c <> 34 /\ c <> 10 /\ c <> 13) k /\
    is_trim_char (List.last k 0) = false /\
    CaseInsensitiveEquals k k = true /\
    In k _sortedKeys /\
    forallb (passes_by k) (keys_before k _sortedKeys) = true /\
    exists keyword,
      bas2txt.Map_find (Map_at k) = Some keyword /\
      squeeze false keyword = squeeze false k /\
      Forall (fun c => c <> 34) keyword.
Proof.
  unfold key_facts. intros H.
  repeat (apply andb_true_iff in H as [H ?]).
  destruct k as [|c k0]; [discriminate|]. exists c, k0.
  repeat (apply andb_true_iff in H as [H ?]).
  repeat match goal with
         | Hn : negb _ = true |- _ => apply negb_true_iff in Hn
         end.
  split; [reflexivity|]. split.
  { repeat split; try assumption; intros ->; discriminate. }
  split.
  { apply Forall_forall. intros x Hx. apply list_elem_of_In in Hx.
    match goal with
    | Hf : forallb _ (c :: k0) = true |- _ =>
        rewrite forallb_forall in Hf; specialize (Hf x Hx);
        repeat (apply andb_true_iff in Hf as [Hf ?])
    end.
    repeat match goal with
           | Hn : negb _ = true |- _ => apply negb_true_iff in Hn; apply Z.eqb_neq in Hn
           end.
    repeat split; assumption. }
  split; [assumption|]. split; [assumption|]. split.
  { match goal with Hb : bool_decide _ = true |- _ => apply bool_decide_eq_true in Hb; exact Hb end. }
  split; [assumption|].
  destruct (bas2txt.Map_find (Map_at (c :: k0))) as [keyword|]; [|discriminate].
  exists keyword. split; [reflexivity|].
  match goal with
  | Hm : _ && _ = true |- _ => apply andb_true_iff in Hm as [Hs Hq]
  end.
  split; [apply bool_decide_eq_true in Hs; exact Hs|].
  apply Forall_forall. intros x Hx. apply list_elem_of_In in Hx.
  rewrite forallb_forall in Hq. specialize (Hq x Hx).
  apply negb_true_iff, Z.eqb_neq in Hq. exact Hq.
Qed.






Lemma nth_app_next (a : list Z) (x c : Z) (r : list Z) :
  nth (S (length a)) (a ++ x :: c :: r) 0 = c.
Proof.
  replace (a ++ x :: c :: r) with ((a ++ [x]) ++ c :: r)
    by (rewrite <- app_assoc; reflexivity).
  replace (S (length a)) with (length (a ++ [x])) by (rewrite length_app; cbn; lia).
  apply nth_app_here.
Qed.





(** *** Numbers *)

Lemma number_facts_inv (n : Z) :
  0 <= n <= 65535 ->
  print_int n <> [] /\ Forall (fun c => isdigit c = true) (print_int n) /\
  digits_value (print_int n) = n /\ exists v, stod (print_int n) = Some v.
Proof.
  intros Hn. pose proof (number_facts_all n Hn) as H. unfold number_facts in H.
  cbv zeta in H. repeat (apply andb_true_iff in H as [H ?]).
  split; [|split; [|split]].
  - intros He. rewrite He in H. discriminate.
  - apply Forall_forall. intros c Hc. apply list_elem_of_In in Hc.
    match goal with Hf : forallb _ _ = true |- _ => rewrite forallb_forall in Hf; exact (Hf c Hc) end.
  - apply Z.eqb_eq. assumption.
  - destruct (stod (print_int n)) as [v|]; [exists v; reflexivity | discriminate].
Qed.


Lemma isdigit_bounds (c : Z) : isdigit c = true -> 48 <= c <= 57.
Proof. unfold isdigit. intros H. apply andb_true_iff in H as [H1 H2]. lia. Qed.

(** *** The first character of a line of tokens *)




(** *** The tokenizer on a line of tokens *)






(** Without the comment stage a semicolon is a character like any other:
    wherever it stands, it is appended as it is and the scan goes on with
    the next character. *)
Lemma semicolon_is_raw (pre s : list Z) (fuel : nat) (lineData : list Z) :
  ParseLine_body false (pre ++ 59 :: s) (length pre) = ([59], length pre) /\
  ParseLine_loop (S fuel) false (pre ++ 59 :: s) (length pre) lineData
  = ParseLine_loop fuel false (pre ++ 59 :: s) (S (length pre)) (lineData ++ [59]).
Proof.
  assert (Hb : ParseLine_body false (pre ++ 59 :: s) (length pre) = ([59], length pre)).
  { apply (body_raw pre 59 s); try discriminate; reflexivity. }
  split; [exact Hb|].
  apply ParseLine_loop_step; [|exact Hb]. rewrite length_app. cbn [length]. lia.
Qed.
End Encoder.

Section Decoder.
Import bas2txt.

(** *** The decoder loop on a list *)

Lemma decode_list_skip (n : nat) (l : list Z) :
  decode_list n l = decode_list 0 (drop n l).
Proof.
  revert l. induction n as [|n IH]; intros l; [rewrite drop_0; reflexivity|].
  destruct l as [|b l]; [reflexivity|]. cbn [decode_list drop]. apply IH.
Qed.

Lemma slice_cons (data : list Z) (i end_ : Z) :
  0 <= i < end_ -> end_ <= Z.of_nat (length data) ->
  take (Z.to_nat (end_ - i)) (drop (Z.to_nat i) data)
  = nth (Z.to_nat i) data 0
    :: take (Z.to_nat (end_ - (i + 1))) (drop (Z.to_nat (i + 1)) data).
Proof.
  intros Hi He.
  replace (Z.to_nat (end_ - i)) with (S (Z.to_nat (end_ - (i + 1)))) by lia.
  replace (Z.to_nat (i + 1)) with (S (Z.to_nat i)) by lia.
  destruct (lookup_lt_is_Some_2 data (Z.to_nat i) ltac:(lia)) as [x Hx].
  rewrite (drop_S data x (Z.to_nat i) Hx). cbn [take].
  rewrite (nth_lookup_Some data (Z.to_nat i) 0 x Hx). reflexivity.
Qed.

Lemma slice_head (data : list Z) (i end_ : Z) :
  0 <= i -> end_ <= Z.of_nat (length data) ->
  match take (Z.to_nat (end_ - i)) (drop (Z.to_nat i) data) with
  | [] => (i <? end_) = false
  | next :: _ => (i <? end_) = true /\ next = nth (Z.to_nat i) data 0
  end.
Proof.
  intros Hi He. destruct (Z.ltb_spec i end_) as [Hlt|Hge].
  - rewrite slice_cons by lia. split; reflexivity.
  - replace (Z.to_nat (end_ - i)) with O by lia. reflexivity.
Qed.

Lemma DecodeLineData_loop_list (data : list Z) (end_ : Z) (fuel : nat) :
  end_ <= Z.of_nat (length data) ->
  forall (i : Z) (sb : list Z), 0 <= i -> end_ - i <= Z.of_nat fuel ->
    DecodeLineData_loop fuel data i end_ sb
    = sb ++ decode_list 0 (take (Z.to_nat (end_ - i)) (drop (Z.to_nat i) data)).
Proof.
  intros He. induction fuel as [|fuel IH]; intros i sb Hi Hf.
  - cbn [DecodeLineData_loop]. replace (Z.to_nat (end_ - i)) with O by lia.
    cbn. rewrite app_nil_r. reflexivity.
  - cbn [DecodeLineData_loop]. destruct (Z.ltb_spec i end_) as [Hlt|Hge].
    2:{ replace (Z.to_nat (end_ - i)) with O by lia. cbn. rewrite app_nil_r. reflexivity. }
    rewrite slice_cons by lia. unfold DecodeLineData_body.
    set (b := nth (Z.to_nat i) data 0).
    cbn [decode_list]. destruct (b =? 14).
    + rewrite IH by lia. rewrite app_nil_r. f_equal.
      rewrite (decode_list_skip 5). f_equal.
      rewrite skipn_firstn_comm, drop_drop. f_equal; [lia|]. f_equal. lia.
    + pose proof (slice_head data (i + 1) end_ ltac:(lia) He) as Hn.
      destruct (Map_find b) as [keyword|].
      * rewrite IH by lia. rewrite <- !app_assoc. f_equal. f_equal.
        destruct (take (Z.to_nat (end_ - (i + 1))) (drop (Z.to_nat (i + 1)) data)) as [|next l'].
        -- rewrite Hn. reflexivity.
        -- destruct Hn as [-> ->]. reflexivity.
      * destruct ((32 <=? b) && (b <=? 126)); [|destruct (b =? 127)];
          rewrite IH by lia; rewrite <- !app_assoc; reflexivity.
Qed.

(** [DecodeLineData] on a payload that lies inside the buffer. *)
Lemma DecodeLineData_list (pre payload post : list Z) :
  DecodeLineData (pre ++ payload ++ post) (Z.of_nat (length pre)) (Z.of_nat (length payload))
  = decode_list 0 payload.
Proof.
  unfold DecodeLineData. rewrite DecodeLineData_loop_list.
  - cbn [app]. f_equal.
    replace (Z.to_nat (Z.of_nat (length pre) + Z.of_nat (length payload) - Z.of_nat (length pre)))
      with (length payload) by lia.
    rewrite Nat2Z.id, drop_app_length, take_app_length. reflexivity.
  - rewrite !length_app. lia.
  - lia.
  - lia.
Qed.

(** *** The decoder on the tokenized form of a line of tokens *)

Lemma decode_plain (c : Z) (l : list Z) :
  printable c = true -> decode_list 0 (c :: l) = c :: decode_list 0 l.
Proof.
  intros Hc. unfold printable in Hc. pose proof Hc as Hc'.
  apply andb_true_iff in Hc' as [H1 H2].
  apply Z.leb_le in H1. apply Z.leb_le in H2.
  cbn [decode_list].
  replace (c =? 14) with false by (symmetry; apply Z.eqb_neq; lia).
  rewrite Map_find_below_128 by lia. rewrite Hc. reflexivity.
Qed.

Lemma decode_plain_run (run l : list Z) :
  Forall (fun c => printable c = true) run ->
  decode_list 0 (run ++ l) = run ++ decode_list 0 l.
Proof.
  induction 1 as [|c run Hc _ IH]; [reflexivity|].
  cbn [app]. rewrite decode_plain by exact Hc. rewrite IH. reflexivity.
Qed.

Lemma decode_hidden (packed l : list Z) :
  length packed = 5%nat ->
  decode_list 0 (14 :: packed ++ l) = decode_list 0 l.
Proof.
  intros Hl. cbn [decode_list Z.eqb Pos.eqb].
  rewrite decode_list_skip, <- Hl, drop_app_length. reflexivity.
Qed.

Lemma Pack_length (v : spec_float) : length (txt2bas.Pack v) = 5%nat.
Proof. unfold txt2bas.Pack. destruct (_ && _); reflexivity. Qed.

Lemma digit_printable (c : Z) : isdigit c = true -> printable c = true.
Proof.
  intros H. apply isdigit_bounds in H. unfold printable.
  apply andb_true_iff. split; apply Z.leb_le; lia.
Qed.




(** *** Equality up to spaces *)






End Decoder.

(** ** Bounds of the tokenizer loop *)

Section TokenizerBounds.
Import txt2bas.

Lemma find_index_bound (p : Z -> bool) (s : list Z) (n : nat) :
  find_index p s = Some n -> (n < length s)%nat.
Proof.
  revert n. induction s as [|c s IH]; intros n; cbn [find_index]; [discriminate|].
  destruct (p c).
  - intros [= <-]. cbn. lia.
  - destruct (find_index p s) as [m|]; [|discriminate].
    intros [= <-]. specialize (IH m eq_refl). cbn. lia.
Qed.

Lemma find_char_bound (c : Z) (s : list Z) (pos e : nat) :
  find_char c s pos = Some e -> (pos <= e < length s)%nat.
Proof.
  unfold find_char. destruct (find_index (Z.eqb c) (drop pos s)) as [n|] eqn:Hf; [|discriminate].
  intros [= <-]. apply find_index_bound in Hf. rewrite length_drop in Hf. lia.
Qed.

Lemma span_length (p : Z -> bool) (s : list Z) : (length (fst (span p s)) <= length s)%nat.
Proof.
  induction s as [|c s IH]; [cbn; lia|]. cbn [span].
  destruct (p c); [|cbn; lia]. destruct (span p s) as [a b]. cbn in *. lia.
Qed.

Lemma span_head (p : Z -> bool) (c : Z) (s : list Z) :
  p c = true -> (1 <= length (fst (span p (c :: s))))%nat.
Proof. intros H. cbn [span]. rewrite H. destruct (span p s). cbn. lia. Qed.

Lemma skip_spaces_bounds (fuel : nat) (text : list Z) :
  forall i, (i <= length text)%nat ->
            (i <= skip_spaces fuel text i <= length text)%nat.
Proof.
  induction fuel as [|fuel IH]; intros i Hi; cbn [skip_spaces]; [lia|].
  destruct (Nat.ltb_spec i (length text)) as [Hlt|]; cbn [andb]; [|lia].
  destruct (nth i text 0 =? 32); [|lia].
  specialize (IH (S i) ltac:(lia)). lia.
Qed.

Lemma keys_not_empty (k : list Z) : In k _sortedKeys -> (1 <= length k)%nat.
Proof.
  assert (H : forallb (fun k => (1 <=? length k)%nat) _sortedKeys = true)
    by (vm_compute; reflexivity).
  rewrite forallb_forall in H. intros Hk. apply Nat.leb_le. apply H. exact Hk.
Qed.

Lemma match_keys_fits (text : list Z) (i : nat) (k : list Z) :
  match_keys _sortedKeys text i = Some k ->
  (1 <= length k)%nat /\ (i + length k <= length text)%nat.
Proof.
  rewrite match_keys_find. intros H. apply List.find_some in H as [Hin Hk].
  split; [apply keys_not_empty; exact Hin|].
  unfold key_hit in Hk. apply andb_true_iff in Hk as [Hk _].
  apply andb_true_iff in Hk as [Hk _]. apply negb_true_iff in Hk.
  apply Nat.ltb_ge in Hk. exact Hk.
Qed.

(** The bytes one turn of the loop appends, against the characters it
    consumes: at most seven bytes for a character, which a one digit number
    reaches. *)
Lemma ParseLine_body_size (cs : bool) (text : list Z) (i : nat) :
  (i < length text)%nat ->
  (length (fst (ParseLine_body cs text i)) + 7 * i
   <= 7 * Nat.min (S (snd (ParseLine_body cs text i))) (length text))%nat.
Proof.
  intros Hi. unfold ParseLine_body. cbv zeta.
  destruct (nth i text 0 =? 34).
  { destruct (find_char 34 text (i + 1)) as [e|] eqn:Hf; cbn [fst snd].
    - apply find_char_bound in Hf. unfold substr. rewrite length_take, length_drop. lia.
    - unfold substr_from. rewrite length_drop. lia. }
  set (numStr := fst (span _ (drop i text))).
  assert (Hnum : isdigit (nth i text 0)
                 || ((nth i text 0 =? 46) && (i + 1 <? length text)%nat
                     && isdigit (nth (i + 1) text 0)) = true ->
                 (1 <= length numStr <= length text - i)%nat).
  { intros Hc. subst numStr.
    destruct (lookup_lt_is_Some_2 text i Hi) as [c Hx].
    rewrite (nth_lookup_Some text i 0 c Hx) in Hc.
    pose proof (span_length (fun c => isdigit c || (c =? 46)) (drop i text)) as Hle.
    rewrite length_drop in Hle. split; [|exact Hle].
    rewrite (drop_S text c i Hx). apply span_head.
    destruct (isdigit c); [reflexivity|]. cbn [orb] in Hc |- *.
    apply andb_true_iff in Hc as [Hc _]. apply andb_true_iff in Hc as [Hc _]. exact Hc. }
  destruct (isdigit (nth i text 0) || _) eqn:Hc.
  - specialize (Hnum eq_refl).
    destruct (stod numStr).
    { cbn [fst snd]. rewrite !length_app, Pack_length. cbn [length]. lia. }
    destruct (cs && _ && _).
    { cbn [fst snd]. unfold substr_from. rewrite length_drop. lia. }
    destruct (match_keys _sortedKeys text i) as [k|] eqn:Hm; [|cbn [fst snd length]; lia].
    apply match_keys_fits in Hm as [H1 H2].
    destruct (Map_at k =? 234).
    + destruct (Nat.ltb_spec (i + length k) (length text)); cbn [fst snd].
      * rewrite length_app. unfold substr_from. rewrite length_drop. cbn [length]. lia.
      * cbn [length]. lia.
    + cbn [fst snd length].
      pose proof (skip_spaces_bounds (length text) text (i + length k) H2). lia.
  - clear Hnum.
    destruct (cs && _ && _).
    { cbn [fst snd]. unfold substr_from. rewrite length_drop. lia. }
    destruct (match_keys _sortedKeys text i) as [k|] eqn:Hm; [|cbn [fst snd length]; lia].
    apply match_keys_fits in Hm as [H1 H2].
    destruct (Map_at k =? 234).
    + destruct (Nat.ltb_spec (i + length k) (length text)); cbn [fst snd].
      * rewrite length_app. unfold substr_from. rewrite length_drop. cbn [length]. lia.
      * cbn [length]. lia.
    + cbn [fst snd length].
      pose proof (skip_spaces_bounds (length text) text (i + length k) H2). lia.
Qed.

Lemma ParseLine_loop_size (cs : bool) (text : list Z) (fuel : nat) :
  forall (i : nat) (acc : list Z),
    (i <= length text)%nat ->
    (length (ParseLine_loop fuel cs text i acc) + 7 * i
     <= length acc + 7 * length text)%nat.
Proof.
  induction fuel as [|fuel IH]; intros i acc Hi; cbn [ParseLine_loop]; [lia|].
  destruct (Nat.ltb_spec i (length text)) as [Hlt|Hge]; [|lia].
  pose proof (ParseLine_body_size cs text i Hlt) as Hb.
  destruct (ParseLine_body cs text i) as [out i']. cbn [fst snd] in Hb.
  destruct (Nat.le_gt_cases (S i') (length text)) as [Hin|Hout].
  - specialize (IH (S i') (acc ++ out) Hin). rewrite length_app in IH. lia.
  - rewrite ParseLine_loop_end by lia. rewrite length_app. lia.
Qed.

End TokenizerBounds.

Section FileLevel.
Import txt2bas.

(** *** The source line and the trimming step *)



Lemma ends_untrimmed_app (a b : list Z) : ends_untrimmed b -> ends_untrimmed (a ++ b).
Proof.
  intros (c & r & Hr & Hc). exists c, (r ++ rev a).
  rewrite rev_app_distr, Hr. split; [reflexivity | exact Hc].
Qed.

Lemma ends_untrimmed_digits (ds : list Z) :
  ds <> [] -> Forall (fun c => isdigit c = true) ds -> ends_untrimmed ds.
Proof.
  intros Hne Hds. destruct (rev ds) as [|c r] eqn:Hr.
  - apply (f_equal (@rev Z)) in Hr. rewrite rev_involutive in Hr. cbn in Hr. congruence.
  - exists c, r. split; [exact Hr|].
    assert (Hc : isdigit c = true).
    { apply Forall_rev in Hds. rewrite Hr in Hds. inversion Hds; assumption. }
    apply isdigit_bounds in Hc. unfold is_trim_char.
    repeat (apply orb_false_iff; split); apply Z.eqb_neq; lia.
Qed.




(** *** The line number in front of a line *)


Lemma span_all (p : Z -> bool) (l : list Z) :
  Forall (fun c => p c = true) l -> span p l = (l, []).
Proof.
  intros H. rewrite <- (app_nil_r l) at 1. apply span_run; [exact H | exact I].
Qed.

Lemma span_none (p : Z -> bool) (c : Z) (l : list Z) :
  p c = false -> span p (c :: l) = ([], c :: l).
Proof. intros H. cbn [span]. rewrite H. reflexivity. Qed.


(** *** [ConvertFile] on a program of tokens *)


Lemma line_split_None (items its : list item) :
  line_split items = (None, its) -> its = items.
Proof.
  destruct items as [|[k|m|s] [|it2 its']]; cbn [line_split]; try (intros [= <-]; reflexivity).
  destruct (0 <=? m); [discriminate | intros [= <-]; reflexivity].
Qed.





(** *** The header in front of the records *)

Lemma CreateHeader_length (basicLength autoStartLine : Z) :
  length (CreateHeader basicLength autoStartLine) = 128%nat.
Proof.
  unfold CreateHeader.
  destruct ((0 <=? autoStartLine) && (autoStartLine <? 32768));
    repeat rewrite length_insert; reflexivity.
Qed.

Lemma CreateHeader_signature (basicLength autoStartLine : Z) :
  take 8 (CreateHeader basicLength autoStartLine) = bytes "PLUS3DOS".
Proof.
  unfold CreateHeader.
  destruct ((0 <=? autoStartLine) && (autoStartLine <? 32768));
    repeat (rewrite take_insert_ge by lia); reflexivity.
Qed.



(** *** The two bytes of a line number and of a record length *)

Lemma lor_bytes (hi lo : Z) :
  0 <= lo < 256 -> Z.lor (Z.shiftl hi 8) lo = hi * 256 + lo.
Proof.
  intros Hlo. rewrite Z.shiftl_mul_pow2 by lia. change (2 ^ 8) with 256.
  assert (Hland : Z.land (hi * 256) lo = 0).
  { apply Z.bits_inj'. intros n Hn. rewrite Z.land_spec, Z.bits_0.
    destruct (Z.ltb_spec n 8).
    - replace (hi * 256) with (hi * 2 ^ 8) by reflexivity.
      rewrite Z.mul_pow2_bits_low by lia. reflexivity.
    - rewrite (Z.bits_above_log2 lo n); [apply andb_false_r | lia |].
      destruct (Z.eq_dec lo 0) as [->|]; [cbn; lia|].
      apply Z.lt_le_trans with 8; [|lia].
      apply Z.log2_lt_pow2; [lia|]. cbn. lia. }
  rewrite <- Z.lxor_lor by exact Hland. symmetry.
  apply Z.add_nocarry_lxor. exact Hland.
Qed.

Lemma byte_of_land (x : Z) : u8 (Z.land x 0xFF) = x mod 256.
Proof. rewrite land_255. apply u8_small. apply Z.mod_pos_bound. lia. Qed.

Lemma two_bytes (x : Z) :
  (x / 256 mod 256) * 256 + x mod 256 = x mod 65536.
Proof.
  change 65536 with (256 * 256). rewrite Z.rem_mul_r by lia. lia.
Qed.

(** The big-endian line number read back from a record. *)
Lemma line_number_bytes (num : Z) :
  Z.lor (Z.shiftl (u8 (Z.land (Z.shiftr num 8) 0xFF)) 8) (u8 (Z.land num 0xFF))
  = num mod 65536.
Proof.
  rewrite !byte_of_land, shiftr_8.
  rewrite lor_bytes by (apply Z.mod_pos_bound; lia). apply two_bytes.
Qed.

(** The little-endian record length read back from a record. *)
Lemma record_length_bytes (len : Z) :
  0 <= len < 65536 ->
  Z.lor (u8 (Z.land len 0xFF)) (Z.shiftl (u8 (Z.land (Z.shiftr len 8) 0xFF)) 8) = len.
Proof.
  intros Hl. rewrite Z.lor_comm, line_number_bytes. apply Z.mod_small. exact Hl.
Qed.

(** *** The record loop on a sequence of complete records *)

Lemma record_bytes_length (r : Z * list Z) :
  length (record_bytes r) = (4 + length (snd r) + 1)%nat.
Proof. unfold record_bytes. cbn [app length]. rewrite length_app. cbn. lia. Qed.

Lemma Parse_step_record (pre post sb : list Z) (r : Z * list Z) :
  Z.of_nat (length (snd r)) + 1 < 65536 ->
  bas2txt.Parse_step (pre ++ record_bytes r ++ post) (length pre, sb)
  = Some (length (pre ++ record_bytes r), sb ++ record_text r).
Proof.
  intros Hlen. destruct r as [num payload]. cbn [fst snd] in *.
  set (len := Z.of_nat (length payload) + 1) in *.
  assert (Hrec : record_bytes (num, payload)
                 = [u8 (Z.land (Z.shiftr num 8) 0xFF); u8 (Z.land num 0xFF);
                    u8 (Z.land len 0xFF); u8 (Z.land (Z.shiftr len 8) 0xFF)]
                   ++ payload ++ [0x0D]) by reflexivity.
  remember (pre ++ record_bytes (num, payload) ++ post) as data eqn:Hd.
  assert (Hdata : length data = (length pre + (4 + length payload + 1) + length post)%nat).
  { rewrite Hd, !length_app, record_bytes_length. cbn [snd]. lia. }
  assert (Hnth : forall j, nth (length pre + j) data 0
                           = nth j (record_bytes (num, payload) ++ post) 0).
  { intros j. rewrite Hd. apply app_nth2_plus. }
  assert (H0 : nth (length pre) data 0 = u8 (Z.land (Z.shiftr num 8) 0xFF)).
  { rewrite <- (Nat.add_0_r (length pre)), Hnth, Hrec. reflexivity. }
  assert (H1 : nth (length pre + 1) data 0 = u8 (Z.land num 0xFF)).
  { rewrite Hnth, Hrec. reflexivity. }
  assert (H2 : nth (length pre + 2) data 0 = u8 (Z.land len 0xFF)).
  { rewrite Hnth, Hrec. reflexivity. }
  assert (H3 : nth (length pre + 2 + 1) data 0 = u8 (Z.land (Z.shiftr len 8) 0xFF)).
  { replace (length pre + 2 + 1)%nat with (length pre + 3)%nat by lia.
    rewrite Hnth, Hrec. reflexivity. }
  unfold bas2txt.Parse_step.
  rewrite H0, H1, H2, H3, Hdata.
  replace (length pre <? length pre + (4 + length payload + 1) + length post)%nat with true
    by (symmetry; apply Nat.ltb_lt; lia).
  replace (length pre + (4 + length payload + 1) + length post <? length pre + 4)%nat with false
    by (symmetry; apply Nat.ltb_ge; lia).
  rewrite line_number_bytes, (record_length_bytes len) by lia.
  replace (Z.of_nat (length pre + (4 + length payload + 1) + length post)
           <? Z.of_nat (length pre + 2 + 2) + len - 1) with false
    by (symmetry; apply Z.ltb_ge; lia).
  f_equal. f_equal.
  - rewrite length_app, record_bytes_length. cbn [snd]. lia.
  - unfold record_text. cbn [fst snd]. do 3 f_equal.
    rewrite Hd, Hrec.
    set (hd4 := [u8 (Z.land (Z.shiftr num 8) 0xFF); u8 (Z.land num 0xFF);
                 u8 (Z.land len 0xFF); u8 (Z.land (Z.shiftr len 8) 0xFF)]).
    replace (pre ++ (hd4 ++ payload ++ [13]) ++ post)
      with ((pre ++ hd4) ++ payload ++ ([13] ++ post))
      by (rewrite <- !app_assoc; reflexivity).
    replace (Z.of_nat (length pre + 2 + 2)) with (Z.of_nat (length (pre ++ hd4)))
      by (rewrite length_app; subst hd4; cbn [length]; lia).
    replace (len - 1) with (Z.of_nat (length payload)) by lia.
    rewrite DecodeLineData_list. reflexivity.
Qed.

Lemma Parse_loop_records (recs : list (Z * list Z)) :
  Forall (fun r => Z.of_nat (length (snd r)) + 1 < 65536) recs ->
  forall (pre sb : list Z) (fuel : nat),
    (length recs < fuel)%nat ->
    bas2txt.Parse_loop fuel (pre ++ concat (map record_bytes recs)) (length pre, sb)
    = Some (sb ++ concat (map record_text recs)).
Proof.
  induction 1 as [|r recs Hr _ IH]; intros pre sb fuel Hfuel.
  - destruct fuel as [|fuel]; [cbn in Hfuel; lia|].
    cbn [map concat bas2txt.Parse_loop]. rewrite !app_nil_r.
    unfold bas2txt.Parse_step. rewrite Nat.ltb_irrefl. reflexivity.
  - destruct fuel as [|fuel]; [cbn in Hfuel; lia|].
    cbn [map concat bas2txt.Parse_loop].
    rewrite (Parse_step_record pre _ sb r Hr).
    rewrite app_assoc. rewrite IH by (cbn [length] in Hfuel; lia).
    rewrite <- app_assoc. reflexivity.
Qed.

Lemma records_length (recs : list (Z * list Z)) :
  (length recs <= length (concat (map record_bytes recs)))%nat.
Proof.
  induction recs as [|r recs IH]; [cbn; lia|].
  cbn [map concat length]. rewrite length_app, record_bytes_length. lia.
Qed.


(** *** Encoder and decoder together *)











(** The lines the decoder writes for that program and for three more
    lines: two numbers in a row keep the space between them, a number
    alone in its line is text under the line counter, and no space stands
    between a keyword and a negative number. *)
Lemma decoded_lines_of_example :
  map decoded_line (numbered 10 [[Kw (bytes "PRINT"); Str (bytes "HI")];
                                 [Num 20; Kw (bytes "goto"); Num 10];
                                 [Kw (bytes "DATA"); Num 1; Num 0];
                                 [Num 7];
                                 [Kw (bytes "PRINT"); Num (-5)]])
  = [bytes "10 PRINT " ++ [34] ++ bytes "HI" ++ [34];
     bytes "20 GO TO 10";
     bytes "30 DATA 1 0";
     bytes "40 7";
     bytes "50 PRINT-5"] /\
  option_map bas2txt.Parse
    (encode (map line_text [[Kw (bytes "PRINT"); Str (bytes "HI")];
                            [Num 20; Kw (bytes "goto"); Num 10];
                            [Kw (bytes "DATA"); Num 1; Num 0];
                            [Num 7];
                            [Kw (bytes "PRINT"); Num (-5)]]))
  = Some (Some (unlines [bytes "10 PRINT " ++ [34] ++ bytes "HI" ++ [34];
                         bytes "20 GO TO 10";
                         bytes "30 DATA 1 0";
                         bytes "40 7";
                         bytes "50 PRINT-5"])).
Proof. split; vm_compute; reflexivity. Qed.

(** Two keywords in a row are written without a space between them, and
    the tokenizer does not find them again in the decoded line: the round
    trip gives the text of the tokens, not a line that tokenizes to the
    same record. *)
Lemma keywords_are_fused :
  option_map bas2txt.Parse
    (encode (map line_text [[Kw (bytes "RANDOMIZE"); Kw (bytes "USR"); Num 32768]]))
  = Some (Some (unlines [bytes "10 RANDOMIZEUSR 32768"])) /\
  ParseLine_data false (bytes "RANDOMIZEUSR 32768")
  <> ParseLine_data false (bytes "RANDOMIZE USR 32768").
Proof. split; [vm_compute; reflexivity | vm_compute; discriminate]. Qed.

(** A keyword in lower case is tokenized as well, and comes back in the
    spelling of the decoder's table: the case of a keyword is not kept. *)
Lemma lower_case_keyword_comes_back_upper :
  option_map bas2txt.Parse (encode [bytes "print 1 "])
  = Some (Some (unlines [bytes "10 PRINT 1"])).
Proof. vm_compute. reflexivity. Qed.


(** The same with the two bytes of a UTF-8 letter, 0xC3 0xA9: both are
    token codes, and the decoder writes the keywords [NOT] and [POINT] in
    their place. *)
Lemma utf8_in_string_becomes_keywords :
  option_map bas2txt.Parse
    (encode (map line_text [[Kw (bytes "PRINT"); Str [0xC3; 0xA9]]]))
  = Some (Some (unlines [bytes "10 PRINT " ++ [34] ++ bytes "NOTPOINT " ++ [34]])).
Proof. vm_compute. reflexivity. Qed.
End FileLevel.

(** * Further properties *)

(** ** The fields of the header *)

Section HeaderFields.
Import txt2bas.

(** The header written out: the signature, the fixed bytes, the four
    bytes of the total size [t], the two bytes of the length [b], the two
    bytes [a0 a1] of the autostart field, the length again, 105 zero bytes
    and the checksum. *)
Lemma CreateHeader_explicit (basicLength autoStartLine : Z) :
  exists a0 a1 checksum,
    CreateHeader basicLength autoStartLine
    = bytes "PLUS3DOS" ++ [0x1A; 0x01; 0x00]
      ++ [u8 (Z.land (wrap_int (basicLength + 128)) 0xFF);
          u8 (Z.land (Z.shiftr (wrap_int (basicLength + 128)) 8) 0xFF);
          u8 (Z.land (Z.shiftr (wrap_int (basicLength + 128)) 16) 0xFF);
          u8 (Z.land (Z.shiftr (wrap_int (basicLength + 128)) 24) 0xFF)]
      ++ [0x00]
      ++ [u8 (Z.land basicLength 0xFF); u8 (Z.land (Z.shiftr basicLength 8) 0xFF)]
      ++ [a0; a1]
      ++ [u8 (Z.land basicLength 0xFF); u8 (Z.land (Z.shiftr basicLength 8) 0xFF)]
      ++ replicate 105 0 ++ [checksum] /\
    (if (0 <=? autoStartLine) && (autoStartLine <? 32768)
     then a0 = u8 (Z.land autoStartLine 0xFF)
          /\ a1 = u8 (Z.land (Z.shiftr autoStartLine 8) 0xFF)
     else a0 = 0 /\ a1 = 128) /\
    0 <= checksum < 256.
Proof.
  unfold CreateHeader.
  change (copy_at 0 (bytes "PLUS3DOS") (replicate 128 0))
    with (bytes "PLUS3DOS" ++ replicate 120 0).
  cbv zeta.
  generalize (u8 (Z.land (wrap_int (basicLength + 128)) 0xFF))
             (u8 (Z.land (Z.shiftr (wrap_int (basicLength + 128)) 8) 0xFF))
             (u8 (Z.land (Z.shiftr (wrap_int (basicLength + 128)) 16) 0xFF))
             (u8 (Z.land (Z.shiftr (wrap_int (basicLength + 128)) 24) 0xFF))
             (u8 (Z.land basicLength 0xFF))
             (u8 (Z.land (Z.shiftr basicLength 8) 0xFF)).
  intros t0 t1 t2 t3 b0 b1.
  destruct ((0 <=? autoStartLine) && (autoStartLine <? 32768)).
  - generalize (u8 (Z.land autoStartLine 0xFF))
               (u8 (Z.land (Z.shiftr autoStartLine 8) 0xFF)).
    intros a0 a1.
    match goal with
    | |- context [u8 (Z.rem ?s 256)] => generalize (u8_range (Z.rem s 256)); generalize (u8 (Z.rem s 256))
    end.
    intros cs Hcs. exists a0, a1, cs. split; [reflexivity|]. split; [split; reflexivity | exact Hcs].
  - match goal with
    | |- context [u8 (Z.rem ?s 256)] => generalize (u8_range (Z.rem s 256)); generalize (u8 (Z.rem s 256))
    end.
    intros cs Hcs. exists 0, 128, cs. split; [reflexivity|]. split; [split; reflexivity | exact Hcs].
Qed.

Lemma shiftr_16 (x : Z) : Z.shiftr x 16 = x / 65536.
Proof. rewrite Z.shiftr_div_pow2 by lia. reflexivity. Qed.

Lemma shiftr_24 (x : Z) : Z.shiftr x 24 = x / 16777216.
Proof. rewrite Z.shiftr_div_pow2 by lia. reflexivity. Qed.

(** Four bytes of a number, least significant first, give the number
    modulo 2^32; two bytes give it modulo 2^16. *)
Lemma le_value_four (x : Z) :
  le_value [u8 (Z.land x 0xFF); u8 (Z.land (Z.shiftr x 8) 0xFF);
            u8 (Z.land (Z.shiftr x 16) 0xFF); u8 (Z.land (Z.shiftr x 24) 0xFF)]
  = x mod 4294967296.
Proof.
  rewrite !byte_of_land, shiftr_8, shiftr_16, shiftr_24. unfold le_value. cbn [foldr].
  replace (x / 65536) with (x / 256 / 256) by (rewrite Z.div_div by lia; reflexivity).
  replace (x / 16777216) with (x / 256 / 256 / 256)
    by (rewrite !Z.div_div by lia; reflexivity).
  assert (H : x / 4294967296 = x / 256 / 256 / 256 / 256)
    by (rewrite !Z.div_div by lia; reflexivity).
  rewrite (Z.mod_eq x 4294967296), H by lia.
  generalize (Z.div_mod x 256), (Z.div_mod (x / 256) 256),
    (Z.div_mod (x / 256 / 256) 256), (Z.div_mod (x / 256 / 256 / 256) 256).
  rewrite !(Z.mod_eq _ 256) by lia. lia.
Qed.

Lemma le_value_two (x : Z) :
  le_value [u8 (Z.land x 0xFF); u8 (Z.land (Z.shiftr x 8) 0xFF)] = x mod 65536.
Proof.
  rewrite !byte_of_land, shiftr_8. unfold le_value. cbn [foldr].
  rewrite <- two_bytes. lia.
Qed.

Lemma wrap_int_mod (x : Z) : wrap_int x mod 4294967296 = x mod 4294967296.
Proof.
  unfold wrap_int. rewrite Zminus_mod, Z.mod_mod by lia. rewrite <- Zminus_mod.
  f_equal. lia.
Qed.

Lemma wrap_int_small (x : Z) : -2147483648 <= x < 2147483648 -> wrap_int x = x.
Proof. intros H. unfold wrap_int. rewrite Z.mod_small by lia. lia. Qed.

Lemma CreateHeader_fields (basicLength autoStartLine : Z) :
  field (CreateHeader basicLength autoStartLine) 11 4 = (basicLength + 128) mod 4294967296 /\
  field (CreateHeader basicLength autoStartLine) 16 2 = basicLength mod 65536 /\
  field (CreateHeader basicLength autoStartLine) 20 2 = basicLength mod 65536.
Proof.
  destruct (CreateHeader_explicit basicLength autoStartLine) as (a0 & a1 & cs & -> & _).
  unfold field.
  change (bytes "PLUS3DOS") with [80; 76; 85; 83; 51; 68; 79; 83].
  cbn [app drop take].
  rewrite le_value_four, !le_value_two, wrap_int_mod. repeat split.
Qed.

Lemma field_app (h d : list Z) (pos n : nat) :
  (pos + n <= length h)%nat -> field (h ++ d) pos n = field h pos n.
Proof.
  intros H. unfold field. rewrite drop_app_le by lia.
  rewrite take_app_le by (rewrite length_drop; lia). reflexivity.
Qed.

Lemma wrap_int_mod_65536 (x : Z) : wrap_int x mod 65536 = x mod 65536.
Proof.
  assert (Hd : (65536 | 4294967296)) by (exists 65536; reflexivity).
  rewrite <- (Z.mod_mod_divide (wrap_int x) 4294967296 65536 Hd), wrap_int_mod.
  apply Z.mod_mod_divide. exact Hd.
Qed.

(** X2.  The size fields of the header, for every pair of arguments: the
    four bytes at offset 11 hold the data length plus 128 modulo 2^32,
    least significant byte first, and the two bytes at offset 16 and the
    two bytes at offset 20 both hold the data length modulo 2^16. *)
Theorem CreateHeader_size_fields (basicLength autoStartLine : Z) :
  let header := CreateHeader basicLength autoStartLine in
  field header 11 4 = (basicLength + 128) mod 4294967296 /\
  field header 16 2 = basicLength mod 65536 /\
  field header 20 2 = basicLength mod 65536.
Proof. exact (CreateHeader_fields basicLength autoStartLine). Qed.

(** X3.  The size fields of a file [main] writes: the four bytes at offset
    11 hold the length of the file, and the two bytes at offset 16 and at
    offset 20 the length of the data behind the header, modulo 2^32 and
    2^16. *)
Theorem encode_size_fields (lines : list (list Z)) (file : list Z) :
  encode lines = Some file ->
  128 <= Z.of_nat (length file) /\
  field file 11 4 = Z.of_nat (length file) mod 4294967296 /\
  field file 16 2 = Z.of_nat (length file - 128) mod 65536 /\
  field file 20 2 = Z.of_nat (length file - 128) mod 65536.
Proof.
  unfold encode. destruct (ConvertFile lines) as [st|]; [|discriminate].
  intros [= <-]. set (data := output st).
  pose proof (CreateHeader_length (wrap_int (Z.of_nat (length data))) (AutoStartLine st)) as Hl.
  destruct (CreateHeader_fields (wrap_int (Z.of_nat (length data))) (AutoStartLine st))
    as (F1 & F2 & F3).
  rewrite !field_app by lia. rewrite F1, F2, F3, length_app, Hl.
  replace (128 + length data - 128)%nat with (length data) by lia.
  rewrite wrap_int_mod_65536.
  split; [lia|]. split; [|split; reflexivity].
  rewrite Zplus_mod, wrap_int_mod, <- Zplus_mod. f_equal. lia.
Qed.

Lemma encode_size_fields_witness :
  128 <= Z.of_nat (length (CreateHeader 6 32768 ++ [0; 10; 2; 0; 0xFB; 0x0D])) /\
  field (CreateHeader 6 32768 ++ [0; 10; 2; 0; 0xFB; 0x0D]) 11 4
  = Z.of_nat (length (CreateHeader 6 32768 ++ [0; 10; 2; 0; 0xFB; 0x0D])) mod 4294967296 /\
  field (CreateHeader 6 32768 ++ [0; 10; 2; 0; 0xFB; 0x0D]) 16 2
  = Z.of_nat (length (CreateHeader 6 32768 ++ [0; 10; 2; 0; 0xFB; 0x0D]) - 128) mod 65536 /\
  field (CreateHeader 6 32768 ++ [0; 10; 2; 0; 0xFB; 0x0D]) 20 2
  = Z.of_nat (length (CreateHeader 6 32768 ++ [0; 10; 2; 0; 0xFB; 0x0D]) - 128) mod 65536.
Proof.
  apply (encode_size_fields [bytes "CLS"] (CreateHeader 6 32768 ++ [0; 10; 2; 0; 0xFB; 0x0D])).
  vm_compute. reflexivity.
Defined.

(** X4.  The fixed part of the header, for every pair of arguments: 128
    bytes, each in [0, 255]; the signature [PLUS3DOS], the soft end of
    file 0x1A, issue 1 and version 0 in front; the type byte 0 at offset
    15; and nothing but zero bytes from offset 22 up to the checksum. *)
Theorem CreateHeader_layout (basicLength autoStartLine : Z) :
  let header := CreateHeader basicLength autoStartLine in
  length header = 128%nat /\
  Forall (fun b => 0 <= b < 256) header /\
  take 11 header = bytes "PLUS3DOS" ++ [0x1A; 0x01; 0x00] /\
  header !! 15%nat = Some 0x00 /\
  (forall i : nat, (22 <= i < 127)%nat -> header !! i = Some 0x00).
Proof.
  destruct (CreateHeader_explicit basicLength autoStartLine) as (a0 & a1 & cs & -> & Ha & Hcs).
  cbv zeta. change (bytes "PLUS3DOS") with [80; 76; 85; 83; 51; 68; 79; 83].
  cbn [app]. split; [reflexivity|]. split; [|split; [reflexivity|split; [reflexivity|]]].
  - assert (Ha' : 0 <= a0 < 256 /\ 0 <= a1 < 256).
    { destruct ((0 <=? autoStartLine) && (autoStartLine <? 32768));
        destruct Ha as [-> ->]; split; (apply u8_range || lia). }
    destruct Ha' as [Ha0 Ha1].
    repeat (constructor; [first [apply u8_range | assumption | lia]|]).
    constructor.
  - intros i Hi. replace i with (22 + (i - 22))%nat by lia. cbn [Nat.add].
    do 22 rewrite lookup_cons. cbn [Nat.pred].
    rewrite lookup_app_l by (rewrite length_replicate; lia).
    apply lookup_replicate_2. lia.
Qed.

(** What [Parse] reads back from a header [CreateHeader] wrote. *)
Lemma Parse_header_CreateHeader (basicLength autoStartLine : Z) (data : list Z) :
  bas2txt.Parse_header (CreateHeader basicLength autoStartLine ++ data)
  = (if (0 <=? autoStartLine) && (autoStartLine <? 32768)
     then bytes "#autostart " ++ print_int autoStartLine ++ [10] else [],
     128%nat).
Proof.
  unfold bas2txt.Parse_header.
  pose proof (CreateHeader_length basicLength autoStartLine) as Hl.
  replace (128 <=? length (CreateHeader basicLength autoStartLine ++ data))%nat with true
    by (symmetry; apply Nat.leb_le; rewrite length_app; lia).
  rewrite take_app_le by lia. rewrite CreateHeader_signature.
  cbn [orb]. rewrite bool_decide_eq_true_2 by reflexivity. cbn [orb].
  rewrite !app_nth1 by lia. clear Hl.
  destruct (CreateHeader_explicit basicLength autoStartLine) as (a0 & a1 & cs & -> & Ha & _).
  change (bytes "PLUS3DOS") with [80; 76; 85; 83; 51; 68; 79; 83].
  cbn [app nth].
  destruct (Z.leb_spec 0 autoStartLine) as [H0|H0];
    [destruct (Z.ltb_spec autoStartLine 32768) as [H1|H1]|];
    cbn [andb] in Ha |- *; destruct Ha as [-> ->].
  - rewrite Z.lor_comm, lor_bytes by apply u8_range.
    rewrite !byte_of_land, shiftr_8, two_bytes, Z.mod_small by lia.
    replace (autoStartLine =? 32768) with false by (symmetry; apply Z.eqb_neq; lia).
    reflexivity.
  - reflexivity.
  - reflexivity.
Qed.
End HeaderFields.

(** ** The record loop behind a header *)

Section RecordsBehindHeader.
Import bas2txt.

(** The decoder on a slice that lies inside the data. *)
Lemma DecodeLineData_slice (data : list Z) (start len : Z) :
  0 <= start -> start + len <= Z.of_nat (length data) ->
  DecodeLineData data start len
  = decode_list 0 (take (Z.to_nat len) (drop (Z.to_nat start) data)).
Proof.
  intros Hs He. unfold DecodeLineData.
  rewrite DecodeLineData_loop_list by lia. cbn [app].
  replace (start + len - start) with len by lia. reflexivity.
Qed.

(** The text written so far is only appended to. *)
Lemma Parse_step_stream (data : list Z) (offset : nat) (sb : list Z) :
  Parse_step data (offset, sb)
  = option_map (fun st => (fst st, sb ++ snd st)) (Parse_step data (offset, [])).
Proof.
  unfold Parse_step.
  destruct (_ <? _)%nat; [|reflexivity].
  destruct (_ <? _)%nat; [reflexivity|].
  destruct (_ <? _); reflexivity.
Qed.

Lemma Parse_loop_stream (data : list Z) (fuel : nat) :
  forall (offset : nat) (sb : list Z),
    Parse_loop fuel data (offset, sb)
    = option_map (app sb) (Parse_loop fuel data (offset, [])).
Proof.
  induction fuel as [|fuel IH]; intros offset sb; [reflexivity|].
  cbn [Parse_loop]. rewrite Parse_step_stream.
  destruct (Parse_step data (offset, [])) as [[offset' sb']|]; cbn [option_map fst snd].
  - rewrite (IH offset' (sb ++ sb')), (IH offset' sb').
    destruct (Parse_loop fuel data (offset', [])); cbn [option_map]; [|reflexivity].
    rewrite app_assoc. reflexivity.
  - rewrite app_nil_r. reflexivity.
Qed.

(** A turn of the loop reads nothing in front of its offset. *)
Lemma Parse_step_prefix (h1 h2 d : list Z) (offset : nat) (sb : list Z) :
  length h1 = length h2 -> (length h1 <= offset)%nat ->
  Parse_step (h1 ++ d) (offset, sb) = Parse_step (h2 ++ d) (offset, sb).
Proof.
  intros Hl Ho. unfold Parse_step. rewrite !length_app, <- Hl.
  destruct (_ <? _)%nat; [|reflexivity].
  destruct (Nat.ltb_spec (length h1 + length d) (offset + 4)) as [|H4]; [reflexivity|].
  rewrite !(app_nth2 h1), !(app_nth2 h2) by lia. rewrite <- Hl.
  set (lineLen := Z.lor _ _). set (lineNum := Z.lor _ _).
  destruct (Z.ltb_spec (Z.of_nat (length h1 + length d)) (Z.of_nat (offset + 2 + 2) + lineLen - 1))
    as [|Hg]; [reflexivity|].
  rewrite !DecodeLineData_slice by (rewrite ?length_app; lia).
  rewrite Nat2Z.id, !drop_app_ge by lia. rewrite <- Hl. reflexivity.
Qed.

Lemma Parse_loop_prefix (h1 h2 d : list Z) (fuel : nat) :
  length h1 = length h2 ->
  forall (offset : nat) (sb : list Z),
    (length h1 <= offset)%nat ->
    Parse_loop fuel (h1 ++ d) (offset, sb) = Parse_loop fuel (h2 ++ d) (offset, sb).
Proof.
  intros Hl. induction fuel as [|fuel IH]; intros offset sb Ho; [reflexivity|].
  cbn [Parse_loop]. rewrite (Parse_step_prefix h1 h2) by assumption.
  destruct (Parse_step (h2 ++ d) (offset, sb)) as [[offset' sb']|] eqn:Hs; [|reflexivity].
  apply Parse_step_advances in Hs as [_ ->]. apply IH. lia.
Qed.

(** X5.  Of a header [CreateHeader] wrote, the decoder uses the autostart
    field only: whatever the two arguments were, the file is decoded as the
    same file without autostart line is, with the line of the directive in
    front when the autostart line is in [0, 32767]. *)
Theorem Parse_autostart_header (basicLength basicLength' autoStartLine : Z)
    (data : list Z) :
  Parse (txt2bas.CreateHeader basicLength autoStartLine ++ data)
  = option_map (app (autostart_line autoStartLine))
      (Parse (txt2bas.CreateHeader basicLength' 32768 ++ data)).
Proof.
  unfold Parse. rewrite !Parse_header_CreateHeader.
  rewrite !length_app, !CreateHeader_length.
  change ((0 <=? 32768) && (32768 <? 32768)) with false. cbv iota.
  fold (autostart_line autoStartLine).
  rewrite Parse_loop_stream. f_equal.
  apply Parse_loop_prefix; rewrite !CreateHeader_length; lia.
Qed.

(** The record loop behind any header [CreateHeader] wrote. *)
Lemma Parse_header_and_records (basicLength autoStartLine : Z) (recs : list (Z * list Z)) :
  Forall (fun r => Z.of_nat (length (snd r)) + 1 < 65536) recs ->
  Parse (txt2bas.CreateHeader basicLength autoStartLine ++ concat (map record_bytes recs))
  = Some (autostart_line autoStartLine ++ concat (map record_text recs)).
Proof.
  intros Hrecs. unfold Parse. rewrite Parse_header_CreateHeader.
  fold (autostart_line autoStartLine).
  pose proof (Parse_loop_records recs Hrecs (txt2bas.CreateHeader basicLength autoStartLine)
                (autostart_line autoStartLine)
                (S (length (txt2bas.CreateHeader basicLength autoStartLine
                            ++ concat (map record_bytes recs))))) as H.
  rewrite CreateHeader_length in H. apply H.
  rewrite length_app. pose proof (records_length recs). lia.
Qed.

(** X6.  A file made of a header and of line records is decoded record by
    record, whatever bytes the payloads hold: each record gives its line
    number modulo 65536, a space, its decoded payload and a line feed,
    provided the payload and its end marker fit the 16 bit length field. *)
Theorem Parse_all_records (basicLength autoStartLine : Z) (recs : list (Z * list Z)) :
  Forall (fun r => Z.of_nat (length (snd r)) + 1 < 65536) recs ->
  Parse (txt2bas.CreateHeader basicLength autoStartLine ++ concat (map record_bytes recs))
  = Some (autostart_line autoStartLine ++ concat (map record_text recs)).
Proof. exact (Parse_header_and_records basicLength autoStartLine recs). Qed.

Lemma Parse_all_records_witness :
  Parse (txt2bas.CreateHeader 15 10
         ++ concat (map record_bytes [(10, [0xF5; 34; 72; 73; 34]); (65556, [0xE2])]))
  = Some (autostart_line 10
          ++ concat (map record_text [(10, [0xF5; 34; 72; 73; 34]); (65556, [0xE2])])).
Proof.
  apply (Parse_all_records 15 10 [(10, [0xF5; 34; 72; 73; 34]); (65556, [0xE2])]).
  repeat (constructor; [cbn; lia|]). constructor.
Defined.

End RecordsBehindHeader.

(** ** The two token tables and the choice of a key *)

Section TokenTables.
Import txt2bas.

(** X7.  The table of the decoder has a keyword for every byte from 0x87
    to 0xFF and for no other value. *)
Theorem Map_find_defined (b : Z) :
  (exists keyword, bas2txt.Map_find b = Some keyword) <-> 0x87 <= b <= 0xFF.
Proof.
  split.
  - intros [keyword H]. exact (Map_find_code b keyword H).
  - intros Hb.
    assert (H : all_upto 121 0x87
                  (fun b => match bas2txt.Map_find b with Some _ => true | None => false end)
                = true) by (vm_compute; reflexivity).
    pose proof (all_upto_spec _ _ _ H b ltac:(lia)) as Hf. cbv beta in Hf.
    destruct (bas2txt.Map_find b) as [keyword|]; [|discriminate].
    exists keyword. reflexivity.
Qed.

(** X8.  The two tables agree.  The keyword the decoder writes for a code
    is a key of the encoder with that very code; and every key of the
    encoder has a code of the decoder's table, whose keyword is the key up
    to spaces (the keys [GOTO] and [GOSUB] come back as [GO TO] and
    [GO SUB]). *)
Theorem token_tables_agree :
  (forall (b : Z) (keyword : list Z),
      bas2txt.Map_find b = Some keyword ->
      In keyword (map fst Map) /\ Map_at keyword = b) /\
  (forall k : list Z,
      In k (map fst Map) ->
      exists keyword,
        bas2txt.Map_find (Map_at k) = Some keyword /\
        squeeze false keyword = squeeze false k).
Proof.
  split.
  - intros b keyword H. unfold bas2txt.Map_find in H.
    destruct (List.find (fun p => fst p =? b) bas2txt.Map) as [p|] eqn:Hf; [|discriminate].
    injection H as <-. apply List.find_some in Hf as [Hin Hb]. apply Z.eqb_eq in Hb.
    assert (Hall : forallb (fun p => bool_decide (In (snd p) (map fst Map))
                                     && (Map_at (snd p) =? fst p)) bas2txt.Map = true)
      by (vm_compute; reflexivity).
    rewrite forallb_forall in Hall. specialize (Hall p Hin).
    apply andb_true_iff in Hall as [H1 H2].
    apply bool_decide_eq_true_1 in H1. apply Z.eqb_eq in H2. split; [exact H1 | lia].
  - intros k Hk.
    destruct (key_facts_inv k (key_facts_all k Hk))
      as (_ & _ & _ & _ & _ & _ & _ & _ & _ & keyword & Hm & Hsq & _).
    exists keyword. split; assumption.
Qed.

(** X9.  [CaseInsensitiveEquals] holds of two strings exactly when they
    are the same string once every character is put in upper case; so it
    is reflexive, symmetric and transitive. *)
Theorem CaseInsensitiveEquals_toupper :
  (forall a b, CaseInsensitiveEquals a b = true <-> map toupper a = map toupper b) /\
  (forall a, CaseInsensitiveEquals a a = true) /\
  (forall a b, CaseInsensitiveEquals a b = CaseInsensitiveEquals b a) /\
  (forall a b c, CaseInsensitiveEquals a b = true -> CaseInsensitiveEquals b c = true ->
                 CaseInsensitiveEquals a c = true).
Proof.
  split; [exact CaseInsensitiveEquals_map|]. split; [|split].
  - intros a. apply CaseInsensitiveEquals_map. reflexivity.
  - intros a b. apply eq_true_iff_eq. rewrite !CaseInsensitiveEquals_map.
    split; intros H; symmetry; exact H.
  - intros a b c. rewrite !CaseInsensitiveEquals_map. intros -> ->. reflexivity.
Qed.

(** X10.  The key the tokenizer takes at a position is the longest key that
    fits there: it is a key of the table that is not skipped, no key that
    is not skipped is longer, and it is the only one of its length; no key
    is taken exactly when every key is skipped. *)
Theorem match_keys_longest (text : list Z) (i : nat) :
  (forall k,
      match_keys _sortedKeys text i = Some k <->
      In k _sortedKeys /\ key_hit text i k = true /\
      forall k', In k' _sortedKeys -> key_hit text i k' = true ->
                 (length k' <= length k)%nat) /\
  (match_keys _sortedKeys text i = None <->
   forall k, In k _sortedKeys -> key_hit text i k = false).
Proof.
  assert (Hs0 : longest_first _sortedKeys = true) by (vm_compute; reflexivity).
  rewrite match_keys_find. split.
  - intros k. split.
    + intros H. exact (find_longest _ _ _ Hs0 H).
    + intros (Hin & Hk & Hmax).
      destruct (List.find (key_hit text i) _sortedKeys) as [k0|] eqn:Hf.
      * destruct (find_longest _ _ _ Hs0 Hf) as (Hin0 & Hk0 & Hmax0).
        f_equal. apply (one_hit_per_length text i); try assumption.
        apply Nat.le_antisymm; [apply Hmax | apply Hmax0]; assumption.
      * pose proof (List.find_none _ _ Hf k Hin). congruence.
  - split.
    + intros H k Hin. exact (List.find_none _ _ H k Hin).
    + intros H. destruct (List.find (key_hit text i) _sortedKeys) as [k0|] eqn:Hf;
        [|reflexivity].
      apply List.find_some in Hf as [Hin Hk]. rewrite (H k0 Hin) in Hk. discriminate.
Qed.

End TokenTables.

(** ** The decoder of a payload *)

Section Payload.
Import bas2txt.

Lemma DecodeLineData_whole (payload : list Z) :
  DecodeLineData payload 0 (Z.of_nat (length payload)) = decode_list 0 payload.
Proof.
  pose proof (DecodeLineData_list [] payload []) as H.
  rewrite app_nil_r in H. exact H.
Qed.

(** X11.  The decoded text of a slice of the data depends on the bytes of
    the slice only: neither the bytes in front of it nor the bytes behind
    it are looked at, not even for the space behind a last token or behind
    a marker 0x0E among the last five bytes. *)
Theorem DecodeLineData_local (pre payload post : list Z) :
  DecodeLineData (pre ++ payload ++ post) (Z.of_nat (length pre)) (Z.of_nat (length payload))
  = DecodeLineData payload 0 (Z.of_nat (length payload)).
Proof. rewrite DecodeLineData_list, DecodeLineData_whole. reflexivity. Qed.

(** X12.  The marker 0x0E and the five bytes behind it give no text, whatever
    the five bytes are; a marker with fewer than five bytes behind it ends
    the text of the line. *)
Theorem hidden_number_skipped (five rest : list Z) :
  (length five = 5%nat ->
   DecodeLineData ([0x0E] ++ five ++ rest) 0 (Z.of_nat (length ([0x0E] ++ five ++ rest)))
   = DecodeLineData rest 0 (Z.of_nat (length rest))) /\
  ((length five <= 5)%nat ->
   DecodeLineData ([0x0E] ++ five) 0 (Z.of_nat (length ([0x0E] ++ five))) = []).
Proof.
  rewrite !DecodeLineData_whole. split; intros Hl.
  - cbn [app]. apply (decode_hidden five rest Hl).
  - cbn [app decode_list Z.eqb Pos.eqb]. rewrite decode_list_skip.
    rewrite drop_ge by lia. reflexivity.
Qed.

Lemma hidden_number_skipped_witness :
  DecodeLineData ([0x0E] ++ [0; 0; 10; 0; 0] ++ [0xF5])
    0 (Z.of_nat (length ([0x0E] ++ [0; 0; 10; 0; 0] ++ [0xF5])))
  = DecodeLineData [0xF5] 0 (Z.of_nat (length [0xF5])) /\
  DecodeLineData ([0x0E] ++ [0xF5; 65]) 0 (Z.of_nat (length ([0x0E] ++ [0xF5; 65]))) = [].
Proof.
  split.
  - apply (proj1 (hidden_number_skipped [0; 0; 10; 0; 0] [0xF5])). reflexivity.
  - apply (proj2 (hidden_number_skipped [0xF5; 65] [])). cbn. lia.
Defined.

Lemma Map_find_printable (b : Z) (keyword : list Z) :
  Map_find b = Some keyword -> Forall (fun c => printable c = true) keyword.
Proof.
  unfold Map_find. intros H.
  destruct (List.find (fun p => fst p =? b) Map) as [p|] eqn:Hf; [|discriminate].
  injection H as <-. apply List.find_some in Hf as [Hin _].
  assert (Hall : forallb (fun p => forallb printable (snd p)) Map = true)
    by (vm_compute; reflexivity).
  rewrite forallb_forall in Hall. specialize (Hall p Hin).
  rewrite forallb_forall in Hall. apply Forall_forall. intros c Hc.
  apply Hall. apply list_elem_of_In. exact Hc.
Qed.

Lemma decode_list_alphabet (l : list Z) :
  forall skip,
    Forall (fun c => printable c = true \/ c = 0xC2 \/ c = 0xA9) (decode_list skip l).
Proof.
  induction l as [|b l IH]; intros skip; [constructor|].
  cbn [decode_list]. destruct skip as [|n]; [|apply IH].
  destruct (b =? 14); [apply IH|].
  destruct (Map_find b) as [keyword|] eqn:Hm.
  - apply Forall_app. split.
    + eapply Forall_impl; [exact (Map_find_printable b keyword Hm)|].
      intros c Hc. left. exact Hc.
    + apply Forall_app. split; [|apply IH].
      destruct l as [|next l']; [constructor|].
      destruct (_ && _); [|constructor].
      destruct (_ || _); [|constructor].
      constructor; [left; reflexivity | constructor].
  - apply Forall_app. split; [|apply IH].
    destruct ((32 <=? b) && (b <=? 126)) eqn:Hp.
    + constructor; [left; exact Hp | constructor].
    + destruct (b =? 127); [|constructor].
      constructor; [right; left; reflexivity|].
      constructor; [right; right; reflexivity | constructor].
Qed.

(** X13.  Every byte of the text decoded from a slice inside the data is a
    printable ASCII character or one of the two bytes 0xC2, 0xA9 of the
    copyright sign: control bytes and the bytes 0x80 to 0x86 are dropped,
    and no line feed is written inside a line. *)
Theorem DecodeLineData_alphabet (data : list Z) (start len : Z) :
  0 <= start -> start + len <= Z.of_nat (length data) ->
  Forall (fun c => printable c = true \/ c = 0xC2 \/ c = 0xA9)
         (DecodeLineData data start len).
Proof.
  intros Hs He. rewrite DecodeLineData_slice by assumption. apply decode_list_alphabet.
Qed.

Lemma DecodeLineData_alphabet_witness :
  Forall (fun c => printable c = true \/ c = 0xC2 \/ c = 0xA9)
         (DecodeLineData [0xF5; 34; 9; 0x7F; 0x80; 34] 0 6).
Proof. apply (DecodeLineData_alphabet [0xF5; 34; 9; 0x7F; 0x80; 34] 0 6); cbn; lia. Defined.

Lemma decode_char_cons (b : Z) (l : list Z) :
  b <> 0x0E -> b < 0x87 ->
  decode_list 0 (b :: l) = decode_char b ++ decode_list 0 l.
Proof.
  intros H1 H2. cbn [decode_list].
  replace (b =? 14) with false by (symmetry; apply Z.eqb_neq; exact H1).
  destruct (Map_find b) as [keyword|] eqn:Hm.
  - apply Map_find_code in Hm. lia.
  - reflexivity.
Qed.

(** X14.  Bytes that are neither markers nor token codes are decoded one
    by one, independently of what follows them: a printable ASCII byte
    gives itself, 0x7F gives the two bytes of the copyright sign, every
    other one gives nothing. *)
Theorem DecodeLineData_bytewise (raw rest : list Z) :
  Forall (fun b => b <> 0x0E /\ b < 0x87) raw ->
  DecodeLineData (raw ++ rest) 0 (Z.of_nat (length (raw ++ rest)))
  = flat_map decode_char raw ++ DecodeLineData rest 0 (Z.of_nat (length rest)).
Proof.
  intros Hraw. rewrite !DecodeLineData_whole.
  induction Hraw as [|b raw [H1 H2] _ IH]; [reflexivity|].
  cbn [app flat_map]. rewrite decode_char_cons by assumption.
  rewrite IH, app_assoc. reflexivity.
Qed.

Lemma DecodeLineData_bytewise_witness :
  DecodeLineData ([65; 9; 0x7F; 0x80] ++ [0xF5])
    0 (Z.of_nat (length ([65; 9; 0x7F; 0x80] ++ [0xF5])))
  = flat_map decode_char [65; 9; 0x7F; 0x80]
    ++ DecodeLineData [0xF5] 0 (Z.of_nat (length [0xF5])).
Proof.
  apply (DecodeLineData_bytewise [65; 9; 0x7F; 0x80] [0xF5]).
  repeat (constructor; [lia|]). constructor.
Defined.

End Payload.

(** ** The loop of the tokenizer *)

Section TokenizerLoop.
Import txt2bas.

(** A turn of the loop leaves [i] at or behind the position it started at
    and at most at [text.length()]. *)
Lemma ParseLine_body_bounds (cs : bool) (text : list Z) (i : nat) :
  (i < length text)%nat ->
  (i <= snd (ParseLine_body cs text i) <= length text)%nat.
Proof.
  intros Hi. unfold ParseLine_body. cbv zeta.
  destruct (nth i text 0 =? 34).
  { destruct (find_char 34 text (i + 1)) as [e|] eqn:Hf; cbn [snd]; [|lia].
    apply find_char_bound in Hf. lia. }
  set (numStr := fst (span _ (drop i text))).
  assert (Hnum : isdigit (nth i text 0)
                 || ((nth i text 0 =? 46) && (i + 1 <? length text)%nat
                     && isdigit (nth (i + 1) text 0)) = true ->
                 (1 <= length numStr <= length text - i)%nat).
  { intros Hc. subst numStr.
    destruct (lookup_lt_is_Some_2 text i Hi) as [c Hx].
    rewrite (nth_lookup_Some text i 0 c Hx) in Hc.
    pose proof (span_length (fun c => isdigit c || (c =? 46)) (drop i text)) as Hle.
    rewrite length_drop in Hle. split; [|exact Hle].
    rewrite (drop_S text c i Hx). apply span_head.
    destruct (isdigit c); [reflexivity|]. cbn [orb] in Hc |- *.
    apply andb_true_iff in Hc as [Hc _]. apply andb_true_iff in Hc as [Hc _]. exact Hc. }
  destruct (isdigit (nth i text 0) || _) eqn:Hc.
  - specialize (Hnum eq_refl).
    destruct (stod numStr); [cbn [snd]; lia|].
    destruct (cs && _ && _); [cbn [snd]; lia|].
    destruct (match_keys _sortedKeys text i) as [k|] eqn:Hm; [|cbn [snd]; lia].
    apply match_keys_fits in Hm as [H1 H2].
    destruct (Map_at k =? 234).
    + destruct (i + length k <? length text)%nat; cbn [snd]; lia.
    + cbn [snd]. pose proof (skip_spaces_bounds (length text) text (i + length k) H2). lia.
  - clear Hnum.
    destruct (cs && _ && _); [cbn [snd]; lia|].
    destruct (match_keys _sortedKeys text i) as [k|] eqn:Hm; [|cbn [snd]; lia].
    apply match_keys_fits in Hm as [H1 H2].
    destruct (Map_at k =? 234).
    + destruct (i + length k <? length text)%nat; cbn [snd]; lia.
    + cbn [snd]. pose proof (skip_spaces_bounds (length text) text (i + length k) H2). lia.
Qed.

Lemma ParseLine_loop_fuel (cs : bool) (text : list Z) (fuel : nat) :
  forall (fuel' i : nat) (acc : list Z),
    (length text - i <= fuel)%nat -> (length text - i <= fuel')%nat ->
    ParseLine_loop fuel cs text i acc = ParseLine_loop fuel' cs text i acc.
Proof.
  induction fuel as [|fuel IH]; intros fuel' i acc H1 H2.
  - rewrite !ParseLine_loop_end by lia. reflexivity.
  - destruct (Nat.ltb_spec i (length text)) as [Hlt|Hge].
    2:{ rewrite !ParseLine_loop_end by lia. reflexivity. }
    destruct fuel' as [|fuel']; [lia|].
    destruct (ParseLine_body cs text i) as [out i'] eqn:Hb.
    pose proof (ParseLine_body_bounds cs text i Hlt) as Hi'. rewrite Hb in Hi'. cbn [snd] in Hi'.
    rewrite !(ParseLine_loop_step _ cs text i i' acc out Hlt Hb).
    apply IH; lia.
Qed.

(** X15.  The loop of [ParseLine] ends on every text: a turn that starts
    at a position [i] inside the text leaves [i] at [i] or behind it and
    not beyond the length of the text, so that the [i++] of the loop moves
    on; and the loop is left by its condition after at most
    [text.length()] turns, more turns changing nothing. *)
Theorem ParseLine_terminates (commentStage : bool) (text : list Z) :
  (forall i : nat,
      (i < length text)%nat ->
      (i <= snd (ParseLine_body commentStage text i) <= length text)%nat) /\
  (forall (fuel : nat) (lineData : list Z),
      (length text <= fuel)%nat ->
      ParseLine_loop fuel commentStage text 0 lineData
      = ParseLine_loop (length text) commentStage text 0 lineData).
Proof.
  split.
  - intros i Hi. apply ParseLine_body_bounds. exact Hi.
  - intros fuel lineData Hf. apply ParseLine_loop_fuel; lia.
Qed.

End TokenizerLoop.

(** ** What the tokenizer copies unchanged *)

Section Verbatim.
Import txt2bas.

(** *** String literals *)

Lemma find_index_none (p : Z -> bool) (s : list Z) :
  Forall (fun x => p x = false) s -> find_index p s = None.
Proof.
  induction 1 as [|x s Hx _ IH]; [reflexivity|]. cbn [find_index]. rewrite Hx, IH. reflexivity.
Qed.

Lemma body_closed_string (cs : bool) (pre s rest : list Z) :
  Forall (fun c => c <> 34) s ->
  ParseLine_body cs (pre ++ 34 :: s ++ 34 :: rest) (length pre)
  = (34 :: s ++ [34], (length pre + length s + 1)%nat).
Proof.
  intros Hs. unfold ParseLine_body. rewrite nth_app_here. cbn [Z.eqb Pos.eqb].
  unfold find_char.
  replace (drop (length pre + 1) (pre ++ 34 :: s ++ 34 :: rest)) with (s ++ 34 :: rest).
  2:{ rewrite <- drop_drop, drop_app_length. reflexivity. }
  rewrite find_index_run.
  - cbn [option_map]. unfold substr. rewrite drop_app_length.
    replace (length pre + 1 + length s - length pre + 1)%nat with (S (S (length s))) by lia.
    cbn [take]. f_equal; [|lia]. f_equal.
    replace (s ++ 34 :: rest) with ((s ++ [34]) ++ rest) by (rewrite <- app_assoc; reflexivity).
    rewrite take_app_length'; [reflexivity|]. rewrite length_app. cbn. lia.
  - eapply Forall_impl; [exact Hs|]. intros c Hc. apply Z.eqb_neq. congruence.
  - reflexivity.
Qed.

Lemma body_open_string (cs : bool) (pre s : list Z) :
  Forall (fun c => c <> 34) s ->
  ParseLine_body cs (pre ++ 34 :: s) (length pre) = (34 :: s, length (pre ++ 34 :: s)).
Proof.
  intros Hs. unfold ParseLine_body. rewrite nth_app_here. cbn [Z.eqb Pos.eqb].
  unfold find_char.
  replace (drop (length pre + 1) (pre ++ 34 :: s)) with s.
  2:{ rewrite <- drop_drop, drop_app_length. reflexivity. }
  rewrite find_index_none.
  - cbn [option_map]. unfold substr_from. rewrite drop_app_length. reflexivity.
  - eapply Forall_impl; [exact Hs|]. intros c Hc. apply Z.eqb_neq. congruence.
Qed.

(** X16.  A string literal is copied byte for byte, whatever it holds
    (keywords, digits, semicolons, bytes above 127), in both copies of the
    tokenizer: at an opening quote one turn of the loop copies the text
    through the closing quote and the scan goes on behind it; without a
    closing quote the rest of the line is copied and the scan ends. *)
Theorem string_literal_verbatim (commentStage : bool) (pre s rest lineData : list Z)
    (fuel : nat) :
  Forall (fun c => c <> 34) s ->
  ParseLine_loop (S fuel) commentStage (pre ++ 34 :: s ++ 34 :: rest) (length pre) lineData
  = ParseLine_loop fuel commentStage (pre ++ 34 :: s ++ 34 :: rest)
      (length pre + length s + 2) (lineData ++ 34 :: s ++ [34]) /\
  ParseLine_loop (S fuel) commentStage (pre ++ 34 :: s) (length pre) lineData
  = lineData ++ 34 :: s.
Proof.
  intros Hs. split.
  - assert (Hlt : Nat.lt (length pre) (length (pre ++ 34 :: s ++ 34 :: rest)))
      by (rewrite length_app; cbn [length]; lia).
    rewrite (ParseLine_loop_step fuel commentStage _ _ _ lineData _ Hlt
               (body_closed_string commentStage pre s rest Hs)).
    replace (S (length pre + length s + 1)) with (length pre + length s + 2)%nat by lia.
    reflexivity.
  - assert (Hlt : Nat.lt (length pre) (length (pre ++ 34 :: s)))
      by (rewrite length_app; cbn [length]; lia).
    rewrite (ParseLine_loop_step fuel commentStage _ _ _ lineData _ Hlt
               (body_open_string commentStage pre s Hs)).
    apply ParseLine_loop_end. lia.
Qed.

Lemma string_literal_verbatim_witness :
  ParseLine_loop 20 true (bytes "PRINT " ++ 34 :: bytes "GO TO 10; REM" ++ 34 :: bytes ";A")
    (length (bytes "PRINT ")) [0xF5]
  = ParseLine_loop 19 true (bytes "PRINT " ++ 34 :: bytes "GO TO 10; REM" ++ 34 :: bytes ";A")
      (length (bytes "PRINT ") + length (bytes "GO TO 10; REM") + 2)
      ([0xF5] ++ 34 :: bytes "GO TO 10; REM" ++ [34]) /\
  ParseLine_loop 20 true (bytes "PRINT " ++ 34 :: bytes "GO TO 10; REM")
    (length (bytes "PRINT ")) [0xF5]
  = [0xF5] ++ 34 :: bytes "GO TO 10; REM".
Proof.
  apply (string_literal_verbatim true (bytes "PRINT ") (bytes "GO TO 10; REM")
           (bytes ";A") [0xF5] 19).
  match goal with
  | |- Forall ?P ?l => let l' := eval vm_compute in l in change (Forall P l')
  end.
  repeat (constructor; [lia|]). constructor.
Defined.


(** *** Remarks *)

Lemma toupper_not_alnum (c : Z) : isalnum c = false -> toupper c = c.
Proof.
  unfold isalnum, isalpha, toupper. destruct (islower c); [|reflexivity].
  rewrite orb_true_r. discriminate.
Qed.

Lemma isalnum_toupper (c : Z) : isalnum c = true -> isalnum (toupper c) = true.
Proof.
  unfold toupper. destruct (islower c) eqn:Hl; [|tauto]. intros _.
  unfold islower in Hl. unfold isalnum, isalpha, isupper.
  apply andb_true_iff in Hl as [H1 H2]. apply Z.leb_le in H1. apply Z.leb_le in H2.
  replace (65 <=? c - 32) with true by (symmetry; apply Z.leb_le; lia).
  replace (c - 32 <=? 90) with true by (symmetry; apply Z.leb_le; lia).
  reflexivity.
Qed.

Lemma toupper_upper (c u : Z) :
  toupper c = u -> isupper u = true -> isalpha c = true /\ (c = u \/ c = u + 32).
Proof.
  unfold toupper, isalpha. destruct (islower c) eqn:Hl.
  - intros <- _. rewrite orb_true_r. split; [reflexivity | right; lia].
  - intros -> ->. split; [reflexivity | left; reflexivity].
Qed.

(** The three letters of [REM], in either case. *)
Lemma REM_letters (kw : list Z) :
  map toupper kw = bytes "REM" ->
  exists r e m, kw = [r; e; m] /\ (r = 82 \/ r = 114) /\ isalpha r = true.
Proof.
  change (bytes "REM") with [82; 69; 77].
  destruct kw as [|r [|e [|m [|x kw]]]]; try discriminate.
  intros [= Hr He Hm]. exists r, e, m. split; [reflexivity|].
  destruct (toupper_upper r 82 Hr eq_refl) as [Ha Hc]. split; [lia | exact Ha].
Qed.

Lemma key_hit_REM (pre kw rest : list Z) :
  map toupper kw = bytes "REM" ->
  (pre = [] \/ exists pre' c, pre = pre' ++ [c] /\ isalpha c = false) ->
  match rest with [] => True | c :: _ => isalnum c = false end ->
  key_hit (pre ++ kw ++ rest) (length pre) (bytes "REM") = true.
Proof.
  intros Hkw Hpre Hrest. destruct (REM_letters kw Hkw) as (r & e & m & -> & _ & _).
  unfold key_hit. change (length (bytes "REM")) with 3%nat.
  rewrite !length_app. cbn [length].
  replace (length pre + (3 + length rest) <? length pre + 3)%nat with false
    by (symmetry; apply Nat.ltb_ge; lia).
  unfold substr. rewrite drop_app_length. cbn [app take negb andb]. rewrite take_0.
  rewrite (proj2 (CaseInsensitiveEquals_map [r; e; m] (bytes "REM")) Hkw). cbn [andb].
  change (isalpha (nth 0 (bytes "REM") 0)) with true. cbn [andb].
  apply negb_true_iff. apply orb_false_iff. split.
  - apply negb_false_iff. destruct Hpre as [->|(pre' & c & -> & Hc)]; [reflexivity|].
    rewrite length_app. cbn [length].
    replace (length pre' + 1 =? 0)%nat with false by (symmetry; apply Nat.eqb_neq; lia).
    replace (length pre' + 1 - 1)%nat with (length pre') by lia.
    rewrite <- !app_assoc. cbn [app]. rewrite nth_app_here. rewrite Hc. reflexivity.
  - apply negb_false_iff. destruct rest as [|c rest].
    + cbn [length]. replace (length pre + (3 + 0) <=? length pre + 3)%nat with true
        by (symmetry; apply Nat.leb_le; lia). reflexivity.
    + replace (pre ++ r :: e :: m :: c :: rest) with ((pre ++ [r; e; m]) ++ c :: rest)
        by (rewrite <- app_assoc; reflexivity).
      replace (length pre + 3)%nat with (length (pre ++ [r; e; m]))
        by (rewrite length_app; reflexivity).
      rewrite nth_app_here, Hrest. apply orb_true_r.
Qed.

Lemma match_keys_REM (pre kw rest : list Z) :
  map toupper kw = bytes "REM" ->
  (pre = [] \/ exists pre' c, pre = pre' ++ [c] /\ isalpha c = false) ->
  match rest with [] => True | c :: _ => isalnum c = false end ->
  match_keys _sortedKeys (pre ++ kw ++ rest) (length pre) = Some (bytes "REM").
Proof.
  intros Hkw Hpre Hrest. pose proof (key_hit_REM pre kw rest Hkw Hpre Hrest) as Hhit.
  assert (Hs0 : longest_first _sortedKeys = true) by (vm_compute; reflexivity).
  assert (HinR : In (bytes "REM") _sortedKeys).
  { assert (H : bool_decide (In (bytes "REM") _sortedKeys) = true) by (vm_compute; reflexivity).
    apply bool_decide_eq_true_1 in H. exact H. }
  rewrite match_keys_find.
  destruct (List.find (key_hit (pre ++ kw ++ rest) (length pre)) _sortedKeys) as [k0|] eqn:Hf.
  2:{ pose proof (List.find_none _ _ Hf _ HinR) as Hn. congruence. }
  destruct (find_longest _ _ _ Hs0 Hf) as (Hin0 & Hk0 & Hmax).
  specialize (Hmax _ HinR Hhit). change (length (bytes "REM")) with 3%nat in Hmax.
  destruct (Nat.eq_dec (length k0) 3%nat) as [H3|H3].
  { f_equal. apply (one_hit_per_length (pre ++ kw ++ rest) (length pre)); assumption. }
  exfalso.
  destruct (REM_letters kw Hkw) as (r & e & m & -> & _ & _).
  unfold key_hit in Hk0. apply andb_true_iff in Hk0 as [Hk0 _].
  apply andb_true_iff in Hk0 as [Hfit Hci]. apply negb_true_iff in Hfit.
  apply Nat.ltb_ge in Hfit. rewrite !length_app in Hfit. cbn [length] in Hfit.
  apply CaseInsensitiveEquals_map in Hci. unfold substr in Hci.
  rewrite drop_app_length in Hci.
  destruct k0 as [|k1 [|k2 [|k3 [|k4 k0]]]]; cbn [length] in Hmax, H3; try lia.
  destruct rest as [|c rest]; [cbn [length] in Hfit; lia|].
  cbn [app length take map] in Hci. injection Hci as H1 H2 H3' H4 _.
  assert (HF : forallb (fun k => implb ((3 <? length k)%nat
                                        && bool_decide (map toupper (take 3 k) = bytes "REM"))
                                       (isalnum (nth 3 k 0))) _sortedKeys = true)
    by (vm_compute; reflexivity).
  rewrite forallb_forall in HF. specialize (HF _ Hin0).
  change (bytes "REM") with [82; 69; 77] in Hkw, HF. cbn [map] in Hkw.
  injection Hkw as Hr He Hm.
  cbn [length take map nth] in HF.
  rewrite bool_decide_eq_true_2 in HF by congruence.
  cbn [Nat.ltb Nat.leb andb implb] in HF.
  apply isalnum_toupper in HF. rewrite <- H4, (toupper_not_alnum c Hrest) in HF. congruence.
Qed.

Lemma loop_REM (cs : bool) (pre kw rest acc : list Z) (fuel : nat) :
  map toupper kw = bytes "REM" ->
  (pre = [] \/ exists pre' c, pre = pre' ++ [c] /\ isalpha c = false) ->
  match rest with [] => True | c :: _ => isalnum c = false end ->
  ParseLine_loop (S fuel) cs (pre ++ kw ++ rest) (length pre) acc = acc ++ [0xEA] ++ rest.
Proof.
  intros Hkw Hpre Hrest.
  pose proof (match_keys_REM pre kw rest Hkw Hpre Hrest) as Hm.
  destruct (REM_letters kw Hkw) as (r & e & m & -> & Hr & _).
  set (text := pre ++ [r; e; m] ++ rest) in *.
  assert (Hlen : length text = (length pre + 3 + length rest)%nat)
    by (subst text; rewrite !length_app; cbn [length]; lia).
  assert (Hbody : ParseLine_body cs text (length pre)
                  = ([0xEA] ++ rest, (length pre + 3 + length rest - 1)%nat)).
  { unfold ParseLine_body. rewrite Hm.
    replace (nth (length pre) text 0) with r by (subst text; symmetry; apply nth_app_here).
    assert (Hc : (r =? 34) = false /\ isdigit r = false /\ (r =? 46) = false
                 /\ (r =? 59) = false)
      by (destruct Hr as [-> | ->]; repeat split; reflexivity).
    destruct Hc as (-> & -> & -> & ->). cbn [orb andb]. rewrite andb_false_r. cbn [andb].
    change (Map_at (bytes "REM")) with 0xEA. change (length (bytes "REM")) with 3%nat.
    cbn [Z.eqb Pos.eqb]. rewrite Hlen.
    destruct rest as [|c rest].
    - cbn [length]. replace (length pre + 3 <? length pre + 3 + 0)%nat with false
        by (symmetry; apply Nat.ltb_ge; lia).
      f_equal. lia.
    - replace (length pre + 3 <? length pre + 3 + length (c :: rest))%nat with true
        by (symmetry; apply Nat.ltb_lt; cbn [length]; lia).
      f_equal. f_equal. unfold substr_from. subst text.
      replace (pre ++ [r; e; m] ++ c :: rest) with ((pre ++ [r; e; m]) ++ c :: rest)
        by (rewrite <- app_assoc; reflexivity).
      replace (length pre + 3)%nat with (length (pre ++ [r; e; m]))
        by (rewrite length_app; reflexivity).
      apply drop_app_length. }
  assert (Hlt : Nat.lt (length pre) (length text)) by (rewrite Hlen; unfold Nat.lt; lia).
  rewrite (ParseLine_loop_step fuel cs text _ _ acc _ Hlt Hbody).
  apply ParseLine_loop_end. lia.
Qed.

(** X17.  [REM], in either case and between word boundaries, makes the
    rest of the line a comment that is copied byte for byte, quotes,
    digits and keywords included, in both copies of the tokenizer; and a
    remark of printable characters behind [REM] and a space is decoded to
    the text it was written as. *)
Theorem REM_comment_round_trip (commentStage : bool) (kw rest : list Z) :
  map toupper kw = bytes "REM" ->
  match rest with [] => True | c :: _ => isalnum c = false end ->
  (forall (pre lineData : list Z) (fuel : nat),
      (pre = [] \/ exists pre' c, pre = pre' ++ [c] /\ isalpha c = false) ->
      ParseLine_loop (S fuel) commentStage (pre ++ kw ++ rest) (length pre) lineData
      = lineData ++ [0xEA] ++ rest) /\
  ParseLine_data commentStage (kw ++ rest) = [0xEA] ++ rest ++ [0x0D] /\
  (forall comment,
      rest = 32 :: comment -> Forall (fun c => printable c = true) comment ->
      bas2txt.DecodeLineData ([0xEA] ++ rest) 0 (Z.of_nat (length ([0xEA] ++ rest)))
      = bytes "REM" ++ rest).
Proof.
  intros Hkw Hrest. split; [|split].
  - intros pre lineData fuel Hpre. apply loop_REM; assumption.
  - unfold ParseLine_data.
    destruct (REM_letters kw Hkw) as (r & e & m & Hk & _).
    assert (Hl : length (kw ++ rest) = S (2 + length rest))
      by (rewrite Hk, length_app; reflexivity).
    rewrite Hl.
    pose proof (loop_REM commentStage [] kw rest [] (2 + length rest) Hkw
                  (or_introl eq_refl) Hrest) as H.
    cbn [app length] in H. rewrite H. reflexivity.
  - intros comment -> Hc. rewrite DecodeLineData_whole.
    cbn [app]. change (decode_list 0 (234 :: 32 :: comment))
      with (bytes "REM" ++ decode_list 0 (32 :: comment)).
    assert (Hd : decode_list 0 (32 :: comment) = 32 :: comment).
    { assert (Hp : Forall (fun c => printable c = true) (32 :: comment))
        by (constructor; [reflexivity | exact Hc]).
      pose proof (decode_plain_run (32 :: comment) [] Hp) as H.
      change (decode_list 0 []) with (@nil Z) in H. rewrite !app_nil_r in H. exact H. }
    rewrite Hd. reflexivity.
Qed.

Lemma REM_comment_round_trip_witness :
  ParseLine_data true (bytes "rem" ++ 32 :: bytes "GO TO 10; x")
  = [0xEA] ++ (32 :: bytes "GO TO 10; x") ++ [0x0D] /\
  bas2txt.DecodeLineData ([0xEA] ++ 32 :: bytes "GO TO 10; x") 0
    (Z.of_nat (length ([0xEA] ++ 32 :: bytes "GO TO 10; x")))
  = bytes "REM" ++ 32 :: bytes "GO TO 10; x".
Proof.
  destruct (REM_comment_round_trip true (bytes "rem") (32 :: bytes "GO TO 10; x"))
    as (_ & H1 & H2); [reflexivity | reflexivity |].
  split; [exact H1|]. apply (H2 (bytes "GO TO 10; x")); [reflexivity|].
  match goal with
  | |- Forall ?P ?l => let l' := eval vm_compute in l in change (Forall P l')
  end.
  repeat (constructor; [reflexivity|]). constructor.
Defined.
End Verbatim.

(** ** Words that are no keywords *)

Section Words.
Import txt2bas.

Lemma isalpha_alnum (c : Z) : isalpha c = true -> isalnum c = true.
Proof. unfold isalnum. intros ->. reflexivity. Qed.

Lemma isalpha_toupper (c : Z) : isalpha c = true -> isupper (toupper c) = true.
Proof.
  unfold isalpha, toupper. destruct (islower c) eqn:Hl.
  - intros _. unfold islower in Hl. unfold isupper.
    apply andb_true_iff in Hl as [H1 H2]. apply Z.leb_le in H1. apply Z.leb_le in H2.
    apply andb_true_iff. split; apply Z.leb_le; lia.
  - rewrite orb_false_r. tauto.
Qed.

Lemma isalpha_chars (c : Z) :
  isalpha c = true ->
  (c =? 34) = false /\ isdigit c = false /\ (c =? 46) = false /\ (c =? 59) = false /\
  u8 c = c.
Proof.
  unfold isalpha, isupper, islower, isdigit. intros H.
  assert (Hc : 65 <= c <= 122).
  { apply orb_true_iff in H as [H|H]; apply andb_true_iff in H as [H1 H2];
      apply Z.leb_le in H1; apply Z.leb_le in H2; lia. }
  repeat split.
  - apply Z.eqb_neq. lia.
  - apply andb_false_iff. right. apply Z.leb_gt. lia.
  - apply Z.eqb_neq. lia.
  - apply Z.eqb_neq. lia.
  - apply u8_small. lia.
Qed.

(** Inside a word of letters that is the start of no key, no key is taken. *)
Lemma match_keys_in_word (pre w1 : list Z) (c : Z) (w2 rest : list Z) :
  Forall (fun c => isalpha c = true) (w1 ++ c :: w2) ->
  forallb (fun k => negb (CaseInsensitiveEquals (w1 ++ c :: w2)
                            (take (length (w1 ++ c :: w2)) k))) _sortedKeys = true ->
  match_keys _sortedKeys (pre ++ (w1 ++ c :: w2) ++ rest) (length pre + length w1) = None.
Proof.
  intros Hw Hno. rewrite match_keys_find.
  set (text := pre ++ (w1 ++ c :: w2) ++ rest).
  set (i := (length pre + length w1)%nat).
  destruct (List.find (key_hit text i) _sortedKeys) as [k|] eqn:Hf; [exfalso|reflexivity].
  apply List.find_some in Hf as [Hin Hk].
  rewrite forallb_forall in Hno. specialize (Hno k Hin). apply negb_true_iff in Hno.
  pose proof (keys_not_empty k Hin) as Hne.
  destruct k as [|k0 k]; [cbn in Hne; lia|]. clear Hne.
  assert (Htext : text = (pre ++ w1) ++ c :: w2 ++ rest)
    by (subst text; rewrite <- !app_assoc; reflexivity).
  assert (Hi : i = length (pre ++ w1)) by (subst i; rewrite length_app; reflexivity).
  assert (Hdrop : drop i text = c :: w2 ++ rest)
    by (rewrite Htext, Hi; apply drop_app_length).
  unfold key_hit in Hk. apply andb_true_iff in Hk as [Hk Hb].
  apply andb_true_iff in Hk as [Hfit Hci]. apply negb_true_iff in Hfit.
  apply Nat.ltb_ge in Hfit.
  apply CaseInsensitiveEquals_map in Hci. unfold substr in Hci. rewrite Hdrop in Hci.
  pose proof Hci as Hhead. cbn [length take map] in Hhead. injection Hhead as Hc0 _.
  assert (Hc : isalpha c = true).
  { rewrite Forall_app in Hw. destruct Hw as [_ Hw]. inversion Hw. assumption. }
  assert (Hk0 : isalpha k0 = true).
  { pose proof (isalpha_toupper c Hc) as Hu. rewrite Hc0 in Hu.
    destruct (toupper_upper k0 (toupper k0) eq_refl Hu) as [Ha _]. exact Ha. }
  cbn [nth] in Hb. rewrite Hk0 in Hb. cbn [andb] in Hb.
  apply negb_true_iff in Hb. apply orb_false_iff in Hb as [Hprev Hnext].
  apply negb_false_iff in Hprev. apply negb_false_iff in Hnext.
  destruct w1 as [|x w1 _] using rev_ind.
  - (* the key starts where the word starts *)
    cbn [app] in *.
    destruct (Nat.le_gt_cases (length (c :: w2)) (length (k0 :: k))) as [Hlong|Hshort].
    + (* the word is the start of the key *)
      assert (Hpre : CaseInsensitiveEquals (c :: w2) (take (length (c :: w2)) (k0 :: k)) = true).
      { apply CaseInsensitiveEquals_map.
        apply (f_equal (take (length (c :: w2)))) in Hci.
        rewrite !firstn_map, take_take in Hci.
        replace (length (c :: w2) `min` length (k0 :: k))%nat with (length (c :: w2))
          in Hci by lia.
        replace (c :: w2 ++ rest) with ((c :: w2) ++ rest) in Hci by reflexivity.
        rewrite take_app_length in Hci. exact Hci. }
      congruence.
    + (* the key ends inside the word *)
      apply orb_true_iff in Hnext as [Hend|Hnext].
      * apply Nat.leb_le in Hend. subst text i. rewrite !length_app in Hend.
        cbn [length] in *. rewrite !length_app in Hend. lia.
      * apply negb_true_iff in Hnext.
        assert (Ha : isalpha (nth (i + length (k0 :: k)) text 0) = true).
        { rewrite Htext, Hi, app_nil_r.
          rewrite (app_nth2_plus pre (c :: w2 ++ rest)).
          replace (c :: w2 ++ rest) with ((c :: w2) ++ rest) by reflexivity.
          rewrite app_nth1 by exact Hshort.
          rewrite Forall_forall in Hw. apply Hw. apply list_elem_of_In.
          apply nth_In. exact Hshort. }
        apply isalpha_alnum in Ha. congruence.
  - (* a letter stands in front of the position *)
    apply orb_true_iff in Hprev as [Hz|Hprev].
    + apply Nat.eqb_eq in Hz. subst i. rewrite length_app in Hz. cbn [length] in Hz. lia.
    + apply negb_true_iff in Hprev.
      assert (Ha : isalpha (nth (i - 1) text 0) = true).
      { assert (Ht : text = (pre ++ w1) ++ x :: c :: w2 ++ rest)
          by (subst text; rewrite <- !app_assoc; reflexivity).
        replace (i - 1)%nat with (length (pre ++ w1))
          by (subst i; rewrite !length_app; cbn [length]; lia).
        rewrite Ht, nth_app_here.
        rewrite !Forall_app in Hw. destruct Hw as [[_ Hx] _]. inversion Hx. assumption. }
      congruence.
Qed.


Lemma body_letter (cs : bool) (pre w1 : list Z) (c : Z) (w2 rest : list Z) :
  Forall (fun c => isalpha c = true) (w1 ++ c :: w2) ->
  forallb (fun k => negb (CaseInsensitiveEquals (w1 ++ c :: w2)
                            (take (length (w1 ++ c :: w2)) k))) _sortedKeys = true ->
  ParseLine_body cs (pre ++ (w1 ++ c :: w2) ++ rest) (length pre + length w1)
  = ([c], (length pre + length w1)%nat).
Proof.
  intros Hw Hno. unfold ParseLine_body.
  rewrite (match_keys_in_word pre w1 c w2 rest Hw Hno).
  assert (Hn : nth (length pre + length w1) (pre ++ (w1 ++ c :: w2) ++ rest) 0 = c).
  { replace (pre ++ (w1 ++ c :: w2) ++ rest) with ((pre ++ w1) ++ c :: w2 ++ rest)
      by (rewrite <- !app_assoc; reflexivity).
    rewrite <- length_app. apply nth_app_here. }
  rewrite Hn.
  assert (Hc : isalpha c = true).
  { rewrite Forall_app in Hw. destruct Hw as [_ Hw]. inversion Hw. assumption. }
  destruct (isalpha_chars c Hc) as (-> & -> & -> & -> & ->).
  cbn [orb andb]. rewrite andb_false_r. reflexivity.
Qed.

Lemma loop_word (cs : bool) (pre rest : list Z) (w2 : list Z) :
  forall (w1 acc : list Z) (fuel : nat),
    Forall (fun c => isalpha c = true) (w1 ++ w2) ->
    forallb (fun k => negb (CaseInsensitiveEquals (w1 ++ w2)
                              (take (length (w1 ++ w2)) k))) _sortedKeys = true ->
    (length w2 <= fuel)%nat ->
    ParseLine_loop fuel cs (pre ++ (w1 ++ w2) ++ rest) (length pre + length w1) acc
    = ParseLine_loop (fuel - length w2) cs (pre ++ (w1 ++ w2) ++ rest)
        (length pre + length w1 + length w2) (acc ++ w2).
Proof.
  induction w2 as [|c w2 IH]; intros w1 acc fuel Hw Hno Hf.
  - cbn [length]. rewrite Nat.sub_0_r, Nat.add_0_r, !app_nil_r. reflexivity.
  - destruct fuel as [|fuel]; [cbn [length] in Hf; lia|].
    assert (Hlt : Nat.lt (length pre + length w1)
                         (length (pre ++ (w1 ++ c :: w2) ++ rest))).
    { rewrite !length_app. cbn [length]. unfold Nat.lt. lia. }
    rewrite (ParseLine_loop_step fuel cs _ _ _ acc _ Hlt
               (body_letter cs pre w1 c w2 rest Hw Hno)).
    replace (w1 ++ c :: w2) with ((w1 ++ [c]) ++ w2) in *
      by (rewrite <- app_assoc; reflexivity).
    replace (S (length pre + length w1)) with (length pre + length (w1 ++ [c]))%nat
      by (rewrite length_app; cbn [length]; lia).
    rewrite (IH (w1 ++ [c]) (acc ++ [c]) fuel Hw Hno) by (cbn [length] in Hf; lia).
    cbn [length]. f_equal.
    + rewrite length_app. cbn [length]. lia.
    + rewrite <- app_assoc. reflexivity.
Qed.

(** X18.  A word of letters that is the beginning of no key (the word
    itself is no key either) is copied letter by letter wherever it stands
    in the line: a keyword inside it or at its end is not tokenized. *)
Theorem word_verbatim (commentStage : bool) (pre w rest lineData : list Z) (fuel : nat) :
  Forall (fun c => isalpha c = true) w ->
  forallb (fun k => negb (CaseInsensitiveEquals w (take (length w) k))) _sortedKeys = true ->
  (length w <= fuel)%nat ->
  ParseLine_loop fuel commentStage (pre ++ w ++ rest) (length pre) lineData
  = ParseLine_loop (fuel - length w) commentStage (pre ++ w ++ rest)
      (length pre + length w) (lineData ++ w).
Proof.
  intros Hw Hno Hf.
  pose proof (loop_word commentStage pre rest w [] lineData fuel Hw Hno Hf) as H.
  cbn [app length] in H. rewrite Nat.add_0_r in H. exact H.
Qed.

Lemma word_verbatim_witness :
  ParseLine_loop 11 false (bytes "LET " ++ bytes "sprinter" ++ bytes "=1")
    (length (bytes "LET ")) [0xF1]
  = ParseLine_loop (11 - length (bytes "sprinter")) false
      (bytes "LET " ++ bytes "sprinter" ++ bytes "=1")
      (length (bytes "LET ") + length (bytes "sprinter")) ([0xF1] ++ bytes "sprinter").
Proof.
  apply (word_verbatim false (bytes "LET ") (bytes "sprinter") (bytes "=1") [0xF1] 11).
  - match goal with
    | |- Forall ?P ?l => let l' := eval vm_compute in l in change (Forall P l')
    end.
    repeat (constructor; [reflexivity|]). constructor.
  - vm_compute. reflexivity.
  - vm_compute. lia.
Defined.

End Words.

(** ** Number literals *)

Section NumberLiterals.
Import txt2bas.

Lemma body_literal (cs : bool) (pre numStr rest : list Z) (v : spec_float) :
  match numStr with
  | d :: ds => isdigit d = true \/
               (d = 46 /\ match ds with e :: _ => isdigit e = true | [] => False end)
  | [] => False
  end ->
  Forall (fun c => isdigit c || (c =? 46) = true) numStr ->
  match rest with [] => True | c :: _ => isdigit c || (c =? 46) = false end ->
  stod numStr = Some v ->
  ParseLine_body cs (pre ++ numStr ++ rest) (length pre)
  = (numStr ++ [0x0E] ++ Pack v, (length pre + length numStr - 1)%nat).
Proof.
  intros Hstart Hall Hrest Hv. destruct numStr as [|d ds]; [contradiction|].
  assert (Hq : (d =? 34) = false).
  { destruct Hstart as [Hd|[-> _]]; [|reflexivity].
    apply isdigit_bounds in Hd. apply Z.eqb_neq. lia. }
  assert (Hcond : isdigit d
                  || ((d =? 46) && Nat.ltb (length pre + 1)%nat (length (pre ++ (d :: ds) ++ rest))
                      && isdigit (nth (length pre + 1) (pre ++ (d :: ds) ++ rest) 0)) = true).
  { destruct Hstart as [Hd|[-> He]]; [rewrite Hd; reflexivity|].
    destruct ds as [|e ds]; [contradiction|].
    replace (Nat.ltb (length pre + 1)%nat (length (pre ++ (46 :: e :: ds) ++ rest))) with true
      by (symmetry; apply Nat.ltb_lt; rewrite !length_app; cbn [length]; lia).
    replace (length pre + 1)%nat with (S (length pre)) by lia.
    cbn [app]. rewrite nth_app_next, He. apply orb_true_r. }
  unfold ParseLine_body. cbn [app] in Hcond |- *. rewrite nth_app_here, Hq, Hcond.
  rewrite drop_app_length.
  change (d :: ds ++ rest) with ((d :: ds) ++ rest).
  rewrite span_run.
  - cbn [fst]. rewrite Hv. reflexivity.
  - exact Hall.
  - destruct rest as [|c rest]; [exact I | exact Hrest].
Qed.

(** X19.  A number literal (digits and periods, starting with a digit or
    with a period and a digit) that [std::stod] accepts is kept as it was
    typed, whatever its value: the tokenizer writes the text of the
    literal, the marker 0x0E and the five packed bytes, and goes on behind
    the literal; the decoder writes the text of the literal and skips the
    marker and the packed bytes. *)
Theorem number_literal_kept (commentStage : bool) (pre numStr rest lineData : list Z)
    (v : spec_float) (fuel : nat) :
  match numStr with
  | d :: ds => isdigit d = true \/
               (d = 46 /\ match ds with e :: _ => isdigit e = true | [] => False end)
  | [] => False
  end ->
  Forall (fun c => isdigit c || (c =? 46) = true) numStr ->
  match rest with [] => True | c :: _ => isdigit c || (c =? 46) = false end ->
  stod numStr = Some v ->
  ParseLine_loop (S fuel) commentStage (pre ++ numStr ++ rest) (length pre) lineData
  = ParseLine_loop fuel commentStage (pre ++ numStr ++ rest) (length pre + length numStr)
      (lineData ++ numStr ++ [0x0E] ++ Pack v) /\
  forall payload,
    bas2txt.DecodeLineData ((numStr ++ [0x0E] ++ Pack v) ++ payload) 0
      (Z.of_nat (length ((numStr ++ [0x0E] ++ Pack v) ++ payload)))
    = numStr ++ bas2txt.DecodeLineData payload 0 (Z.of_nat (length payload)).
Proof.
  intros Hstart Hall Hrest Hv. split.
  - assert (Hlt : Nat.lt (length pre) (length (pre ++ numStr ++ rest))).
    { destruct numStr; [contradiction|]. rewrite !length_app. cbn [length].
      unfold Nat.lt. lia. }
    rewrite (ParseLine_loop_step fuel commentStage _ _ _ lineData _ Hlt
               (body_literal commentStage pre numStr rest v Hstart Hall Hrest Hv)).
    f_equal. destruct numStr; [contradiction|]. cbn [length]. lia.
  - intros payload. rewrite !DecodeLineData_whole, <- !app_assoc.
    rewrite decode_plain_run.
    + cbn [app]. rewrite decode_hidden by apply Pack_length. reflexivity.
    + eapply Forall_impl; [exact Hall|]. intros c Hc. cbn beta in Hc.
      apply orb_true_iff in Hc as [Hc|Hc]; [apply digit_printable; exact Hc|].
      apply Z.eqb_eq in Hc. subst c. reflexivity.
Qed.

Lemma number_literal_kept_witness :
  ParseLine_loop 10 false (bytes "LET a=" ++ bytes "3.14" ++ bytes "*r") (length (bytes "LET a="))
    [0xF1; 97; 61]
  = ParseLine_loop 9 false (bytes "LET a=" ++ bytes "3.14" ++ bytes "*r")
      (length (bytes "LET a=") + length (bytes "3.14"))
      ([0xF1; 97; 61] ++ bytes "3.14" ++ [0x0E] ++ Pack (S754_finite false 7070651414971679 (-51))) /\
  bas2txt.DecodeLineData
    ((bytes "3.14" ++ [0x0E] ++ Pack (S754_finite false 7070651414971679 (-51))) ++ [42; 114]) 0
    (Z.of_nat (length ((bytes "3.14" ++ [0x0E]
                        ++ Pack (S754_finite false 7070651414971679 (-51))) ++ [42; 114])))
  = bytes "3.14" ++ bas2txt.DecodeLineData [42; 114] 0 (Z.of_nat (length [42; 114])).
Proof.
  destruct (number_literal_kept false (bytes "LET a=") (bytes "3.14") (bytes "*r")
              [0xF1; 97; 61] (S754_finite false 7070651414971679 (-51)) 9) as [H1 H2].
  - left. reflexivity.
  - match goal with
    | |- Forall ?P ?l => let l' := eval vm_compute in l in change (Forall P l')
    end.
    repeat (constructor; [reflexivity|]). constructor.
  - reflexivity.
  - vm_compute. reflexivity.
  - split; [exact H1 | exact (H2 [42; 114])].
Defined.

(** What [std::stod] accepts of the literals below the normal range: the
    smallest subnormal double, 2 ^ -1074, written with its 1074 decimals,
    is tiny but exact, and accepted; 49 behind 323 zeros is tiny and
    inexact, and refused. *)
Lemma stod_subnormal_literals :
  stod ([48; 46] ++ replicate 323 48 ++ decimal_digits 800 (5 ^ 1074) [])
  = Some (S754_finite false 1 (-1074)) /\
  stod ([48; 46] ++ replicate 323 48 ++ bytes "49") = None.
Proof. split; vm_compute; reflexivity. Qed.

End NumberLiterals.

(** ** The size of a tokenized line *)

Section LineSize.
Import txt2bas.

(** X20.  A tokenized line has at most seven bytes for every character of
    the source line, and the end marker: the payload of a line of fewer
    than 9363 characters fits the 16 bit length field of its record. *)
Theorem ParseLine_data_size (commentStage : bool) (text : list Z) :
  (length (ParseLine_data commentStage text) <= 7 * length text + 1)%nat.
Proof.
  unfold ParseLine_data. rewrite length_app. cbn [length].
  pose proof (ParseLine_loop_size commentStage text (length text) 0 [] ltac:(lia)) as H.
  cbn [length] in H. lia.
Qed.

End LineSize.

(** ** Every encoded file is decoded record by record *)

Section FileDecodes.
Import txt2bas.

Lemma span_rest_length (p : Z -> bool) (s : list Z) :
  (length (snd (span p s)) <= length s)%nat.
Proof.
  induction s as [|c s IH]; [cbn; lia|]. cbn [span].
  destruct (p c); [|cbn; lia]. destruct (span p s) as [a b]. cbn in *. lia.
Qed.

Lemma trim_length (line : list Z) : (length (trim line) <= length line)%nat.
Proof.
  unfold trim. rewrite length_rev.
  pose proof (span_rest_length is_trim_char (rev (snd (span is_trim_char line)))) as H1.
  pose proof (span_rest_length is_trim_char line) as H2.
  rewrite length_rev in H1. lia.
Qed.

Lemma lineRegex_length (line m1 m2 : list Z) :
  lineRegex line = Some (m1, m2) -> (length m2 <= length line)%nat.
Proof.
  unfold lineRegex.
  pose proof (span_rest_length isdigit line) as H1.
  destruct (span isdigit line) as [ds r1]. cbn [snd] in H1.
  pose proof (span_rest_length isspace r1) as H2.
  destruct (span isspace r1) as [ws r2]. cbn [snd] in H2.
  destruct (_ && _); [|discriminate]. intros [= _ <-].
  pose proof (span_length (fun c => negb ((c =? 10) || (c =? 13))) r2). lia.
Qed.

(** The record [ParseLine] returns, as a line number and a payload. *)
Lemma ParseLine_gen_record (cs : bool) (lineNum : Z) (text : list Z) :
  ParseLine_gen cs lineNum text
  = record_bytes (lineNum, ParseLine_loop (length text) cs text 0 []).
Proof.
  unfold ParseLine_gen, ParseLine_data, record_bytes. cbn [fst snd].
  rewrite length_app. cbn [length].
  replace (Z.of_nat (length (ParseLine_loop (length text) cs text 0 []) + 1))
    with (Z.of_nat (length (ParseLine_loop (length text) cs text 0 [])) + 1) by lia.
  reflexivity.
Qed.

Lemma payload_size (cs : bool) (text : list Z) (N : nat) :
  (length text <= N)%nat ->
  (length (ParseLine_loop (length text) cs text 0 []) <= 7 * N)%nat.
Proof.
  intros H. pose proof (ParseLine_loop_size cs text (length text) 0 [] ltac:(lia)) as Hs.
  cbn [length] in Hs. lia.
Qed.

Lemma ConvertFile_line_records (cs : bool) (st st' : conv_state) (line : list Z) (N : nat) :
  (length line <= N)%nat ->
  ConvertFile_line cs st line = Some st' ->
  exists recs,
    output st' = output st ++ concat (map record_bytes recs) /\
    (length recs <= 1)%nat /\
    Forall (fun r => (length (snd r) <= 7 * N)%nat) recs.
Proof.
  intros HN. unfold ConvertFile_line. pose proof (trim_length line) as Ht.
  set (l := trim line) in *.
  assert (Hnone : exists recs,
             output st = output st ++ concat (map record_bytes recs) /\
             (length recs <= 1)%nat /\
             Forall (fun r => (length (snd r) <= 7 * N)%nat) recs).
  { exists []. cbn. rewrite app_nil_r. repeat split; [lia | constructor]. }
  destruct (length l =? 0)%nat; [intros [= <-]; exact Hnone|].
  destruct (nth 0 l 0 =? 35).
  { destruct (bool_decide _); [|intros [= <-]; exact Hnone].
    destruct (read_word l) as [dummy iss].
    destruct (extract_int iss); intros [= <-]; exact Hnone. }
  destruct (lineRegex l) as [[m1 m2]|] eqn:Hr.
  - apply lineRegex_length in Hr. destruct (stoi m1) as [lineNum|]; [|discriminate].
    intros [= <-]. cbn [output]. rewrite ParseLine_gen_record.
    eexists [_]. cbn [map concat]. rewrite app_nil_r.
    split; [reflexivity|]. split; [cbn; lia|].
    constructor; [|constructor]. cbn [snd]. apply payload_size. lia.
  - intros [= <-]. cbn [output]. rewrite ParseLine_gen_record.
    eexists [_]. cbn [map concat]. rewrite app_nil_r.
    split; [reflexivity|]. split; [cbn; lia|].
    constructor; [|constructor]. cbn [snd]. apply payload_size. lia.
Qed.

Lemma ConvertFile_lines_records (cs : bool) (N : nat) (lines : list (list Z)) :
  Forall (fun line => (length line <= N)%nat) lines ->
  forall st st',
    ConvertFile_lines cs st lines = Some st' ->
    exists recs,
      output st' = output st ++ concat (map record_bytes recs) /\
      (length recs <= length lines)%nat /\
      Forall (fun r => (length (snd r) <= 7 * N)%nat) recs.
Proof.
  induction 1 as [|line lines Hl _ IH]; intros st st'; cbn [ConvertFile_lines].
  - intros [= <-]. exists []. cbn. rewrite app_nil_r. repeat split; [lia | constructor].
  - destruct (ConvertFile_line cs st line) as [st1|] eqn:H1; [|discriminate].
    intros H2.
    destruct (ConvertFile_line_records cs st st1 line N Hl H1) as (r1 & E1 & L1 & F1).
    destruct (IH st1 st' H2) as (r2 & E2 & L2 & F2).
    exists (r1 ++ r2). rewrite E2, E1, map_app, concat_app, <- app_assoc.
    split; [reflexivity|]. split; [rewrite length_app; cbn [length]; lia|].
    apply Forall_app. split; assumption.
Qed.

(** X21.  Whatever the source lines hold, a file the encoder writes is
    decoded record by record: when no line has more than 9362 characters
    and the conversion succeeds, the data of the file are line records, at
    most one for a source line, and the decoder gives the line of the
    autostart directive, if any, and then one text line for every record,
    never losing step with the records. *)
Theorem encoded_file_decodes (lines : list (list Z)) (st : conv_state) :
  Forall (fun line => Z.of_nat (length line) <= 9362) lines ->
  ConvertFile lines = Some st ->
  exists recs,
    output st = concat (map record_bytes recs) /\
    (length recs <= length lines)%nat /\
    option_map bas2txt.Parse (encode lines)
    = Some (Some (autostart_line (AutoStartLine st) ++ concat (map record_text recs))).
Proof.
  intros Hl Hc.
  assert (Hl' : Forall (fun line => (length line <= Z.to_nat 9362)%nat) lines)
    by (eapply Forall_impl; [exact Hl|]; intros line H; cbn beta in H; lia).
  destruct (ConvertFile_lines_records false (Z.to_nat 9362) lines Hl' initial_state st Hc)
    as (recs & E & L & F).
  cbn [output initial_state app] in E.
  exists recs. split; [exact E|]. split; [exact L|].
  unfold encode. rewrite Hc. cbn [option_map]. rewrite E. f_equal.
  apply Parse_header_and_records.
  eapply Forall_impl; [exact F|]. intros r Hr. cbn beta in Hr. lia.
Qed.

Lemma encoded_file_decodes_witness :
  exists recs,
    output (mk_state [0; 10; 2; 0; 0xFB; 0x0D] 20 5) = concat (map record_bytes recs) /\
    (length recs <= length [bytes "#autostart 5"; bytes "CLS"])%nat /\
    option_map bas2txt.Parse (encode [bytes "#autostart 5"; bytes "CLS"])
    = Some (Some (autostart_line (AutoStartLine (mk_state [0; 10; 2; 0; 0xFB; 0x0D] 20 5))
                  ++ concat (map record_text recs))).
Proof.
  apply (encoded_file_decodes [bytes "#autostart 5"; bytes "CLS"]
           (mk_state [0; 10; 2; 0; 0xFB; 0x0D] 20 5)).
  - repeat (constructor; [cbn; lia|]). constructor.
  - vm_compute. reflexivity.
Defined.

End FileDecodes.

(** ** The lines of a source file *)

Section SourceLines.
Import txt2bas.

Lemma ConvertFile_lines_app (cs : bool) (l1 l2 : list (list Z)) :
  forall st,
    ConvertFile_lines cs st (l1 ++ l2)
    = match ConvertFile_lines cs st l1 with
      | Some st1 => ConvertFile_lines cs st1 l2
      | None => None
      end.
Proof.
  induction l1 as [|line l1 IH]; intros st; [reflexivity|].
  cbn [app ConvertFile_lines]. destruct (ConvertFile_line cs st line); [apply IH | reflexivity].
Qed.

Lemma span_rest_all (p : Z -> bool) (l : list Z) :
  Forall (fun c => p c = true) l -> snd (span p l) = [].
Proof.
  induction 1 as [|c l Hc _ IH]; [reflexivity|]. cbn [span]. rewrite Hc.
  destruct (span p l) as [a b]. exact IH.
Qed.

Lemma trim_blank (line : list Z) :
  Forall (fun c => is_trim_char c = true) line -> trim line = [].
Proof. intros H. unfold trim. rewrite (span_rest_all is_trim_char line H). reflexivity. Qed.

Lemma ignored_line (cs : bool) (st : conv_state) (line : list Z) :
  Forall (fun c => is_trim_char c = true) line \/
  (nth 0 (trim line) 0 = 35 /\ take 10 (map tolower (trim line)) <> bytes "#autostart") ->
  ConvertFile_line cs st line = Some st.
Proof.
  unfold ConvertFile_line. intros [H|[H1 H2]]; [rewrite (trim_blank line H); reflexivity|].
  destruct (length (trim line) =? 0)%nat; [reflexivity|].
  rewrite H1. cbn [Z.eqb Pos.eqb]. rewrite bool_decide_eq_false_2 by exact H2. reflexivity.
Qed.

(** X22.  A line that holds nothing but spaces, tabs, carriage returns and
    line feeds (the four characters the trimming step removes), and a line
    whose first character behind such characters is [#], other than an
    autostart directive, leave no trace: the conversion gives what it
    gives without the line, line numbers included. *)
Theorem ignored_lines (commentStage : bool) (st : conv_state) (l1 l2 : list (list Z))
    (line : list Z) :
  Forall (fun c => is_trim_char c = true) line \/
  (nth 0 (trim line) 0 = 35 /\ take 10 (map tolower (trim line)) <> bytes "#autostart") ->
  ConvertFile_lines commentStage st (l1 ++ line :: l2)
  = ConvertFile_lines commentStage st (l1 ++ l2) /\
  encode (l1 ++ line :: l2) = encode (l1 ++ l2).
Proof.
  intros H.
  assert (Hall : forall cs st0, ConvertFile_lines cs st0 (l1 ++ line :: l2)
                                = ConvertFile_lines cs st0 (l1 ++ l2)).
  { intros cs st0. rewrite !ConvertFile_lines_app.
    destruct (ConvertFile_lines cs st0 l1) as [st1|]; [|reflexivity].
    cbn [ConvertFile_lines]. rewrite (ignored_line cs st1 line H). reflexivity. }
  split; [apply Hall|]. unfold encode, ConvertFile. rewrite Hall. reflexivity.
Qed.

Lemma ignored_lines_witness :
  (ConvertFile_lines false initial_state
     ([bytes "10 CLS"] ++ [32; 9; 13] :: [bytes "PRINT 1"])
   = ConvertFile_lines false initial_state ([bytes "10 CLS"] ++ [bytes "PRINT 1"]) /\
   encode ([bytes "10 CLS"] ++ [32; 9; 13] :: [bytes "PRINT 1"])
   = encode ([bytes "10 CLS"] ++ [bytes "PRINT 1"])) /\
  (ConvertFile_lines false initial_state
     ([bytes "10 CLS"] ++ bytes "  # a remark" :: [bytes "PRINT 1"])
   = ConvertFile_lines false initial_state ([bytes "10 CLS"] ++ [bytes "PRINT 1"]) /\
   encode ([bytes "10 CLS"] ++ bytes "  # a remark" :: [bytes "PRINT 1"])
   = encode ([bytes "10 CLS"] ++ [bytes "PRINT 1"])).
Proof.
  split.
  - apply (ignored_lines false initial_state [bytes "10 CLS"] [bytes "PRINT 1"] [32; 9; 13]).
    left. repeat (constructor; [reflexivity|]). constructor.
  - apply (ignored_lines false initial_state [bytes "10 CLS"] [bytes "PRINT 1"]
             (bytes "  # a remark")).
    right. split; [reflexivity|]. vm_compute. discriminate.
Defined.

(** A vertical tab is white space for [isspace], but the trimming step
    leaves it: a line that holds one is tokenized, and takes a line
    number. *)
Lemma vertical_tab_line_is_tokenized :
  option_map output (ConvertFile [[11]]) = Some [0x00; 0x0A; 0x02; 0x00; 0x0B; 0x0D].
Proof. vm_compute. reflexivity. Qed.

(** *** Line numbers that are too large *)

Lemma span_digits_head (line ds rest : list Z) :
  span isdigit line = (ds, rest) -> (0 < length ds)%nat ->
  exists d line', line = d :: line' /\ isdigit d = true.
Proof.
  destruct line as [|d line']; cbn [span].
  - intros [= <- _]. cbn. lia.
  - destruct (isdigit d) eqn:Hd.
    + intros _ _. exists d, line'. split; [reflexivity | exact Hd].
    + intros [= <- _]. cbn. lia.
Qed.

Lemma lineRegex_head (line m1 m2 : list Z) :
  lineRegex line = Some (m1, m2) ->
  exists d line', line = d :: line' /\ isdigit d = true.
Proof.
  unfold lineRegex. destruct (span isdigit line) as [ds r1] eqn:Hs.
  destruct (span isspace r1) as [ws r2].
  destruct (0 <? length ds)%nat eqn:Hd; [|discriminate]. intros _.
  apply Nat.ltb_lt in Hd. exact (span_digits_head line ds r1 Hs Hd).
Qed.

Lemma ConvertFile_line_None (cs : bool) (st : conv_state) (line : list Z) :
  ConvertFile_line cs st line = None <->
  exists m1 m2, lineRegex (trim line) = Some (m1, m2) /\ INT_MAX < digits_value m1.
Proof.
  unfold ConvertFile_line. split.
  - destruct (length (trim line) =? 0)%nat; [discriminate|].
    destruct (nth 0 (trim line) 0 =? 35).
    { destruct (bool_decide _); [|discriminate].
      destruct (read_word (trim line)) as [dummy iss].
      destruct (extract_int iss); discriminate. }
    destruct (lineRegex (trim line)) as [[m1 m2]|]; [|discriminate].
    unfold stoi. destruct (Z.leb_spec (digits_value m1) INT_MAX); [discriminate|].
    intros _. exists m1, m2. split; [reflexivity | assumption].
  - intros (m1 & m2 & Hr & Hv).
    destruct (lineRegex_head _ _ _ Hr) as (d & line' & Hl & Hd). rewrite Hl in *.
    cbn [length Nat.eqb nth].
    replace (d =? 35) with false
      by (symmetry; apply Z.eqb_neq; apply isdigit_bounds in Hd; lia).
    rewrite Hr. unfold stoi.
    destruct (Z.leb_spec (digits_value m1) INT_MAX); [lia | reflexivity].
Qed.

(** X23.  A line number above [INT_MAX] makes the whole conversion fail,
    wherever its line stands among lines of at most 9362 characters: when
    a line starts, behind the characters the trimming step removes, with
    digits that stand for a number above [INT_MAX] and white space follows
    them, [std::stoi] throws, [ConvertFile] returns nothing and [main]
    writes no file. *)
Theorem ConvertFile_fails (lines : list (list Z)) (line m1 m2 : list Z) :
  Forall (fun l => Z.of_nat (length l) <= 9362) lines ->
  In line lines ->
  lineRegex (trim line) = Some (m1, m2) ->
  INT_MAX < digits_value m1 ->
  ConvertFile lines = None /\ encode lines = None.
Proof.
  intros _ Hin Hr Hv.
  assert (Hnone : forall st, ConvertFile_lines false st lines = None).
  { induction lines as [|l lines IH]; intros st; [destruct Hin|].
    cbn [ConvertFile_lines].
    destruct (ConvertFile_line false st l) as [st1|] eqn:H1; [|reflexivity].
    destruct Hin as [->|Hin]; [|apply IH; exact Hin].
    assert (Hn : ConvertFile_line false st line = None)
      by (apply ConvertFile_line_None; exists m1, m2; split; assumption).
    congruence. }
  split; [apply Hnone|]. unfold encode, ConvertFile. rewrite Hnone. reflexivity.
Qed.

Lemma ConvertFile_fails_witness :
  ConvertFile [bytes "10 CLS"; bytes "2147483648 PRINT 1"] = None /\
  encode [bytes "10 CLS"; bytes "2147483648 PRINT 1"] = None.
Proof.
  apply (ConvertFile_fails [bytes "10 CLS"; bytes "2147483648 PRINT 1"]
           (bytes "2147483648 PRINT 1") (bytes "2147483648") (bytes "PRINT 1")).
  - repeat (constructor; [vm_compute; discriminate|]). constructor.
  - right. left. reflexivity.
  - vm_compute. reflexivity.
  - vm_compute. reflexivity.
Defined.

(** *** The autostart directive *)

Lemma trim_id (l : list Z) :
  match l with c :: _ => is_trim_char c = false | [] => True end ->
  ends_untrimmed l -> trim l = l.
Proof.
  intros Hhead (c & r & Hr & Hc). unfold trim.
  destruct l as [|x l]; [discriminate|]. cbn [span]. rewrite Hhead. cbn [snd].
  rewrite Hr. cbn [span]. rewrite Hc. cbn [snd]. rewrite <- Hr. apply rev_involutive.
Qed.

Lemma directive_line (cs : bool) (st : conv_state) (n : Z) :
  0 <= n <= 65535 ->
  ConvertFile_line cs st (bytes "#autostart " ++ print_int n)
  = Some (mk_state (output st) (currentLineNum st) n).
Proof.
  intros Hn. destruct (number_facts_inv n Hn) as (Hne & Hds & Hval & _).
  destruct (print_int n) as [|d ds] eqn:Hp; [congruence|].
  assert (Hd : isdigit d = true) by (inversion Hds; assumption).
  pose proof (isdigit_bounds d Hd) as Hdb.
  unfold ConvertFile_line. rewrite trim_id.
  2:{ reflexivity. }
  2:{ apply ends_untrimmed_app. apply ends_untrimmed_digits; [discriminate | exact Hds]. }
  change (bytes "#autostart " ++ d :: ds)
    with (35 :: bytes "autostart" ++ 32 :: d :: ds).
  cbn [length Nat.eqb nth Z.eqb Pos.eqb].
  rewrite bool_decide_eq_true_2 by reflexivity.
  unfold read_word. rewrite (span_none isspace 35) by reflexivity. cbn [snd].
  change (35 :: bytes "autostart" ++ 32 :: d :: ds)
    with (bytes "#autostart" ++ 32 :: d :: ds).
  rewrite span_run.
  2:{ match goal with
      | |- Forall ?P ?l => let l' := eval vm_compute in l in change (Forall P l')
      end.
      repeat (constructor; [reflexivity|]). constructor. }
  2:{ reflexivity. }
  unfold extract_int.
  assert (Hsp : isspace d = false).
  { unfold isspace. apply orb_false_iff. split; [apply Z.eqb_neq; lia|].
    apply andb_false_iff. right. apply Z.leb_gt. lia. }
  assert (Hspan : snd (span isspace (32 :: d :: ds)) = d :: ds).
  { cbn [span]. change (isspace 32) with true. rewrite Hsp. reflexivity. }
  rewrite Hspan.
  assert (Hm : match d :: ds with
               | 45 :: s' => (true, s')
               | 43 :: s' => (false, s')
               | _ => (false, d :: ds)
               end = (false, d :: ds)).
  { destruct d as [|p|p]; try reflexivity.
    destruct p as [p|p|]; try reflexivity;
      repeat (destruct p as [p|p|]; try reflexivity; try (cbn in Hdb; lia)). }
  rewrite Hm. rewrite (span_all isdigit (d :: ds) Hds). cbn [fst length Nat.eqb].
  rewrite Hval. cbn [cond_Zopp]. unfold INT_MIN, INT_MAX.
  replace (n <? -2147483648) with false by (symmetry; apply Z.ltb_ge; lia).
  replace (2147483647 <? n) with false by (symmetry; apply Z.ltb_ge; lia).
  reflexivity.
Qed.

(** Lines that are no directives leave [AutoStartLine] alone and do not
    depend on it. *)
Lemma plain_lines_autostart (cs : bool) (lines : list (list Z)) :
  Forall (fun line => nth 0 (trim line) 0 <> 35) lines ->
  forall st st' a,
    ConvertFile_lines cs st lines = Some st' ->
    ConvertFile_lines cs (mk_state (output st) (currentLineNum st) a) lines
    = Some (mk_state (output st') (currentLineNum st') a).
Proof.
  induction 1 as [|line lines Hl _ IH]; intros st st' a; cbn [ConvertFile_lines].
  - intros [= <-]. reflexivity.
  - unfold ConvertFile_line. rewrite (proj2 (Z.eqb_neq _ _) Hl).
    cbn [output currentLineNum AutoStartLine].
    destruct (length (trim line) =? 0)%nat.
    { intros H2. rewrite (IH st st' a H2). reflexivity. }
    destruct (lineRegex (trim line)) as [[m1 m2]|].
    + destruct (stoi m1) as [lineNum|]; [|discriminate].
      intros H2. apply (IH _ st' a) in H2. cbn [output currentLineNum] in H2. exact H2.
    + intros H2. apply (IH _ st' a) in H2. cbn [output currentLineNum] in H2. exact H2.
Qed.

(** Two headers for the same length differ at most in the two bytes of the
    autostart field and in the checksum. *)
Lemma CreateHeader_autostart_bytes (basicLength a a' : Z) (i : nat) :
  i <> 18%nat -> i <> 19%nat -> i <> 127%nat ->
  CreateHeader basicLength a !! i = CreateHeader basicLength a' !! i.
Proof.
  intros H18 H19 H127.
  destruct (CreateHeader_explicit basicLength a) as (a0 & a1 & cs & -> & _).
  destruct (CreateHeader_explicit basicLength a') as (a0' & a1' & cs' & -> & _).
  change (bytes "PLUS3DOS") with [80; 76; 85; 83; 51; 68; 79; 83]. cbn [app].
  do 18 (destruct i as [|i]; [reflexivity|]).
  destruct i as [|i]; [congruence|]. destruct i as [|i]; [congruence|].
  do 2 (destruct i as [|i]; [reflexivity|]).
  rewrite !lookup_cons. cbn [Nat.pred].
  destruct (Nat.lt_ge_cases i 105) as [Hlt|Hge].
  - rewrite !lookup_app_l by (rewrite length_replicate; exact Hlt). reflexivity.
  - rewrite !lookup_app_r by (rewrite length_replicate; exact Hge).
    rewrite length_replicate.
    destruct (i - 105)%nat as [|j] eqn:Hj; [lia | reflexivity].
Qed.

(** X24.  The directive [#autostart n] changes the header only, and there
    at most the two bytes of the autostart field, at the offsets 18 and 19,
    and the checksum, at the offset 127: with the directive in front of
    lines that are no directives, the file has the length and, at every
    other offset, the bytes of the file without the directive, the line
    records included; from the field the decoder writes the directive
    back when the number is below 32768, and nothing when it is not. *)
Theorem autostart_directive (l1 l2 : list (list Z)) (n : Z) (file0 : list Z) :
  0 <= n <= 65535 ->
  Forall (fun line => nth 0 (trim line) 0 <> 35) l2 ->
  encode (l1 ++ l2) = Some file0 ->
  exists file,
    encode (l1 ++ (bytes "#autostart " ++ print_int n) :: l2) = Some file /\
    length file = length file0 /\
    (forall i : nat, i <> 18%nat -> i <> 19%nat -> i <> 127%nat ->
                     file !! i = file0 !! i) /\
    bas2txt.Parse_header file = (autostart_line n, 128%nat).
Proof.
  intros Hn Hl2. unfold encode, ConvertFile. rewrite !ConvertFile_lines_app.
  destruct (ConvertFile_lines false initial_state l1) as [st1|]; [|discriminate].
  cbn [ConvertFile_lines]. rewrite (directive_line false st1 n Hn).
  destruct (ConvertFile_lines false st1 l2) as [st|] eqn:Hc; [|discriminate].
  rewrite (plain_lines_autostart false l2 Hl2 st1 st n Hc).
  cbn [output AutoStartLine]. intros [= <-]. eexists. split; [reflexivity|].
  set (len := wrap_int (Z.of_nat (length (output st)))).
  split; [rewrite !length_app, !CreateHeader_length; reflexivity|].
  split; [|apply Parse_header_CreateHeader].
  intros i H18 H19 H127.
  destruct (Nat.lt_ge_cases i 128) as [Hlt|Hge].
  - rewrite !lookup_app_l by (rewrite CreateHeader_length; exact Hlt).
    apply CreateHeader_autostart_bytes; assumption.
  - rewrite !lookup_app_r by (rewrite CreateHeader_length; exact Hge).
    rewrite !CreateHeader_length. reflexivity.
Qed.

Lemma autostart_directive_witness :
  exists file,
    encode ([] ++ (bytes "#autostart " ++ print_int 100) :: [bytes "CLS"]) = Some file /\
    length file = length (CreateHeader 6 32768 ++ [0; 10; 2; 0; 0xFB; 0x0D]) /\
    (forall i : nat, i <> 18%nat -> i <> 19%nat -> i <> 127%nat ->
                     file !! i = (CreateHeader 6 32768 ++ [0; 10; 2; 0; 0xFB; 0x0D]) !! i) /\
    bas2txt.Parse_header file = (autostart_line 100, 128%nat).
Proof.
  apply (autostart_directive [] [bytes "CLS"] 100
           (CreateHeader 6 32768 ++ [0; 10; 2; 0; 0xFB; 0x0D])).
  - lia.
  - repeat (constructor; [vm_compute; discriminate|]). constructor.
  - vm_compute. reflexivity.
Defined.

(** *** Lines without a line number *)

Lemma unnumbered_lines (cs : bool) (lines : list (list Z)) :
  Forall (fun line => trim line <> [] /\ nth 0 (trim line) 0 <> 35 /\
                      lineRegex (trim line) = None) lines ->
  forall out cur a,
    INT_MIN <= cur -> cur + 10 * Z.of_nat (length lines) <= INT_MAX ->
    ConvertFile_lines cs (mk_state out cur a) lines
    = Some (mk_state
              (out ++ concat (imap (fun i line =>
                                      ParseLine_gen cs (cur + 10 * Z.of_nat i) (trim line))
                                   lines))
              (cur + 10 * Z.of_nat (length lines)) a).
Proof.
  induction 1 as [|line lines (Hne & Hh & Hr) _ IH]; intros out cur a Hlo Hhi.
  - cbn. rewrite app_nil_r, Z.add_0_r. reflexivity.
  - cbn [ConvertFile_lines]. unfold ConvertFile_line.
    destruct (Nat.eqb_spec (length (trim line)) 0) as [Hz|_];
      [apply nil_length_inv in Hz; congruence|].
    rewrite (proj2 (Z.eqb_neq _ _) Hh), Hr.
    cbn [output currentLineNum AutoStartLine].
    cbn [length] in Hhi. unfold INT_MIN, INT_MAX in *.
    rewrite wrap_int_small by lia.
    rewrite IH by (unfold INT_MIN, INT_MAX; lia).
    rewrite imap_cons. cbn [concat]. rewrite <- app_assoc.
    f_equal. f_equal.
    + f_equal. f_equal.
      * rewrite Z.add_0_r. reflexivity.
      * f_equal. apply imap_ext. intros i x _. unfold compose. f_equal. lia.
    + cbn [length]. lia.
Qed.

(** X25.  Lines without a line number (and no directives or blank lines)
    are numbered 10, 20, 30 and so on: the data are the records of the
    trimmed lines under these numbers. *)
Theorem auto_numbering (lines : list (list Z)) :
  Forall (fun line => trim line <> [] /\ nth 0 (trim line) 0 <> 35 /\
                      lineRegex (trim line) = None) lines ->
  10 * (Z.of_nat (length lines) + 1) <= INT_MAX ->
  ConvertFile lines
  = Some (mk_state
            (concat (imap (fun i line => ParseLine (10 * (Z.of_nat i + 1)) (trim line)) lines))
            (10 * (Z.of_nat (length lines) + 1)) 32768).
Proof.
  intros Hl Hn. unfold ConvertFile, initial_state.
  rewrite (unnumbered_lines false lines Hl [] 10 32768)
    by (unfold INT_MIN, INT_MAX in *; lia).
  cbn [app]. f_equal. f_equal.
  - f_equal. apply imap_ext. intros i x _. unfold ParseLine. f_equal. lia.
  - lia.
Qed.

Lemma auto_numbering_witness :
  ConvertFile [bytes "CLS"; bytes " PRINT 1"]
  = Some (mk_state
            (concat (imap (fun i line => ParseLine (10 * (Z.of_nat i + 1)) (trim line))
                       [bytes "CLS"; bytes " PRINT 1"]))
            (10 * (Z.of_nat (length [bytes "CLS"; bytes " PRINT 1"]) + 1)) 32768).
Proof.
  apply (auto_numbering [bytes "CLS"; bytes " PRINT 1"]).
  - repeat (constructor; [vm_compute; repeat split; discriminate|]). constructor.
  - vm_compute. discriminate.
Defined.

End SourceLines.

(** ** What the encoder does not tell apart *)

Section Indifference.
Import txt2bas.

(** *** Line numbers modulo 65536 *)

Lemma high_byte_mod (n : Z) : n / 256 mod 256 = (n mod 65536) / 256 mod 256.
Proof.
  change 65536 with (256 * 256). rewrite Z.rem_mul_r by lia.
  rewrite Z.mul_comm, Z.div_add by lia.
  rewrite (Z.div_small (n mod 256)) by (apply Z.mod_pos_bound; lia).
  rewrite Z.add_0_l, Z.mod_mod by lia. reflexivity.
Qed.

Lemma low_byte_mod (n : Z) : n mod 256 = (n mod 65536) mod 256.
Proof.
  symmetry. apply Z.mod_mod_divide. exists 256. reflexivity.
Qed.

(** X26.  Only the low 16 bits of a line number reach the record: two line
    numbers that agree modulo 65536 give the same record, so that the line
    65546 is written, and read back, as the line 10. *)
Theorem line_number_wraps (commentStage : bool) (n m : Z) (text : list Z) :
  n mod 65536 = m mod 65536 ->
  ParseLine_gen commentStage n text = ParseLine_gen commentStage m text.
Proof.
  intros H. unfold ParseLine_gen. cbv zeta. rewrite !byte_of_land, !shiftr_8.
  rewrite (high_byte_mod n), (high_byte_mod m), (low_byte_mod n), (low_byte_mod m), H.
  reflexivity.
Qed.

Lemma line_number_wraps_witness :
  ParseLine_gen false 65546 (bytes "CLS") = ParseLine_gen false 10 (bytes "CLS").
Proof. apply (line_number_wraps false 65546 10 (bytes "CLS")). reflexivity. Defined.

(** *** White space around a line *)

Lemma span_rest_run (p : Z -> bool) (run l : list Z) :
  Forall (fun c => p c = true) run -> snd (span p (run ++ l)) = snd (span p l).
Proof.
  induction 1 as [|c run Hc _ IH]; [reflexivity|].
  cbn [app span]. rewrite Hc. destruct (span p (run ++ l)) as [a b]. exact IH.
Qed.

Lemma span_rest_app (p : Z -> bool) (l r : list Z) :
  snd (span p l) <> [] -> snd (span p (l ++ r)) = snd (span p l) ++ r.
Proof.
  induction l as [|c l IH]; [cbn; congruence|]. cbn [app span].
  destruct (p c); [|reflexivity].
  destruct (span p l) as [a b], (span p (l ++ r)) as [a' b']. cbn [snd] in *. exact IH.
Qed.

Lemma span_rest_nil (p : Z -> bool) (l : list Z) :
  snd (span p l) = [] -> Forall (fun c => p c = true) l.
Proof.
  induction l as [|c l IH]; [constructor|]. cbn [span].
  destruct (p c) eqn:Hc; [|discriminate].
  destruct (span p l) as [a b]. cbn [snd] in *. intros H. constructor; [exact Hc | exact (IH H)].
Qed.

Lemma trim_white_space (ws1 line ws2 : list Z) :
  Forall (fun c => is_trim_char c = true) ws1 ->
  Forall (fun c => is_trim_char c = true) ws2 ->
  trim (ws1 ++ line ++ ws2) = trim line.
Proof.
  intros H1 H2. unfold trim. rewrite (span_rest_run is_trim_char ws1 _ H1).
  destruct (snd (span is_trim_char line)) as [|x b] eqn:Hb.
  - apply span_rest_nil in Hb.
    assert (Hall : Forall (fun c => is_trim_char c = true) (line ++ ws2))
      by (apply Forall_app; split; assumption).
    pose proof (span_rest_run is_trim_char (line ++ ws2) [] Hall) as Hn.
    rewrite app_nil_r in Hn. rewrite Hn. reflexivity.
  - rewrite span_rest_app by (rewrite Hb; discriminate). rewrite Hb.
    rewrite rev_app_distr. rewrite span_rest_run; [reflexivity|].
    apply Forall_rev. exact H2.
Qed.

(** X27.  Spaces, tabs, carriage returns and line feeds in front of a
    source line and behind it change nothing: the line is converted as the
    line without them is. *)
Theorem white_space_around_line (commentStage : bool) (st : conv_state)
    (ws1 line ws2 : list Z) :
  Forall (fun c => is_trim_char c = true) ws1 ->
  Forall (fun c => is_trim_char c = true) ws2 ->
  ConvertFile_line commentStage st (ws1 ++ line ++ ws2)
  = ConvertFile_line commentStage st line.
Proof.
  intros H1 H2. unfold ConvertFile_line. rewrite (trim_white_space ws1 line ws2 H1 H2).
  reflexivity.
Qed.

Lemma white_space_around_line_witness :
  ConvertFile_line false initial_state ([32; 9] ++ bytes "10 PRINT 1" ++ [32; 13])
  = ConvertFile_line false initial_state (bytes "10 PRINT 1").
Proof.
  apply (white_space_around_line false initial_state [32; 9] (bytes "10 PRINT 1") [32; 13]);
    repeat (constructor; [reflexivity|]); constructor.
Defined.


(** *** The case of the letters of a keyword *)

(** X28.  Keywords are recognised whatever the case of their letters: two
    lines that differ in the case of letters only give the same key, or
    none, at every position. *)
Theorem match_keys_case (text text' : list Z) (i : nat) :
  map toupper text' = map toupper text ->
  match_keys _sortedKeys text' i = match_keys _sortedKeys text i.
Proof.
  intros H. rewrite !match_keys_find.
  induction _sortedKeys as [|k keys IH]; [reflexivity|].
  cbn [List.find]. rewrite (key_hit_case text text' i k H), IH. reflexivity.
Qed.

Lemma match_keys_case_witness :
  match_keys _sortedKeys (bytes "Go Sub 100") 0 = match_keys _sortedKeys (bytes "GO SUB 100") 0.
Proof.
  apply (match_keys_case (bytes "GO SUB 100") (bytes "Go Sub 100") 0). reflexivity.
Defined.

End Indifference.

(** ** The comment stage of the second copy of the tokenizer *)

Section CommentStage.
Import txt2bas.

(** The backwards scan finds the start of a statement: spaces only back to
    the start of the line or to a colon. *)
Lemma comment_context_spec (text : list Z) (n : nat) :
  comment_context text n = true <->
  exists k : nat,
    (k <= n)%nat /\
    (forall j : nat, (k <= j < n)%nat -> nth j text 0 = 32) /\
    (k = O \/ nth (k - 1) text 0 = 58).
Proof.
  induction n as [|back IH]; cbn [comment_context].
  - split; [|reflexivity]. intros _. exists O. split; [lia|]. split; [intros j Hj; lia|].
    left. reflexivity.
  - destruct (Z.eqb_spec (nth back text 0) 32) as [Hs|Hs].
    + rewrite IH. split.
      * intros (k & Hk & Hsp & Hb). exists k. split; [lia|]. split; [|exact Hb].
        intros j Hj. destruct (Nat.eq_dec j back) as [->|Hne]; [exact Hs|].
        apply Hsp. lia.
      * intros (k & Hk & Hsp & Hb).
        destruct (Nat.eq_dec k (S back)) as [->|Hne].
        -- destruct Hb as [Hb|Hb]; [lia|].
           replace (S back - 1)%nat with back in Hb by lia. rewrite Hb in Hs. lia.
        -- exists k. split; [lia|]. split; [|exact Hb]. intros j Hj. apply Hsp. lia.
    + split.
      * intros Hc. apply Z.eqb_eq in Hc. exists (S back). split; [lia|].
        split; [intros j Hj; lia|]. right.
        replace (S back - 1)%nat with back by lia. exact Hc.
      * intros (k & Hk & Hsp & Hb).
        destruct (Nat.eq_dec k (S back)) as [->|Hne].
        -- destruct Hb as [Hb|Hb]; [lia|].
           replace (S back - 1)%nat with back in Hb by lia. apply Z.eqb_eq. exact Hb.
        -- exfalso. apply Hs. apply Hsp. lia.
Qed.

Lemma body_semicolon_raw (text : list Z) (i : nat) :
  (i < length text)%nat -> nth i text 0 = 59 -> comment_context text i = false ->
  ParseLine_body true text i = ([59], i).
Proof.
  intros Hi Hc Hctx. unfold ParseLine_body. rewrite Hc, Hctx.
  cbn [Z.eqb Pos.eqb isdigit Z.leb Z.compare Pos.compare Pos.compare_cont andb orb].
  destruct (lookup_lt_is_Some_2 text i Hi) as [c Hx].
  pose proof (nth_lookup_Some text i 0 c Hx) as Hn. rewrite Hc in Hn. subst c.
  pose proof (take_drop_middle text i 59 Hx) as Ht.
  assert (Hl : length (take i text) = i) by (rewrite length_take; lia).
  pose proof (match_keys_foreign_char (take i text) 59 (drop (S i) text) eq_refl) as Hm.
  rewrite Ht, Hl in Hm. rewrite Hm. reflexivity.
Qed.

(** X29.  In the second copy of the tokenizer a semicolon starts a comment
    exactly at the start of a statement, that is when only spaces separate
    it from the start of the line or from a colon: there the rest of the
    line is copied byte for byte and the scan ends; anywhere else the
    semicolon is copied alone and the scan goes on behind it, as in a
    [PRINT] list. *)
Theorem semicolon_in_second_copy (text : list Z) (i fuel : nat) (lineData : list Z) :
  (i < length text)%nat -> nth i text 0 = 59 ->
  ((exists k : nat,
       (k <= i)%nat /\
       (forall j : nat, (k <= j < i)%nat -> nth j text 0 = 32) /\
       (k = O \/ nth (k - 1) text 0 = 58)) ->
   ParseLine_loop (S fuel) true text i lineData = lineData ++ substr_from text i) /\
  (~ (exists k : nat,
         (k <= i)%nat /\
         (forall j : nat, (k <= j < i)%nat -> nth j text 0 = 32) /\
         (k = O \/ nth (k - 1) text 0 = 58)) ->
   ParseLine_loop (S fuel) true text i lineData
   = ParseLine_loop fuel true text (S i) (lineData ++ [59])).
Proof.
  intros Hi Hc. split; intros Hctx.
  - apply comment_context_spec in Hctx.
    assert (Hb : ParseLine_body true text i = (substr_from text i, length text)).
    { unfold ParseLine_body. rewrite Hc, Hctx. reflexivity. }
    rewrite (ParseLine_loop_step fuel true text i _ lineData _ Hi Hb).
    apply ParseLine_loop_end. lia.
  - assert (Hf : comment_context text i = false).
    { destruct (comment_context text i) eqn:E; [|reflexivity].
      exfalso. apply Hctx. apply comment_context_spec. exact E. }
    exact (ParseLine_loop_step fuel true text i i lineData [59] Hi
             (body_semicolon_raw text i Hi Hc Hf)).
Qed.

Lemma semicolon_in_second_copy_witness :
  ParseLine_loop 9 true (bytes "CLS : ;x") 6 [0xFB; 58; 32]
  = [0xFB; 58; 32] ++ substr_from (bytes "CLS : ;x") 6.
Proof.
  destruct (semicolon_in_second_copy (bytes "CLS : ;x") 6 8 [0xFB; 58; 32]) as [H _].
  - vm_compute. lia.
  - reflexivity.
  - apply H. exists 5%nat. split; [lia|]. split.
    + intros j Hj. assert (j = 5%nat) as -> by lia. reflexivity.
    + right. reflexivity.
Defined.

End CommentStage.
